(** * POCS: camera command channel, shutter-speed resolution and the
      Observatory coordinator

    A shallow embedding of
    - [panoptes/pocs/camera/gphoto/canon.py]  ([Camera.get_shutterspeed_index]),
    - [panoptes/pocs/camera/gphoto/base.py]   ([AbstractGPhotoCamera.command],
      [is_exposing], [get_command_result]),
    - [panoptes/pocs/observatory.py]          ([Observatory.add_camera],
      [observe], [process_observation]),
    with the properties of the specification stated against it. *)

From Stdlib Require Import ZArith QArith Floats String Ascii List Bool Lia.
From stdpp Require Import base option list strings gmap.
Import ListNotations.

Set Warnings "-inexact-float".

Local Open Scope string_scope.
Local Open Scope list_scope.

(** ** Python values, exceptions and results *)

(** The exceptions that the modelled code raises or catches.  [Other] stands
    for any exception coming out of an external collaborator. *)
Inductive exn : Type :=
| ValueError
| TypeError
| KeyError (key : string)
| IndexError
| AttributeError
| TimeoutError
| FileNotFoundError
| InvalidCommand (msg : string)
| PanError (msg : string)
| Other (msg : string).

(** A call returns a value, raises, or never returns. *)
Inductive result (A : Type) : Type :=
| Ok (a : A)
| Raise (e : exn)
| Diverge.
Arguments Ok {A} a.
Arguments Raise {A} e.
Arguments Diverge {A}.

(** Sequencing: the first exception raised ends the computation. *)
Definition rbind {A B} (r : result A) (k : A -> result B) : result B :=
  match r with
  | Ok a => k a
  | Raise e => Raise e
  | Diverge => Diverge
  end.

Notation "'let!' x ':=' r 'in' k" := (rbind r (fun x => k))
  (at level 10, x name, r at level 100, k at level 200).

(** The levels of [self.logger]. *)
Inductive level : Type := DEBUG | TRACE | INFO | WARNING | ERROR.

(** ** canon.py *)
Module Canon.

(** The values that flow through [get_shutterspeed_index]: the keys of the
    table are [str], its values are the [str] ["bulb"] or numbers, and the
    argument is one of these or [None], the default of [seconds] in
    [_start_exposure].  Numbers are IEEE-754 doubles; the integer literals
    of the table ([30], [25], ...) are embedded as the doubles they compare
    equal to. *)
Inductive py_value : Type :=
| PyStr (s : string)
| PyNum (f : float)
| PyNone.

(** Python [==], as [list.index] applies it. *)
Definition py_eq (a b : py_value) : bool :=
  match a, b with
  | PyStr s, PyStr t => String.eqb s t
  | PyNum x, PyNum y => PrimFloat.eqb x y
  | PyNone, PyNone => true
  | _, _ => false
  end.

(** Python [<]: ordering a [str] against a number, or [None] against
    anything, raises [TypeError]. *)
Definition py_lt (a b : py_value) : result bool :=
  match a, b with
  | PyNum x, PyNum y => Ok (PrimFloat.ltb x y)
  | PyStr s, PyStr t => Ok (match String.compare s t with Lt => true | _ => false end)
  | _, _ => Raise TypeError
  end.

(** [l.index(x)]: position of the first element equal to [x]; [None] stands
    for the [ValueError] that Python raises. *)
Fixpoint index_from (n : nat) (l : list py_value) (x : py_value) : option nat :=
  match l with
  | [] => None
  | y :: l' => if py_eq y x then Some n else index_from (S n) l' x
  end.

Definition index (l : list py_value) (x : py_value) : result nat :=
  match index_from 0 l x with
  | Some i => Ok i
  | None => Raise ValueError
  end.

(** [min(l)]: keeps the first item, replaces it by each later item that is
    [<] the current one; [ValueError] on an empty sequence. *)
Fixpoint min_from (cur : py_value) (l : list py_value) : result py_value :=
  match l with
  | [] => Ok cur
  | y :: l' =>
      let! b := py_lt y cur in
      min_from (if b then y else cur) l'
  end.

Definition py_min (l : list py_value) : result py_value :=
  match l with
  | [] => Raise ValueError
  | y :: l' => min_from y l'
  end.

(** A dict in insertion order. *)
Definition table : Type := list (string * py_value).

Definition keys (t : table) : list py_value := map (fun kv => PyStr (fst kv)) t.
Definition values (t : table) : list py_value := map snd t.

Local Open Scope float_scope.

(** The [shutter_speeds] dict of [get_shutterspeed_index].  The position of
    an entry is the index that gphoto2 expects. *)
Definition shutter_speeds : table :=
  [ ("bulb", PyStr "bulb");
    ("30", PyNum 30);
    ("25", PyNum 25);
    ("20", PyNum 20);
    ("15", PyNum 15);
    ("13", PyNum 13);
    ("10.3", PyNum 10.3);
    ("8", PyNum 8);
    ("6.3", PyNum 6.3);
    ("5", PyNum 5);
    ("4", PyNum 4);
    ("3.2", PyNum 3.2);
    ("2.5", PyNum 2.5);
    ("2", PyNum 2);
    ("1.6", PyNum 1.6);
    ("1.3", PyNum 1.3);
    ("1", PyNum 1);
    ("0.8", PyNum 0.8);
    ("0.6", PyNum 0.6);
    ("0.5", PyNum 0.5);
    ("0.4", PyNum 0.4);
    ("0.3", PyNum 0.3);
    ("1/4", PyNum (1 / 4));
    ("1/5", PyNum (1 / 5));
    ("1/6", PyNum (1 / 6));
    ("1/8", PyNum (1 / 8));
    ("1/10", PyNum (1 / 10));
    ("1/13", PyNum (1 / 13));
    ("1/15", PyNum (1 / 15));
    ("1/20", PyNum (1 / 20));
    ("1/25", PyNum (1 / 25));
    ("1/30", PyNum (1 / 30));
    ("1/40", PyNum (1 / 40));
    ("1/50", PyNum (1 / 50));
    ("1/60", PyNum (1 / 60));
    ("1/80", PyNum (1 / 80));
    ("1/100", PyNum (1 / 100));
    ("1/125", PyNum (1 / 125));
    ("1/160", PyNum (1 / 160));
    ("1/200", PyNum (1 / 200));
    ("1/250", PyNum (1 / 250));
    ("1/320", PyNum (1 / 320));
    ("1/400", PyNum (1 / 400));
    ("1/500", PyNum (1 / 500));
    ("1/640", PyNum (1 / 640));
    ("1/800", PyNum (1 / 800));
    ("1/1000", PyNum (1 / 1000));
    ("1/1250", PyNum (1 / 1250));
    ("1/1600", PyNum (1 / 1600));
    ("1/2000", PyNum (1 / 2000));
    ("1/2500", PyNum (1 / 2500));
    ("1/3200", PyNum (1 / 3200));
    ("1/4000", PyNum (1 / 4000)) ].

Local Close Scope float_scope.

(** [except ValueError: handler]. *)
Definition except_ValueError {A} (r : result A) (handler : result A) : result A :=
  match r with
  | Raise ValueError => handler
  | _ => r
  end.

(** The body of [get_shutterspeed_index] over a table [t].  [and] evaluates
    [seconds < min(...)] only when [return_minimum] is true. *)
Definition get_shutterspeed_index_in (t : table)
    (seconds : py_value) (return_minimum : bool) : result nat :=
  except_ValueError
    (* First check by key. *)
    (index (keys t) seconds)
    (* Then check by value. *)
    (except_ValueError
       (let! c := (if return_minimum
                   then let! m := py_min (tl (values t)) in py_lt seconds m
                   else Ok false) in
        if (c : bool)
        then Ok (length t - 1)%nat
        else index (values t) seconds)
       (Ok 0%nat)).

(** [Camera.get_shutterspeed_index].  [get_quantity_value] strips the unit
    of an astropy quantity and leaves any other value as it is. *)
Definition get_shutterspeed_index (seconds : py_value) (return_minimum : bool)
    : result nat :=
  get_shutterspeed_index_in shutter_speeds seconds return_minimum.

(** *** The resolution rule in the words of the specification *)

(** "The requested duration is shorter than every non-bulb table entry". *)
Definition shorter_than_every_entry (t : table) (seconds : py_value) : bool :=
  match seconds with
  | PyNum x =>
      forallb (fun v => match v with
                        | PyNum f => PrimFloat.ltb x f
                        | PyStr _ | PyNone => false
                        end) (tl (values t))
  | PyStr _ | PyNone => false
  end.

(** The four-way precedence: (i) exact match by key, (ii) else exact match
    by value, (iii) else the last index when the minimum fallback is asked
    for and the duration is shorter than every non-bulb entry, (iv) else 0. *)
Definition resolveShutterIndex_spec (t : table)
    (seconds : py_value) (return_minimum : bool) : nat :=
  match index_from 0 (keys t) seconds with
  | Some i => i
  | None =>
      match index_from 0 (values t) seconds with
      | Some i => i
      | None =>
          if return_minimum && shorter_than_every_entry t seconds
          then (length t - 1)%nat
          else 0%nat
      end
  end.

(** What callers request: a duration in seconds (the parameter is annotated
    [float]) or the symbolic key of a table entry. *)
Definition is_request (t : table) (seconds : py_value) : bool :=
  match seconds with
  | PyNum _ => true
  | PyStr _ => bool_decide (is_Some (index_from 0 (keys t) seconds))
  | PyNone => false
  end.

(** "The requested duration is longer than every non-bulb table entry". *)
Definition longer_than_every_entry (t : table) (seconds : py_value) : bool :=
  match seconds with
  | PyNum x =>
      forallb (fun v => match v with
                        | PyNum f => PrimFloat.ltb f x
                        | PyStr _ | PyNone => false
                        end) (tl (values t))
  | PyStr _ | PyNone => false
  end.

(** The table of the specification's example scenario. *)
Definition example_table : table :=
  [ ("bulb", PyStr "bulb");
    ("30", PyNum 30%float);
    ("8", PyNum 8%float);
    ("1", PyNum 1%float);
    ("1/1000", PyNum (1 / 1000)%float) ].

End Canon.

(** ** base.py *)
Module GPhoto.

(** *** The external process ([subprocess.Popen])

    Time is a virtual clock counted in ticks.  A started process is described
    by when it exits on its own, if ever, and by what it has written to its
    pipes by a given time. *)
Record process : Type := {
  handle : nat;                     (* identity of the [Popen] object *)
  pid : nat;
  run_cmd : list string;
  exits_at : option nat;            (* [None]: never exits on its own *)
  stdout_by : nat -> string;
  stderr_by : nat -> string;
}.

(** What [subprocess.Popen(run_cmd, ...)] does. *)
Inductive popen_outcome : Type :=
| Started (pid : nat) (exits_at : option nat) (stdout_by stderr_by : nat -> string)
| PopenOSError (msg : string)
| PopenValueError (msg : string)
| PopenException (msg : string).

(** The environment of a camera: where [shutil.which('gphoto2')] finds the
    executable, and what starting a command line at a given time does. *)
Record environment : Type := {
  which_gphoto2 : option string;   (* [None]: not on the PATH *)
  popen : list string -> nat -> popen_outcome;
}.

(** The calls to [self.logger]. *)
Inductive log_entry : Type :=
| Log (lvl : level) (msg : string).

(** The world outside the camera object. *)
Record world : Type := {
  now : nat;
  started : list process;           (* every process started, latest first *)
  kills : list (nat * nat);         (* (handle, time) of every [kill()] *)
  log : list log_entry;             (* latest first *)
}.

(** The attributes of [AbstractGPhotoCamera] that the command channel uses. *)
Record camera : Type := {
  port : option string;
  _command_proc : option process;
  _is_exposing_event : bool;        (* [threading.Event], set elsewhere *)
}.

Definition state : Type := camera * world.

Definition set_now (t : nat) (w : world) : world :=
  {| now := t; started := started w; kills := kills w; log := log w |}.
Definition add_started (p : process) (w : world) : world :=
  {| now := now w; started := p :: started w; kills := kills w; log := log w |}.
Definition add_kill (h : nat) (w : world) : world :=
  {| now := now w; started := started w; kills := (h, now w) :: kills w; log := log w |}.
Definition add_log (e : log_entry) (w : world) : world :=
  {| now := now w; started := started w; kills := kills w; log := e :: log w |}.

Definition set_command_proc (p : option process) (c : camera) : camera :=
  {| port := port c; _command_proc := p; _is_exposing_event := _is_exposing_event c |}.
Definition clear_is_exposing_event (c : camera) : camera :=
  {| port := port c; _command_proc := _command_proc c; _is_exposing_event := false |}.

(** The time of the first [kill()] of a process. *)
Fixpoint killed_at (h : nat) (ks : list (nat * nat)) : option nat :=
  match ks with
  | [] => None
  | (h', t) :: ks' =>
      if Nat.eqb h h'
      then match killed_at h ks' with
           | Some t' => Some (Nat.min t t')
           | None => Some t
           end
      else killed_at h ks'
  end.

(** When the process has ended: on its own or by the first kill. *)
Definition ended_at (w : world) (p : process) : option nat :=
  match killed_at (handle p) (kills w), exits_at p with
  | Some k, Some e => Some (Nat.min k e)
  | Some k, None => Some k
  | None, e => e
  end.

(** [Popen.poll()]: [None] while the process runs. *)
Definition poll (w : world) (p : process) : option nat :=
  match ended_at w p with
  | Some e => if Nat.leb e (now w) then Some 0%nat else None
  | None => None
  end.

Inductive communicated : Type :=
| Outputs (outs errs : string)
| TimeoutExpired
| Blocked.

(** [Popen.communicate(timeout)]: waits for the process to end and returns
    what it wrote; with a timeout, raises [TimeoutExpired] when the process
    has not ended by then; without one, waits for ever on a process that
    never ends. *)
Definition communicate (timeout : option nat) (p : process) (w : world)
    : communicated * world :=
  match ended_at w p, timeout with
  | Some e, None =>
      (Outputs (stdout_by p e) (stderr_by p e), set_now (Nat.max (now w) e) w)
  | Some e, Some t =>
      if Nat.leb e (now w + t)
      then (Outputs (stdout_by p e) (stderr_by p e), set_now (Nat.max (now w) e) w)
      else (TimeoutExpired, set_now (now w + t) w)
  | None, Some t => (TimeoutExpired, set_now (now w + t) w)
  | None, None => (Blocked, w)
  end.

(** [Popen.kill()]. *)
Definition kill (p : process) (w : world) : world := add_kill (handle p) w.

(** [str.split('\n')]. *)
Fixpoint split_lines (s : string) : list string :=
  match s with
  | EmptyString => [EmptyString]
  | String a s' =>
      if Ascii.eqb a "010"%char
      then EmptyString :: split_lines s'
      else match split_lines s' with
           | [] => [String a EmptyString]
           | l :: ls => String a l :: ls
           end
  end.

(** *** The methods *)

(** [is_exposing]: clears the event when there is a process and it has
    exited, then reads the event. *)
Definition is_exposing (st : state) : bool * state :=
  let (c, w) := st in
  let c' :=
    match _command_proc c with
    | Some p =>
        match poll w p with
        | Some _ => clear_is_exposing_event c
        | None => c
        end
    | None => c
    end in
  (_is_exposing_event c', (c', w)).

(** [command(cmd)]; [cmd] is the list that [listify] makes of the argument. *)
Definition command (env : environment) (cmd : list string) (st : state)
    : result unit * state :=
  (* Test to see if there is a running command already *)
  let (exposing, st1) := is_exposing st in
  if exposing
  then (Raise (InvalidCommand "Command already running"), st1)
  else
    let (c, w) := st1 in
    (* Build the command. *)
    let args :=
      match port c with
      | Some prt => ["--port"; prt]
      | None => []
      end ++ cmd in
    let w := add_log (Log DEBUG "gphoto2 command") w in
    match which_gphoto2 env with
    | None =>
        (* [Popen] of a list that starts with [None] *)
        (Raise (PanError "expected str, bytes or os.PathLike object, not NoneType"), (c, w))
    | Some exe =>
        let run_cmd := exe :: args in
        match popen env run_cmd (now w) with
        | Started pid_ exits out err =>
            let p := {| handle := length (started w); pid := pid_; run_cmd := run_cmd;
                        exits_at := exits; stdout_by := out; stderr_by := err |} in
            (Ok tt, (set_command_proc (Some p) c, add_started p w))
        | PopenOSError msg =>
            (Raise (InvalidCommand ("Can't send command to gphoto2. " ++ msg)), (c, w))
        | PopenValueError msg =>
            (Raise (InvalidCommand ("Bad parameters to gphoto2. " ++ msg)), (c, w))
        | PopenException msg =>
            (Raise (PanError msg), (c, w))
        end
    end.

(** [get_command_result(timeout)]: [None] when no command has been started,
    else the lines of the output. *)
Definition get_command_result (timeout : nat) (st : state)
    : result (option (list string)) * state :=
  let (c, w) := st in
  match _command_proc c with
  | None => (Ok None, (c, w))
  | Some p =>
      let w := add_log (Log DEBUG "Getting output from proc") w in
      let collected :=
        match communicate (Some timeout) p w with
        | (TimeoutExpired, w1) =>
            let w1 := add_log (Log DEBUG "Timeout while waiting. Killing process") w1 in
            let w2 := kill p w1 in
            communicate None p w2
        | done => done
        end in
      match collected with
      | (Outputs outs errs, w3) =>
          let w3 := add_log (Log TRACE "gphoto2 output") w3 in
          let w3 := if String.eqb errs "" then w3
                    else add_log (Log ERROR ("gphoto2 error: " ++ errs)) w3 in
          let outs := split_lines outs in
          (Ok (Some outs), (set_command_proc None c, w3))
      | (TimeoutExpired, w3) => (Raise (Other "TimeoutExpired"), (c, w3))
      | (Blocked, w3) => (Diverge, (c, w3))
      end
  end.

(** A camera as [__init__] leaves it ([_command_proc] is [None]; the event
    that [AbstractCamera] creates is a fresh, unset [threading.Event]), in a
    world where nothing has run. *)
Definition new_camera (prt : option string) : state :=
  ({| port := prt; _command_proc := None; _is_exposing_event := false |},
   {| now := 0; started := []; kills := []; log := [] |}).

(** The process has not ended [timeout] ticks from now. *)
Definition still_running_after (timeout : nat) (w : world) (p : process) : Prop :=
  match ended_at w p with
  | Some e => (now w + timeout < e)%nat
  | None => True
  end.

(** An environment in which every command starts a process; the process
    runs for [duration] ticks ([None]: for ever) and writes [out]. *)
Definition simple_environment (duration : option nat) (out : string) : environment :=
  {| which_gphoto2 := Some "/usr/bin/gphoto2";
     popen := fun _ t =>
       Started 4242 (option_map (Nat.add t) duration) (fun _ => out) (fun _ => "") |}.

End GPhoto.

(** ** observatory.py *)
Module Observatory.

(** *** Data *)

(** What a call to an external collaborator (plate solver, fpack, database,
    background process, camera) does: it returns or it raises. *)
Inductive outcome (A : Type) : Type :=
| Returns (a : A)
| Raises (e : exn).
Arguments Returns {A} a.
Arguments Raises {A} e.

(** The values kept in metadata dicts and in the configuration. *)
Inductive value : Type :=
| VNone
| VBool (b : bool)
| VNum (n : nat)
| VStr (s : string).

#[global] Instance value_eq_dec : EqDecision value.
Proof. solve_decision. Defined.

(** Python truthiness. *)
Definition truthy (v : value) : bool :=
  match v with
  | VNone => false
  | VBool b => b
  | VNum n => negb (Nat.eqb n 0)
  | VStr s => negb (String.eqb s "")
  end.

Record exposure : Type := {
  image_id : string;
  path : value;
  metadata : gmap string value;
}.

Record observation : Type := {
  exptime : nat;                                  (* [exptime.value], in ticks *)
  exposure_list : gmap string (list exposure);    (* most recent last *)
}.

(** A camera as the coordinator sees it.  [is_observing] is the flag read at
    a given time of the virtual clock. *)
Record camera : Type := {
  uid : string;
  is_primary : bool;
  readout_time : nat;
  timeout : nat;
  is_observing : nat -> bool;
}.

Record observatory : Type := {
  cameras : list (string * camera);               (* [OrderedDict] *)
  _primary_camera : option camera;
  current_observation : option observation;
}.

(** Calls that leave the coordinator. *)
Inductive call : Type :=
| GetStandardHeaders
| TakeObservation (cam_name : string)
| Sleep (ticks : nat)
| GetSolveField (file_path : value)
| Fpack (file_path : value)
| InsertCurrent (collection : string) (record : gmap string value)
| PrettyImageProcess (file_path : value) (title : value * value * value)
    (link_path : option string)
| ImageUploaderProcess (file_path : value) (bucket_name : value).

Inductive event : Type :=
| Logged (lvl : level) (msg : string)
| Called (c : call).

Record environment : Type := {
  get_config : string -> value;                   (* with [default=False] *)
  get_standard_headers : outcome unit;
  take_observation : string -> outcome unit;
  get_solve_field : value -> outcome (gmap string value);
  fpack : value -> outcome value;
  insert_current : string -> gmap string value -> outcome unit;
  path_exists : value -> bool;
  start_process : call -> outcome unit;           (* [Process(...).start()] *)
}.

(** The coordinator, the virtual clock and what has happened so far
    (latest event first). *)
Record state : Type := {
  self : observatory;
  clock : nat;
  events : list event;
}.

(** *** Stateful computations *)

Definition M (A : Type) : Type := state -> result A * state.

Definition ret {A} (a : A) : M A := fun st => (Ok a, st).
Definition raise {A} (e : exn) : M A := fun st => (Raise e, st).
Definition diverge {A} : M A := fun st => (Diverge, st).

Definition bind {A B} (m : M A) (k : A -> M B) : M B := fun st =>
  match m st with
  | (Ok a, st') => k a st'
  | (Raise e, st') => (Raise e, st')
  | (Diverge, st') => (Diverge, st')
  end.

Notation "'let*' x ':=' m 'in' k" := (bind m (fun x => k))
  (at level 10, x pattern, m at level 100, k at level 200).
Notation "m ';;' k" := (bind m (fun _ => k))
  (at level 100, k at level 200, right associativity).

(** [try: m except Exception: handler]. *)
Definition try_except {A} (m : M A) (handler : exn -> M A) : M A := fun st =>
  match m st with
  | (Raise e, st') => handler e st'
  | r => r
  end.

Definition add_event (e : event) (st : state) : state :=
  {| self := self st; clock := clock st; events := e :: events st |}.
Definition set_self (o : observatory) (st : state) : state :=
  {| self := o; clock := clock st; events := events st |}.
Definition advance (ticks : nat) (st : state) : state :=
  {| self := self st; clock := clock st + ticks; events := events st |}.

Definition logger (lvl : level) (msg : string) : M unit := fun st =>
  (Ok tt, add_event (Logged lvl msg) st).

(** An external call: recorded, then it returns or raises. *)
Definition invoke {A} (c : call) (o : outcome A) : M A := fun st =>
  (match o with Returns a => Ok a | Raises e => Raise e end,
   add_event (Called c) st).

(** *** The camera registry *)

(** [d[k] = v] on an [OrderedDict]: an existing key keeps its position, a
    new key goes to the end. *)
Fixpoint od_set {V} (d : list (string * V)) (k : string) (v : V) : list (string * V) :=
  match d with
  | [] => [(k, v)]
  | (k', v') :: d' =>
      if String.eqb k k' then (k, v) :: d' else (k', v') :: od_set d' k v
  end.

Fixpoint od_get {V} (d : list (string * V)) (k : string) : option V :=
  match d with
  | [] => None
  | (k', v') :: d' => if String.eqb k k' then Some v' else od_get d' k
  end.

(** [del d[k]]. *)
Fixpoint od_del {V} (d : list (string * V)) (k : string) : list (string * V) :=
  match d with
  | [] => []
  | (k', v') :: d' => if String.eqb k k' then d' else (k', v') :: od_del d' k
  end.

Definition od_keys {V} (d : list (string * V)) : list string := map fst d.
Definition od_mem {V} (d : list (string * V)) (k : string) : bool :=
  match od_get d k with Some _ => true | None => false end.

Definition set_cameras (d : list (string * camera)) (o : observatory) : observatory :=
  {| cameras := d; _primary_camera := _primary_camera o;
     current_observation := current_observation o |}.

(** The [primary_camera] setter. *)
Definition set_primary_camera (cam : camera) (o : observatory) : observatory :=
  let cam := {| uid := uid cam; is_primary := true; readout_time := readout_time cam;
                timeout := timeout cam; is_observing := is_observing cam |} in
  {| cameras := cameras o; _primary_camera := Some cam;
     current_observation := current_observation o |}.

Definition has_cameras (o : observatory) : bool :=
  Nat.ltb 0 (length (cameras o)).

(** The [primary_camera] getter: the first camera when none is marked. *)
Definition primary_camera (o : observatory) : option camera :=
  match _primary_camera o, cameras o with
  | None, (_, cam) :: _ => Some cam
  | p, _ => p
  end.

Definition add_camera (cam_name : string) (cam : camera) : M unit :=
  logger DEBUG "Adding camera" ;;
  (fun st =>
     if od_mem (cameras (self st)) cam_name
     then logger DEBUG "already exists, replacing existing camera under that name." st
     else ret tt st) ;;
  (fun st => (Ok tt, set_self (set_cameras (od_set (cameras (self st)) cam_name cam)
                                 (self st)) st)) ;;
  (fun st =>
     if is_primary cam
     then (Ok tt, set_self (set_primary_camera cam (self st)) st)
     else (Ok tt, st)).

Definition remove_camera (cam_name : string) : M unit :=
  logger DEBUG "Removing camera" ;;
  (fun st =>
     if od_mem (cameras (self st)) cam_name
     then (Ok tt, set_self (set_cameras (od_del (cameras (self st)) cam_name) (self st)) st)
     else (Raise (KeyError cam_name), st)).

(** *** [observe] *)

(** Modelled from the spec: [CountdownTimer] of [panoptes.utils.time], which
    is not under src/.  The timer expires once its duration has elapsed;
    [sleep(max_sleep)] waits until the timer expires or for [max_sleep],
    whichever is sooner, a [max_sleep] of zero being no bound. *)
Record CountdownTimer : Type := { target_time : nat }.

Definition new_timer (duration : nat) : M CountdownTimer := fun st =>
  (Ok {| target_time := clock st + duration |}, st).

Definition time_left (timer : CountdownTimer) (st : state) : nat :=
  target_time timer - clock st.

Definition expired (timer : CountdownTimer) (st : state) : bool :=
  Nat.eqb (time_left timer st) 0.

Definition timer_sleep (timer : CountdownTimer) (max_sleep : nat) : M unit := fun st =>
  let remaining := time_left timer st in
  let sleep_time :=
    if Nat.ltb 0 max_sleep && Nat.ltb max_sleep remaining then max_sleep else remaining in
  (Ok tt, advance sleep_time (add_event (Called (Sleep sleep_time)) st)).

(** [all(cam.is_observing is False for cam in self.cameras.values())]. *)
Definition done_observing (st : state) : bool :=
  forallb (fun kv => negb (is_observing (snd kv) (clock st))) (cameras (self st)).

(** The [while timer.expired() is False] loop.  Every turn that does not
    leave the loop sleeps for at least one tick, so that [fuel] bounds the
    number of turns when it exceeds the time left. *)
Fixpoint poll_loop (fuel : nat) (timer : CountdownTimer) (readout_time : nat) : M unit :=
  match fuel with
  | O => diverge
  | S fuel' => fun st =>
      if expired timer st then (Ok tt, st)
      else if done_observing st
      then logger INFO "Finished observing for all cameras" st
      else (timer_sleep timer readout_time ;; poll_loop fuel' timer readout_time) st
  end.

(** The [if blocking:] block of [observe]. *)
Definition wait_for_cameras : M unit := fun st =>
  match primary_camera (self st), current_observation (self st) with
  | None, _ => (Raise AttributeError, st)       (* [cam] is [None] *)
  | Some _, None => (Raise AttributeError, st)  (* [current_observation] is [None] *)
  | Some cam, Some obs =>
      let exptime := exptime obs in
      let readout_time := readout_time cam in
      let timeout := exptime + readout_time + timeout cam in
      (let* timer := new_timer timeout in
       (* Sleep for the exposure time to start. *)
       timer_sleep timer (exptime + readout_time) ;;
       (* Then start checking for complete exposures. *)
       (fun st' => poll_loop (S (time_left timer st')) timer readout_time st') ;;
       (fun st' =>
          if expired timer st'
          then (Raise TimeoutError, st')
          else (Ok tt, st'))) st
  end.

(** Take exposure with each camera. *)
Fixpoint take_observations (env : environment) (names : list string) : M unit :=
  match names with
  | [] => ret tt
  | cam_name :: rest =>
      logger DEBUG "Exposing for camera" ;;
      invoke (TakeObservation cam_name) (take_observation env cam_name) ;;
      take_observations env rest
  end.

Definition observe (env : environment) (blocking : bool) : M unit :=
  invoke GetStandardHeaders (get_standard_headers env) ;;
  (fun st => take_observations env (od_keys (cameras (self st))) st) ;;
  if blocking then wait_for_cameras else ret tt.

(** *** The wait in the words of the specification *)

(** The instants at which the cameras are polled: from [first], every
    [interval] ticks, before [deadline]. *)
Definition poll_times (first interval deadline : nat) : list nat :=
  map (fun k => first + k * interval)
      (seq 0 (Nat.div (deadline - first + (interval - 1)) interval)).

(** All cameras report that they are not observing at time [t]. *)
Definition all_idle (o : observatory) (t : nat) : bool :=
  forallb (fun kv => negb (is_observing (snd kv) t)) (cameras o).

(** The outcome of a wait that starts at [start]: success at the first poll
    before the budget elapses at which all cameras are idle, else the timeout
    error when the budget is exhausted. *)
Definition wait_spec (o : observatory) (start exptime readout timeout : nat)
    : result unit * nat :=
  let budget := exptime + readout + timeout in
  match find (all_idle o) (poll_times (start + (exptime + readout)) readout (start + budget)) with
  | Some t => (Ok tt, t)
  | None => (Raise TimeoutError, start + budget)
  end.

(** *** [process_observation] *)

Record options : Type := {
  compress_fits : option bool;
  record_observations : option bool;
  make_pretty_images : option bool;
  plate_solve : option bool;
  upload_image_immediately : option bool;
}.

(** [arg or self.get_config(key, default=False)]. *)
Definition enabled (env : environment) (arg : option bool) (key : string) : bool :=
  match arg with
  | Some true => true
  | _ => truthy (get_config env key)
  end.

(** [self.current_observation.exposure_list[cam_name][-1]]. *)
Definition latest_exposure (cam_name : string) : M exposure := fun st =>
  match current_observation (self st) with
  | None => (Raise AttributeError, st)
  | Some obs =>
      match exposure_list obs !! cam_name with
      | None => (Raise (KeyError cam_name), st)
      | Some l =>
          match last l with
          | None => (Raise IndexError, st)
          | Some e => (Ok e, st)
          end
      end
  end.

Definition replace_last {A} (l : list A) (a : A) : list A :=
  match l with
  | [] => []
  | _ => removelast l ++ [a]
  end.

(** An update of the attributes of the latest exposure of a camera; the
    exposure is an object shared with the observation. *)
Definition update_latest (cam_name : string) (f : exposure -> exposure) (st : state) : state :=
  match current_observation (self st) with
  | None => st
  | Some obs =>
      match exposure_list obs !! cam_name with
      | None => st
      | Some l =>
          match last l with
          | None => st
          | Some e =>
              set_self
                {| cameras := cameras (self st);
                   _primary_camera := _primary_camera (self st);
                   current_observation :=
                     Some {| exptime := exptime obs;
                             exposure_list :=
                               <[cam_name := replace_last l (f e)]> (exposure_list obs) |} |}
                st
          end
      end
  end.

(** What the local name [metadata] is bound to: the dict of the exposure
    itself, or the dict that [get_solve_field] returned. *)
Inductive metadata_ref : Type :=
| OfExposure
| SolveInfo (d : gmap string value).

(** The local names of the loop body. *)
Record locals : Type := {
  cam : string;
  meta : metadata_ref;
  l_image_id : value;
  l_seq_id : value;
  l_file_path : value;
  l_exptime : value;
  l_field_name : value;
}.

Definition set_meta (m : metadata_ref) (l : locals) : locals :=
  {| cam := cam l; meta := m; l_image_id := l_image_id l; l_seq_id := l_seq_id l;
     l_file_path := l_file_path l; l_exptime := l_exptime l; l_field_name := l_field_name l |}.
Definition set_file_path (v : value) (l : locals) : locals :=
  {| cam := cam l; meta := meta l; l_image_id := l_image_id l; l_seq_id := l_seq_id l;
     l_file_path := v; l_exptime := l_exptime l; l_field_name := l_field_name l |}.

(** Reading the dict that [metadata] names. *)
Definition read_metadata (l : locals) : M (gmap string value) :=
  match meta l with
  | SolveInfo d => ret d
  | OfExposure => let* e := latest_exposure (cam l) in ret (metadata e)
  end.

(** [metadata[key] = v]: on the exposure's own dict, or on the solve info. *)
Definition metadata_setitem (key : string) (v : value) (l : locals) : M locals :=
  match meta l with
  | SolveInfo d => ret (set_meta (SolveInfo (<[key := v]> d)) l)
  | OfExposure => fun st =>
      (Ok l, update_latest (cam l)
               (fun e => {| image_id := image_id e; path := path e;
                            metadata := <[key := v]> (metadata e) |}) st)
  end.

Definition getitem (d : gmap string value) (key : string) : M value :=
  match d !! key with
  | Some v => ret v
  | None => raise (KeyError key)
  end.

Definition step_solve (env : environment) (opts : options) (l : locals) : M locals :=
  if enabled env (plate_solve opts) "observations.plate_solve"
  then
    logger DEBUG "Plate solving" ;;
    try_except
      (let* d := invoke (GetSolveField (l_file_path l)) (get_solve_field env (l_file_path l)) in
       fun st =>
         (* [metadata] is rebound before [metadata['solved_fits_file']] is read *)
         match d !! "solved_fits_file" with
         | Some v =>
             (logger DEBUG "Solved, replacing metadata." ;;
              ret (set_file_path v (set_meta (SolveInfo d) l))) st
         | None =>
             (logger WARNING "Problem solving" ;;
              ret (set_meta (SolveInfo d) l)) st
         end)
      (fun e => logger WARNING "Problem solving" ;; ret l)
  else ret l.

Definition step_compress (env : environment) (opts : options) (l : locals) : M locals :=
  if enabled env (compress_fits opts) "observations.compress_fits"
  then
    logger DEBUG "Compressing" ;;
    let* compressed_file_path := invoke (Fpack (l_file_path l)) (fpack env (l_file_path l)) in
    (fun st =>
       (Ok tt, update_latest (cam l)
                 (fun e => {| image_id := image_id e; path := compressed_file_path;
                              metadata := metadata e |}) st)) ;;
    let* l := metadata_setitem "filepath" compressed_file_path l in
    logger DEBUG "Compressed" ;;
    ret l
  else ret l.

Definition step_record (env : environment) (opts : options) (l : locals) : M locals :=
  if enabled env (record_observations opts) "observations.record_observations"
  then
    logger DEBUG "Adding current observation to db" ;;
    let* l := metadata_setitem "status" (VStr "complete") l in
    let* d := read_metadata l in
    invoke (InsertCurrent "observations" d) (insert_current env "observations" d) ;;
    ret l
  else ret l.

Definition step_pretty (env : environment) (opts : options) (l : locals) : M locals :=
  if enabled env (make_pretty_images opts) "observations.make_pretty_images"
  then
    try_except
      (let image_title := (l_field_name l, l_exptime l, l_seq_id l) in
       logger DEBUG "Making pretty image" ;;
       let* d := read_metadata l in
       let* primary := getitem d "is_primary" in
       let* link_path :=
         if truthy primary
         then match get_config env "directories.images" with
              | VStr dir => ret (Some (dir ++ "/latest.jpg")%string)
              | _ => raise TypeError          (* [Path] of a value that is no path *)
              end
         else ret None in
       let c := PrettyImageProcess (l_file_path l) image_title link_path in
       invoke c (start_process env c) ;;
       ret l)
      (fun e => logger WARNING "Problem with extracting pretty image" ;; ret l)
  else ret l.

(** [upload_exposure(exposure_info)].  The bucket path is made by
    [str.replace] of two configuration values, which raises [TypeError]
    when one of them is not a [str]. *)
Definition upload_exposure (env : environment) (exposure_info : exposure) : M unit :=
  let bucket_name := get_config env "panoptes_network.buckets.upload" in
  let image_path := path exposure_info in
  if negb (path_exists env image_path)
  then raise FileNotFoundError
  else
    logger DEBUG "Preparing for upload" ;;
    (* Remove the local images directory for the upload name and replace with PAN_ID. *)
    match get_config env "directories.images", get_config env "pan_id" with
    | VStr _, VStr _ =>
        (* Create a separate process for the upload. *)
        let c := ImageUploaderProcess image_path bucket_name in
        logger INFO "Uploading" ;;
        invoke c (start_process env c)
    | _, _ => raise TypeError
    end.

Definition step_upload (env : environment) (opts : options) (l : locals) : M locals :=
  if enabled env (upload_image_immediately opts) "observations.upload_image_immediately"
  then
    logger DEBUG "Uploading current observation" ;;
    try_except
      (let* e := latest_exposure (cam l) in upload_exposure env e)
      (fun e => logger WARNING "Problem uploading exposure") ;;
    ret l
  else ret l.

(** How the body of the loop over the cameras ends: it falls through to the
    next camera, or it returns from the method. *)
Inductive control : Type := Continue | Return.

Definition required_field (d : gmap string value) (key : string) : M value :=
  match d !! key with
  | Some v => ret v
  | None => raise (PanError "No information in image metadata, unable to process")
  end.

(** The body of [for cam_name in self.cameras.keys()]. *)
Definition process_exposure (env : environment) (opts : options) (cam_name : string)
    : M control :=
  let* exposure := latest_exposure cam_name in
  logger DEBUG "Processing observation with exposure" ;;
  let metadata := metadata exposure in
  let* image_id := required_field metadata "image_id" in
  let* seq_id := required_field metadata "sequence_id" in
  let* file_path := required_field metadata "filepath" in
  let* exptime := required_field metadata "exptime" in
  let field_name := default (VStr "") (metadata !! "field_name") in
  if bool_decide (metadata !! "status" = Some (VStr "complete"))
  then
    logger DEBUG "has already been processed, skipping" ;;
    ret Return
  else
    let l := {| cam := cam_name; meta := OfExposure; l_image_id := image_id;
                l_seq_id := seq_id; l_file_path := file_path; l_exptime := exptime;
                l_field_name := field_name |} in
    let* l := step_solve env opts l in
    let* l := step_compress env opts l in
    let* l := step_record env opts l in
    let* l := step_pretty env opts l in
    let* l := step_upload env opts l in
    ret Continue.

Fixpoint process_cameras (env : environment) (opts : options) (names : list string)
    : M unit :=
  match names with
  | [] => ret tt
  | cam_name :: rest =>
      let* c := process_exposure env opts cam_name in
      match c with
      | Return => ret tt
      | Continue => process_cameras env opts rest
      end
  end.

Definition process_observation (env : environment) (opts : options) : M unit := fun st =>
  process_cameras env opts (od_keys (cameras (self st))) st.

(** *** Vocabulary of the statements about [process_observation] *)

(** The latest exposure of [cam_name] in [st] is [e]. *)
Definition latest_is (cam_name : string) (st : state) (e : exposure) : Prop :=
  latest_exposure cam_name st = (Ok e, st).

Definition has_required_fields (d : gmap string value) : bool :=
  forallb (fun key => bool_decide (is_Some (d !! key)))
          ["image_id"; "sequence_id"; "filepath"; "exptime"].

Definition marked_complete (d : gmap string value) : bool :=
  bool_decide (d !! "status" = Some (VStr "complete")).

Inductive step : Type := Solve | Compress | Record_ | Pretty | Upload.

(** Each step opens with a debug message of its own. *)
Definition step_of_event (ev : event) : option step :=
  match ev with
  | Logged DEBUG msg =>
      if String.eqb msg "Plate solving" then Some Solve
      else if String.eqb msg "Compressing" then Some Compress
      else if String.eqb msg "Adding current observation to db" then Some Record_
      else if String.eqb msg "Making pretty image" then Some Pretty
      else if String.eqb msg "Uploading current observation" then Some Upload
      else None
  | _ => None
  end.

(** The steps entered, in the order of time, by the events [evs] (latest
    first). *)
Definition steps_entered (evs : list event) : list step :=
  omap step_of_event (rev evs).

Definition step_enabled (env : environment) (opts : options) (s : step) : bool :=
  match s with
  | Solve => enabled env (plate_solve opts) "observations.plate_solve"
  | Compress => enabled env (compress_fits opts) "observations.compress_fits"
  | Record_ => enabled env (record_observations opts) "observations.record_observations"
  | Pretty => enabled env (make_pretty_images opts) "observations.make_pretty_images"
  | Upload => enabled env (upload_image_immediately opts)
                "observations.upload_image_immediately"
  end.

Definition enabled_steps (env : environment) (opts : options) : list step :=
  List.filter (step_enabled env opts) [Solve; Compress; Record_; Pretty; Upload].

(** What a step that does not raise guarantees: the loop body goes on, the
    latest exposure is still there, no time has passed, and the step was
    entered if and only if it is enabled. *)
Definition step_done (s : step) (env : environment) (opts : options)
    (l : locals) (st : state) (r : result locals * state) : Prop :=
  exists l' st' evs,
    r = (Ok l', st')
    /\ cam l' = cam l
    /\ (exists e', latest_is (cam l) st' e')
    /\ clock st' = clock st
    /\ events st' = evs ++ events st
    /\ steps_entered evs = (if step_enabled env opts s then [s] else []).

Definition is_raise {A} (o : outcome A) : Prop :=
  match o with
  | Raises _ => True
  | Returns _ => False
  end.

Definition is_return {A} (o : outcome A) : Prop :=
  match o with
  | Raises _ => False
  | Returns _ => True
  end.

(** The cameras [names] are all processed and none ends the method: the
    state in which the loop reaches the camera after them. *)
Fixpoint run_through (env : environment) (opts : options) (names : list string)
    (st : state) : option state :=
  match names with
  | [] => Some st
  | cam_name :: rest =>
      match process_exposure env opts cam_name st with
      | (Ok Continue, st') => run_through env opts rest st'
      | _ => None
      end
  end.

(** *** Examples *)

(** Ticks are tenths of a second: a readout time of 1 s and a timeout of
    5 s; the camera observes until [busy_until]. *)
Definition example_camera (name : string) (primary : bool) (busy_until : nat) : camera :=
  {| uid := name; is_primary := primary; readout_time := 10; timeout := 50;
     is_observing := fun t => Nat.ltb t busy_until |}.

Definition example_metadata (id : string) (status : option string) : gmap string value :=
  let d : gmap string value :=
    <["image_id" := VStr id]>
      (<["sequence_id" := VStr "PAN001_20200101T000000"]>
         (<["filepath" := VStr ("/images/" ++ id ++ ".fits")%string]>
            (<["exptime" := VNum 20]>
               (<["is_primary" := VBool true]> ∅)))) in
  match status with
  | Some s => <["status" := VStr s]> d
  | None => d
  end.

Definition example_exposure (id : string) (status : option string) : exposure :=
  {| image_id := id; path := VStr ("/images/" ++ id ++ ".fits")%string;
     metadata := example_metadata id status |}.

(** Three cameras; the latest exposure of [Cam00] is pending, that of
    [Cam01] is complete, that of [Cam02] is pending. *)
Definition example_state : state :=
  {| self :=
       {| cameras := [("Cam00", example_camera "Cam00" false 25);
                      ("Cam01", example_camera "Cam01" false 22);
                      ("Cam02", example_camera "Cam02" false 24)];
          _primary_camera := None;
          current_observation :=
            Some {| exptime := 20;
                    exposure_list :=
                      <["Cam00" := [example_exposure "a0" None]]>
                        (<["Cam01" := [example_exposure "b0" (Some "complete")]]>
                           (<["Cam02" := [example_exposure "c0" None]]> ∅)) |} |};
     clock := 0;
     events := [] |}.

(** Every collaborator answers, nothing is configured. *)
Definition quiet_environment : environment :=
  {| get_config := fun _ => VBool false;
     get_standard_headers := Returns tt;
     take_observation := fun _ => Returns tt;
     get_solve_field := fun _ => Returns (<["solved_fits_file" := VStr "/images/solved.fits"]> ∅);
     fpack := fun p => Returns match p with
                               | VStr f => VStr (f ++ ".fz")%string
                               | _ => p
                               end;
     insert_current := fun _ _ => Returns tt;
     path_exists := fun _ => true;
     start_process := fun _ => Returns tt |}.

(** As [quiet_environment], but [fpack] fails. *)
Definition failing_fpack_environment : environment :=
  {| get_config := get_config quiet_environment;
     get_standard_headers := get_standard_headers quiet_environment;
     take_observation := take_observation quiet_environment;
     get_solve_field := get_solve_field quiet_environment;
     fpack := fun _ => Raises (Other "fpack failed");
     insert_current := insert_current quiet_environment;
     path_exists := path_exists quiet_environment;
     start_process := start_process quiet_environment |}.

(** As [quiet_environment], but the plate solver fails. *)
Definition failing_solve_environment : environment :=
  {| get_config := get_config quiet_environment;
     get_standard_headers := get_standard_headers quiet_environment;
     take_observation := take_observation quiet_environment;
     get_solve_field := fun _ => Raises (Other "solve failed");
     fpack := fpack quiet_environment;
     insert_current := insert_current quiet_environment;
     path_exists := path_exists quiet_environment;
     start_process := start_process quiet_environment |}.

Definition all_steps : options :=
  {| compress_fits := Some true; record_observations := Some true;
     make_pretty_images := Some true; plate_solve := Some true;
     upload_image_immediately := Some true |}.

Definition record_only : options :=
  {| compress_fits := None; record_observations := Some true;
     make_pretty_images := None; plate_solve := None;
     upload_image_immediately := None |}.

(** [example_state] with the single camera [name]. *)
Definition only_camera (name : string) : state :=
  set_self (set_cameras [(name, example_camera name false 0)] (self example_state))
           example_state.

End Observatory.

From stdpp Require Import pretty.

(** ** base.py: the property commands *)
Module PropertyStore.
Import GPhoto.

(** Strings are sequences of code points below 256. *)

Definition newline : string := String "010"%char EmptyString.

(** The number of newlines in a text. *)
Fixpoint newlines (s : string) : nat :=
  match s with
  | EmptyString => 0
  | String a s' => (if Ascii.eqb a "010"%char then 1 else 0) + newlines s'
  end.

(** Calls on the camera: they act on the camera and the world around it. *)
Definition G (A : Type) : Type := state -> result A * state.

Definition gbind {A B} (m : G A) (k : A -> G B) : G B := fun st =>
  match m st with
  | (Ok a, st') => k a st'
  | (Raise e, st') => (Raise e, st')
  | (Diverge, st') => (Diverge, st')
  end.

(** The [timeout] that [get_command_result()] takes when none is given. *)
Definition default_timeout : nat := 10.

(** A value to set: [Union[str, int]]. *)
Inductive setting : Type :=
| SStr (s : string)
| SInt (z : Z).

(** [f'{val}']. *)
Definition format_setting (val : setting) : string :=
  match val with
  | SStr s => s
  | SInt z => pretty z
  end.

Definition dquote : string := String "034"%char EmptyString.

(** [set_property(prop, val)]. *)
Definition set_property (env : environment) (prop : string) (val : setting) : G unit :=
  let set_cmd := ["--set-config";
                  (prop ++ "=" ++ dquote ++ format_setting val ++ dquote)%string] in
  gbind (command env set_cmd) (fun _ =>
  (* Forces the command to wait *)
  gbind (get_command_result default_timeout) (fun _ =>
  fun st => (Ok tt, st))).

(** The arguments that the two loops of [set_properties] collect; [None] and
    the empty dict are both false. *)
Definition index_settings (prop2index : option (list (string * Z))) : list string :=
  match prop2index with
  | Some ((_ :: _) as items) =>
      fold_left (fun set_cmd kv =>
                   set_cmd ++ ["--set-config-index";
                               (fst kv ++ "=" ++ pretty (snd kv))%string])
                items []
  | _ => []
  end.

Definition value_settings (set_cmd : list string)
    (prop2value : option (list (string * string))) : list string :=
  match prop2value with
  | Some ((_ :: _) as items) =>
      fold_left (fun set_cmd kv =>
                   set_cmd ++ ["--set-config-value";
                               (fst kv ++ "=" ++ dquote ++ snd kv ++ dquote)%string])
                items set_cmd
  | _ => set_cmd
  end.

(** [set_properties(prop2index, prop2value)]. *)
Definition set_properties (env : environment)
    (prop2index : option (list (string * Z)))
    (prop2value : option (list (string * string))) : G unit :=
  let set_cmd := value_settings (index_settings prop2index) prop2value in
  gbind (command env set_cmd) (fun _ =>
  (* Forces the command to wait *)
  gbind (get_command_result default_timeout) (fun _ =>
  fun st => (Ok tt, st))).

(** [\s] on a code point below 256. *)
Definition is_space (a : ascii) : bool :=
  let n := nat_of_ascii a in
  (Nat.leb 9 n && Nat.leb n 13) || (Nat.leb 28 n && Nat.leb n 32)
  || Nat.eqb n 133 || Nat.eqb n 160.

(** The white space that a starred [\s] takes: the longest run. *)
Fixpoint skip_spaces (s : string) : string :=
  match s with
  | String a s' => if is_space a then skip_spaces s' else s
  | EmptyString => s
  end.

(** The group of the pattern, a starred dot: everything up to the end of the
    line. *)
Fixpoint rest_of_line (s : string) : string :=
  match s with
  | String a s' => if Ascii.eqb a "010"%char then EmptyString else String a (rest_of_line s')
  | EmptyString => EmptyString
  end.

(** [re.match] of the pattern made of [label], any white space and the
    group: the group when the line starts with [label], [None] when it does
    not. *)
Definition match_label (label line : string) : option string :=
  if String.prefix label line
  then Some (rest_of_line
               (skip_spaces (String.substring (String.length label)
                               (String.length line - String.length label) line)))
  else None.

(** The loop of [get_property]: the group of the last line that matches. *)
Definition last_current (result : list string) : string :=
  fold_left (fun output line =>
               match match_label "Current:" line with
               | Some group => group
               | None => output
               end) result EmptyString.

(** [get_property(prop)]. *)
Definition get_property (env : environment) (prop : string) : G string :=
  let set_cmd := ["--get-config"; prop] in
  gbind (command env set_cmd) (fun _ =>
  gbind (get_command_result default_timeout) (fun result =>
  match result with
  | Some lines => fun st => (Ok (last_current lines), st)
  | None => fun st => (Raise TypeError, st)     (* a loop over [None] *)
  end)).

(** *** Vocabulary of the statements *)

(** After a call that ran one command to its end: the slot is empty, one
    process has been started and it has ended, and no more than the default
    timeout has passed. *)
Definition settled (st st' : state) : Prop :=
  _command_proc (fst st') = None
  /\ (exists p, started (snd st') = p :: started (snd st) /\ poll (snd st') p = Some 0%nat)
  /\ (now (snd st) <= now (snd st') <= now (snd st) + default_timeout)%nat.

(** After a call that could not start its command. *)
Definition untouched (st st' : state) : Prop :=
  _command_proc (fst st') = _command_proc (fst st)
  /\ started (snd st') = started (snd st)
  /\ now (snd st') = now (snd st).

(** The ways in which a call that runs one command ends. *)
Definition runs_one_command {A} (st : state) (out : result A * state) : Prop :=
  match fst out with
  | Ok _ => settled st (snd out)
  | Raise (InvalidCommand _) | Raise (PanError _) => untouched st (snd out)
  | _ => False
  end.

(** Every command starts, and prints what [reply] gives for its command
    line. *)
Definition answers (env : environment) (reply : list string -> string) : Prop :=
  is_Some (which_gphoto2 env)
  /\ forall cmdline t, exists pid exits err,
       popen env cmdline t = Started pid exits (fun _ => reply cmdline) err.

Definition answering_environment (reply : list string -> string) : environment :=
  {| which_gphoto2 := Some "/usr/bin/gphoto2";
     popen := fun cmdline t =>
       Started 4242 (Some (S t)) (fun _ => reply cmdline) (fun _ => "") |}.

(** Every command line is started, and the process has printed [text] by
    the time its output is collected. *)
Definition prints (env : environment) (text : string) : Prop :=
  is_Some (which_gphoto2 env)
  /\ forall cmdline t, exists pid exits err,
       popen env cmdline t = Started pid exits (fun _ => text) err.

Definition items {A} (d : option (list (string * A))) : list (string * A) :=
  match d with
  | Some l => l
  | None => []
  end.

End PropertyStore.

(** ** canon.py: the exposure command and the connection *)
Module CanonCamera.
Import Canon GPhoto PropertyStore.

(** [int(x)] of a double: the integer part, towards zero; [ValueError] on a
    NaN and [OverflowError] on an infinity. *)
Definition py_int (x : float) : result Z :=
  match Prim2SF x with
  | S754_zero _ => Ok 0%Z
  | S754_infinity _ => Raise (Other "OverflowError")
  | S754_nan => Raise ValueError
  | S754_finite s m e =>
      let magnitude :=
        if (0 <=? e)%Z then (Z.pos m * 2 ^ e)%Z else (Z.pos m / 2 ^ (- e))%Z in
      Ok (if s then (- magnitude)%Z else magnitude)
  end.

(** Both lookups of an entry give its index, with and without the minimum
    fallback. *)
Definition entry_resolves (ie : nat * (string * py_value)) : bool :=
  let '(i, (key, value)) := ie in
  forallb (fun return_minimum =>
             match get_shutterspeed_index (PyStr key) return_minimum,
                   get_shutterspeed_index value return_minimum with
             | Ok j, Ok k => Nat.eqb j i && Nat.eqb k i
             | _, _ => false
             end) [true; false].

(** The FITS header handed through to the readout. *)
Definition header : Type := list (string * string).

(** The [cmd_args] of [_start_exposure], for [seconds] without its unit. *)
Definition exposure_arguments (seconds : float) (filename : string) (iso : Z)
    : result (list string) :=
  let! shutterspeed_idx := get_shutterspeed_index (PyNum seconds) true in
  let cmd_args :=
    ["--set-config"; ("iso=" ++ pretty iso)%string;
     "--filename"; filename;
     "--set-config-index"; ("shutterspeed=" ++ pretty shutterspeed_idx)%string;
     "--wait-event=1s"] in
  if Nat.eqb shutterspeed_idx 0
  then
    (* Bulb setting. *)
    let! hold := py_int seconds in
    Ok (cmd_args ++ ["--set-config-index"; "eosremoterelease=2";
                     ("--wait-event=" ++ pretty hold ++ "s")%string;
                     "--set-config-index"; "eosremoterelease=4";
                     "--wait-event-and-download=2s"])
  else
    (* Known shutterspeed value. *)
    Ok (cmd_args ++ ["--capture-image-and-download"]).

(** [_start_exposure]: the readout arguments, or [None] when the command
    was rejected. *)
Definition _start_exposure (env : environment)
    (seconds : float) (filename : string) (hdr : header) (iso : Z)
    : G (option (string * header)) := fun st =>
  match exposure_arguments seconds filename iso with
  | Ok cmd_args =>
      match command env cmd_args st with
      | (Raise (InvalidCommand msg), (c, w)) =>
          (Ok None, (c, add_log (Log WARNING msg) w))
      | (Ok _, st') => (Ok (Some (filename, hdr)), st')
      | (Raise e, st') => (Raise e, st')
      | (Diverge, st') => (Diverge, st')
      end
  | Raise e => (Raise e, st)
  | Diverge => (Diverge, st)
  end.

(** The attributes that [connect] sets, beside those of the command
    channel. *)
Record canon : Type := {
  channel : camera;
  _serial_number : string;
  model : string;
  _connected : bool;
}.

(** Properties to be set upon init. *)
Definition prop2index : list (string * Z) :=
  [ ("/main/capturesettings/autoexposuremode", 3%Z);
    ("/main/capturesettings/drivemode", 0%Z);
    ("/main/capturesettings/focusmode", 0%Z);
    ("/main/imgsettings/imageformat", 9%Z);
    ("/main/imgsettings/imageformatsd", 9%Z);
    ("/main/settings/capturetarget", 0%Z);
    ("/main/settings/reviewtime", 0%Z);
    ("/main/imgsettings/iso", 1%Z);
    ("/main/capturesettings/shutterspeed", 0%Z) ].

(** What [connect] reads from outside: the configured [pan_id], if any, and
    the year of the current time. *)
Record surroundings : Type := {
  pan_id : option string;
  year : string;
}.

Definition prop2value (s : surroundings) : list (string * string) :=
  let owner_name := "PANOPTES" in
  let artist_name := default owner_name (pan_id s) in
  let copy_right := (owner_name ++ "_" ++ year s)%string in
  [ ("artist", artist_name); ("copyright", copy_right); ("ownername", owner_name) ].

(** A call of the command channel, on the Canon camera. *)
Definition on_channel {A} (cam : canon) (m : G A) (k : A -> canon -> world -> result unit * (canon * world))
    (w : world) : result unit * (canon * world) :=
  match m (channel cam, w) with
  | (Ok a, (c, w')) =>
      k a {| channel := c; _serial_number := _serial_number cam; model := model cam;
             _connected := _connected cam |} w'
  | (Raise e, (c, w')) =>
      (Raise e, ({| channel := c; _serial_number := _serial_number cam;
                    model := model cam; _connected := _connected cam |}, w'))
  | (Diverge, (c, w')) =>
      (Diverge, ({| channel := c; _serial_number := _serial_number cam;
                    model := model cam; _connected := _connected cam |}, w'))
  end.

(** [connect].  [CameraNotFound] is a [PanError]. *)
Definition connect (env : environment) (s : surroundings) (cam : canon) (w : world)
    : result unit * (canon * world) :=
  let w := add_log (Log DEBUG "Connecting to Canon gphoto2 camera") w in
  (* Get serial number *)
  on_channel cam (get_property env "serialnumber") (fun serial cam w =>
    if String.eqb serial ""
    then (Raise (PanError "CameraNotFound: Camera not responding"), (cam, w))
    else
      let cam := {| channel := channel cam; _serial_number := serial; model := model cam;
                    _connected := _connected cam |} in
      on_channel cam (set_properties env (Some prop2index) (Some (prop2value s)))
        (fun _ cam w =>
           on_channel cam (get_property env "d402") (fun d402 cam w =>
             (Ok tt, ({| channel := channel cam; _serial_number := _serial_number cam;
                         model := d402; _connected := true |}, w))) w) w) w.

End CanonCamera.

(** ** observatory.py: what a run has called *)
Module Trace.
Import Observatory.

(** The external calls among the events [evs] (latest first), in the order
    of time. *)
Definition calls (evs : list event) : list call :=
  omap (fun ev => match ev with
                  | Called c => Some c
                  | Logged _ _ => None
                  end) (rev evs).

(** The warnings among the events [evs], in the order of time. *)
Definition warnings (evs : list event) : list string :=
  omap (fun ev => match ev with
                  | Logged WARNING msg => Some msg
                  | _ => None
                  end) (rev evs).

(** The names of a registry without [cam_name]. *)
Definition without (cam_name : string) (names : list string) : list string :=
  List.filter (fun n => negb (String.eqb cam_name n)) names.

End Trace.

(** ** observatory.py: [autofocus_cameras] *)
Module Autofocus.
Import Observatory.

(** A camera as [autofocus_cameras] sees it.  [focuser] is [None] when
    [camera.focuser.is_connected] raises [AttributeError], else the value
    of [is_connected]; [autofocus] is what [camera.autofocus] does, the
    number standing for the [threading.Event] it returns. *)
Record focus_camera : Type := {
  focuser : option bool;
  autofocus : outcome nat;
}.

Inductive entry : Type :=
| Log (lvl : level) (msg : string)
| StartAutofocus (cam_name : string).

(** [{cam_name: self.cameras[cam_name] for cam_name in camera_list
      if cam_name in self.cameras.keys()}]. *)
Definition named_cameras (registry : list (string * focus_camera)) (camera_list : list string)
    : list (string * focus_camera) :=
  fold_left (fun cameras cam_name =>
               match od_get registry cam_name with
               | Some camera => od_set cameras cam_name camera
               | None => cameras
               end) camera_list [].

(** The [if camera_list:] block; the log is kept latest first. *)
Definition select (registry : list (string * focus_camera))
    (camera_list : option (list string)) : list (string * focus_camera) * list entry :=
  match camera_list with
  | Some ((_ :: _) as names) =>
      let cameras := named_cameras registry names in
      (cameras,
       match cameras with
       | [] => [Log WARNING "No matching camera names"]
       | _ => []
       end)
  | _ =>
      (* No cameras specified, will try to autofocus all cameras *)
      (registry, [])
  end.

(** The body of [for cam_name, camera in cameras.items()]. *)
Definition focus_one (acc : list (string * nat) * list entry)
    (item : string * focus_camera) : list (string * nat) * list entry :=
  let '(autofocus_events, log) := acc in
  let '(cam_name, camera) := item in
  let log := Log DEBUG "Autofocusing camera" :: log in
  match focuser camera with
  | None => (autofocus_events, Log DEBUG "has no focuser, skipping autofocus" :: log)
  | Some false =>
      (autofocus_events, Log DEBUG "focuser not connected, skipping autofocus" :: log)
  | Some true =>
      (* Start the autofocus *)
      let log := StartAutofocus cam_name :: log in
      match autofocus camera with
      | Raises e => (autofocus_events, Log ERROR "Problem running autofocus" :: log)
      | Returns autofocus_event => (od_set autofocus_events cam_name autofocus_event, log)
      end
  end.

Definition autofocus_cameras (registry : list (string * focus_camera))
    (camera_list : option (list string)) : list (string * nat) * list entry :=
  let '(cameras, log) := select registry camera_list in
  fold_left focus_one cameras ([], log).

(** *** Vocabulary of the statements *)

(** [cam_name] is among the cameras asked for. *)
Definition asked_for (camera_list : option (list string)) (cam_name : string) : Prop :=
  match camera_list with
  | Some ((_ :: _) as names) => In cam_name names
  | _ => True
  end.

(** The focuser of the camera is there and connected. *)
Definition has_connected_focuser (camera : focus_camera) : bool :=
  match focuser camera with
  | Some true => true
  | _ => false
  end.

(** The event that the autofocus of the camera hands back, when it is
    started and returns. *)
Definition focused (camera : focus_camera) : option nat :=
  if has_connected_focuser camera
  then match autofocus camera with
       | Returns autofocus_event => Some autofocus_event
       | Raises _ => None
       end
  else None.

(** The cameras whose autofocus was started, in the order of time. *)
Definition autofocus_started (log : list entry) : list string :=
  omap (fun e => match e with
                 | StartAutofocus cam_name => Some cam_name
                 | Log _ _ => None
                 end) (rev log).

Definition example_registry : list (string * focus_camera) :=
  [("Cam00", {| focuser := Some true; autofocus := Returns 7 |});
   ("Cam01", {| focuser := None; autofocus := Returns 8 |});
   ("Cam02", {| focuser := Some true; autofocus := Raises (Other "stuck") |});
   ("Cam03", {| focuser := Some false; autofocus := Returns 9 |})].

End Autofocus.

(** ** base.py: [process_exposure] *)
Module Readout.
Import GPhoto.

(** The collaborators of [process_exposure]: [cr2_utils.cr2_to_fits], which
    returns the path of the FITS file, and the [process_exposure] of the
    parent class. *)
Record converter : Type := {
  cr2_to_fits : string -> gmap string string -> Observatory.outcome string;
  super_process_exposure : gmap string string -> Observatory.outcome unit;
}.

(** [time.sleep(1)]. *)
Definition sleep_one (st : state) : state :=
  let (c, w) := st in (c, set_now (S (now w)) w).

(** [while self.is_exposing: time.sleep(1)]. *)
Fixpoint wait_for_exposure (fuel : nat) (st : state) : result unit * state :=
  match fuel with
  | O => (Diverge, st)
  | S fuel' =>
      let (exposing, st1) := is_exposing st in
      if exposing
      then wait_for_exposure fuel' (sleep_one st1)
      else (Ok tt, st1)
  end.

(** [except TimeoutError:] around the conversion; the dict [metadata] is the
    caller's, changed in place. *)
Definition guarded {A} (o : Observatory.outcome A) (metadata : gmap string string)
    (st : state) (k : A -> result unit * (gmap string string * state))
    : result unit * (gmap string string * state) :=
  match o with
  | Observatory.Returns a => k a
  | Observatory.Raises TimeoutError =>
      let (c, w) := st in
      (Ok tt, (metadata, (c, add_log (Log ERROR "Error processing exposure") w)))
  | Observatory.Raises e => (Raise e, (metadata, st))
  end.

Definition process_exposure (conv : converter) (fuel : nat) (metadata : gmap string string)
    (st : state) : result unit * (gmap string string * state) :=
  (* Wait for exposure to complete. Timeout handled by exposure thread. *)
  match wait_for_exposure fuel st with
  | (Ok _, (c, w)) =>
      let w := add_log (Log DEBUG "Processing Canon DSLR exposure") w in
      match metadata !! "filepath" with
      | None => (Raise (KeyError "filepath"), (metadata, (c, w)))
      | Some file_path =>
          let w := add_log (Log DEBUG "Converting CR2 -> FITS") w in
          guarded (cr2_to_fits conv file_path metadata) metadata (c, w) (fun fits_path =>
            let metadata := <["filepath" := fits_path]> metadata in
            guarded (super_process_exposure conv metadata) metadata (c, w) (fun _ =>
              (Ok tt, (metadata, (c, w)))))
      end
  | (Raise e, st') => (Raise e, (metadata, st'))
  | (Diverge, st') => (Diverge, (metadata, st'))
  end.

End Readout.

(** * Properties *)

(** ** Order facts on IEEE-754 doubles *)
Section FloatOrder.

Lemma SFcompare_antisym a b :
  SFcompare b a = option_map CompOpp (SFcompare a b).
Proof.
  destruct a as [sa|sa| |sa ma ea], b as [sb|sb| |sb mb eb]; simpl; try reflexivity;
    try (destruct sa; reflexivity); try (destruct sb; reflexivity);
    try (destruct sa, sb; reflexivity).
  change (Pos.compare_cont Eq ma mb) with (Pos.compare ma mb).
  change (Pos.compare_cont Eq mb ma) with (Pos.compare mb ma).
  rewrite (Z.compare_antisym ea eb), (Pos.compare_antisym ma mb).
  destruct sa, sb; simpl; try reflexivity;
    destruct (ea ?= eb)%Z; simpl; try reflexivity;
    destruct (ma ?= mb)%positive; reflexivity.
Qed.

Lemma SFcompare_eq_l a b c :
  SFcompare a b = Some Eq -> SFcompare a c = SFcompare b c.
Proof.
  destruct a as [sa|sa| |sa ma ea], b as [sb|sb| |sb mb eb]; simpl;
    try discriminate; try reflexivity;
    try (destruct sa; discriminate); try (destruct sb; discriminate).
  - destruct sa, sb; try discriminate; reflexivity.
  - change (Pos.compare_cont Eq ma mb) with (Pos.compare ma mb).
    intros H.
    assert (sa = sb /\ ea = eb /\ ma = mb) as (-> & -> & ->).
    { destruct sa, sb; try discriminate;
        destruct (Z.compare_spec ea eb); try discriminate;
        destruct (Pos.compare_spec ma mb); try discriminate; auto. }
    reflexivity.
Qed.

Lemma SFcompare_lt_trans a b c :
  SFcompare a b = Some Lt -> SFcompare b c = Some Lt -> SFcompare a c = Some Lt.
Proof.
  destruct a as [sa|sa| |sa ma ea], b as [sb|sb| |sb mb eb], c as [sc|sc| |sc mc ec];
    simpl; try discriminate;
    try (destruct sa; try discriminate; try reflexivity);
    try (destruct sb; try discriminate; try reflexivity);
    try (destruct sc; try discriminate; try reflexivity);
    change (Pos.compare_cont Eq ma mb) with (Pos.compare ma mb);
    change (Pos.compare_cont Eq mb mc) with (Pos.compare mb mc);
    change (Pos.compare_cont Eq ma mc) with (Pos.compare ma mc);
    destruct (Z.compare_spec ea eb); try discriminate;
    destruct (Z.compare_spec eb ec); try discriminate;
    destruct (Z.compare_spec ea ec); try lia; try reflexivity;
    destruct (Pos.compare_spec ma mb); simpl; try discriminate;
    destruct (Pos.compare_spec mb mc); simpl; try discriminate;
    destruct (Pos.compare_spec ma mc); simpl; try lia; reflexivity.
Qed.

Lemma float_eqb_sym x y : PrimFloat.eqb x y = PrimFloat.eqb y x.
Proof.
  rewrite !FloatAxioms.eqb_spec. unfold SFeqb. rewrite (SFcompare_antisym (Prim2SF x) (Prim2SF y)).
  destruct (SFcompare (Prim2SF x) (Prim2SF y)) as [[]|]; reflexivity.
Qed.

Lemma float_eqb_ltb x y m :
  PrimFloat.eqb x y = true -> PrimFloat.ltb x m = PrimFloat.ltb y m.
Proof.
  rewrite FloatAxioms.eqb_spec, !FloatAxioms.ltb_spec. unfold SFeqb, SFltb. intros H.
  rewrite (SFcompare_eq_l (Prim2SF x) (Prim2SF y)); [reflexivity|].
  destruct (SFcompare (Prim2SF x) (Prim2SF y)) as [[]|]; congruence.
Qed.

Lemma float_ltb_neq x y : PrimFloat.ltb x y = true -> PrimFloat.eqb x y = false.
Proof.
  rewrite FloatAxioms.eqb_spec, FloatAxioms.ltb_spec. unfold SFeqb, SFltb.
  destruct (SFcompare (Prim2SF x) (Prim2SF y)) as [[]|]; congruence.
Qed.

Lemma float_ltb_asym x y : PrimFloat.ltb x y = true -> PrimFloat.ltb y x = false.
Proof.
  rewrite !FloatAxioms.ltb_spec. unfold SFltb. rewrite (SFcompare_antisym (Prim2SF x) (Prim2SF y)).
  destruct (SFcompare (Prim2SF x) (Prim2SF y)) as [[]|]; simpl; congruence.
Qed.

Lemma float_ltb_trans x y z :
  PrimFloat.ltb x y = true -> PrimFloat.ltb y z = true -> PrimFloat.ltb x z = true.
Proof.
  rewrite !FloatAxioms.ltb_spec. unfold SFltb. intros Hxy Hyz.
  rewrite (SFcompare_lt_trans (Prim2SF x) (Prim2SF y) (Prim2SF z)); [reflexivity| |].
  - destruct (SFcompare (Prim2SF x) (Prim2SF y)) as [[]|]; congruence.
  - destruct (SFcompare (Prim2SF y) (Prim2SF z)) as [[]|]; congruence.
Qed.

Lemma float_eqb_ltb_r x y m :
  PrimFloat.eqb x y = true -> PrimFloat.ltb m x = PrimFloat.ltb m y.
Proof.
  rewrite FloatAxioms.eqb_spec, !FloatAxioms.ltb_spec. unfold SFeqb, SFltb. intros H.
  rewrite (SFcompare_antisym (Prim2SF x) (Prim2SF m)).
  rewrite (SFcompare_antisym (Prim2SF y) (Prim2SF m)).
  rewrite (SFcompare_eq_l (Prim2SF x) (Prim2SF y)); [reflexivity|].
  destruct (SFcompare (Prim2SF x) (Prim2SF y)) as [[]|]; congruence.
Qed.

End FloatOrder.

(** ** canon.py: shutter-speed resolution *)
Section CanonProperties.
Import Canon.

Lemma index_from_Some n l x i :
  index_from n l x = Some i ->
  exists y, nth_error l (i - n) = Some y /\ py_eq y x = true /\ (n <= i)%nat.
Proof.
  revert n. induction l as [|y l IH]; intros n; simpl; [discriminate|].
  destruct (py_eq y x) eqn:E.
  - intros [= <-]. exists y. rewrite Nat.sub_diag. auto.
  - intros H. destruct (IH _ H) as (z & Hz & Hzx & Hle).
    exists z. replace (i - n)%nat with (S (i - S n)) by lia. simpl. repeat split; auto. lia.
Qed.

Lemma index_from_None n l x :
  index_from n l x = None <-> Forall (fun y => py_eq y x = false) l.
Proof.
  revert n. induction l as [|y l IH]; intros n; simpl.
  - split; auto.
  - destruct (py_eq y x) eqn:E.
    + split; [discriminate|]. intros H. inversion H; congruence.
    + rewrite IH. split; [auto|]. intros H. inversion H; auto.
Qed.

Lemma index_keys_num t x : index (keys t) (PyNum x) = Raise ValueError.
Proof.
  unfold index.
  assert (index_from 0 (keys t) (PyNum x) = None) as ->; [|reflexivity].
  apply index_from_None. unfold keys.
  induction t as [|kv t IH]; simpl; constructor; auto.
Qed.

(** The code's own order of the tests, for a numeric request. *)
Lemma resolve_num t x rm m :
  py_min (tl (values t)) = Ok (PyNum m) ->
  get_shutterspeed_index_in t (PyNum x) rm =
    if rm && PrimFloat.ltb x m then Ok (length t - 1)%nat
    else match index_from 0 (values t) (PyNum x) with
         | Some i => Ok i
         | None => Ok 0%nat
         end.
Proof.
  intros Hm. unfold get_shutterspeed_index_in.
  rewrite index_keys_num. cbn [except_ValueError].
  destruct rm; cbn [andb rbind].
  - rewrite Hm. cbn [rbind py_lt].
    destruct (PrimFloat.ltb x m); [reflexivity|].
    unfold index. destruct (index_from 0 (values t) (PyNum x)); reflexivity.
  - unfold index. destruct (index_from 0 (values t) (PyNum x)); reflexivity.
Qed.

Lemma py_min_shutter_speeds :
  py_min (tl (values shutter_speeds)) = Ok (PyNum (1 / 4000)%float).
Proof. vm_compute. reflexivity. Qed.

(** Every non-bulb entry of the table is the shortest one or longer. *)
Lemma shutter_speeds_min_le :
  forallb (fun v => match v with
                    | PyNum f => PrimFloat.eqb (1 / 4000) f || PrimFloat.ltb (1 / 4000) f
                    | PyStr _ | PyNone => false
                    end) (tl (values shutter_speeds)) = true.
Proof. vm_compute. reflexivity. Qed.

Lemma shorter_iff_lt_min x :
  shorter_than_every_entry shutter_speeds (PyNum x) = PrimFloat.ltb x (1 / 4000).
Proof.
  destruct (PrimFloat.ltb x (1 / 4000)) eqn:E.
  - unfold shorter_than_every_entry. apply forallb_forall. intros v Hv.
    pose proof (proj1 (forallb_forall _ _) shutter_speeds_min_le v Hv) as Hm.
    destruct v as [s|f|]; [discriminate| |discriminate].
    apply orb_true_iff in Hm as [Hm|Hm].
    + rewrite <- (float_eqb_ltb_r _ _ x Hm). exact E.
    + exact (float_ltb_trans _ _ _ E Hm).
  - apply not_true_is_false. intros H.
    unfold shorter_than_every_entry in H.
    rewrite forallb_forall in H.
    assert (In (PyNum (1 / 4000)%float) (tl (values shutter_speeds))) as Hin.
    { vm_compute. repeat (first [left; reflexivity | right]). }
    apply H in Hin. cbn beta iota in Hin. congruence.
Qed.

Lemma value_match_not_shorter x i :
  index_from 0 (values shutter_speeds) (PyNum x) = Some i ->
  PrimFloat.ltb x (1 / 4000) = false.
Proof.
  intros (y & Hy & Hyx & _)%index_from_Some.
  apply nth_error_In in Hy.
  destruct y as [s|f|]; [discriminate| |discriminate]. cbn [py_eq] in Hyx.
  rewrite float_eqb_sym in Hyx. rewrite (float_eqb_ltb _ _ _ Hyx).
  destruct Hy as [Hy|Hy]; [discriminate|].
  pose proof (proj1 (forallb_forall _ _) shutter_speeds_min_le _ Hy) as Hm.
  cbn beta iota in Hm. apply orb_true_iff in Hm as [Hm|Hm].
  - rewrite <- (float_eqb_ltb _ _ _ Hm).
    vm_compute. reflexivity.
  - exact (float_ltb_asym _ _ Hm).
Qed.

(** C2. For every request (a duration in seconds, or the symbolic key of a
    table entry) and every [return_minimum] flag, [get_shutterspeed_index]
    returns what the four-way precedence gives: the index of the key that
    matches, else the index of the value that matches, else the last index
    when [return_minimum] holds and the duration is strictly shorter than
    every non-bulb entry, else 0 (bulb).  An exact match by value is never
    at index 0. *)
Theorem get_shutterspeed_index_precedence (seconds : py_value) (return_minimum : bool) :
  is_request shutter_speeds seconds = true ->
  get_shutterspeed_index seconds return_minimum
    = Ok (resolveShutterIndex_spec shutter_speeds seconds return_minimum)
  /\ (forall i, index_from 0 (keys shutter_speeds) seconds = None ->
                index_from 0 (values shutter_speeds) seconds = Some i -> i <> 0%nat).
Proof.
  intros Hreq. split.
  - destruct seconds as [s|x|]; [| |discriminate Hreq].
    + cbn [is_request] in Hreq. apply bool_decide_eq_true in Hreq as [i Hi].
      unfold get_shutterspeed_index, get_shutterspeed_index_in, resolveShutterIndex_spec, index.
      rewrite Hi. reflexivity.
    + unfold get_shutterspeed_index.
      rewrite (resolve_num _ _ _ _ py_min_shutter_speeds).
      unfold resolveShutterIndex_spec.
      assert (index_from 0 (keys shutter_speeds) (PyNum x) = None) as ->.
      { pose proof (index_keys_num shutter_speeds x) as H. unfold index in H.
        destruct (index_from 0 (keys shutter_speeds) (PyNum x)); [discriminate|reflexivity]. }
      destruct (index_from 0 (values shutter_speeds) (PyNum x)) as [i|] eqn:Hv.
      * rewrite (value_match_not_shorter _ _ Hv), andb_false_r. reflexivity.
      * rewrite shorter_iff_lt_min.
        destruct (return_minimum && PrimFloat.ltb x (1 / 4000)); reflexivity.
  - intros i Hk Hv ->.
    apply index_from_Some in Hv as (y & Hy & Hyx & _).
    cbn in Hy. injection Hy as <-.
    destruct seconds as [s|x|]; [|discriminate..].
    cbn [py_eq] in Hyx. apply String.eqb_eq in Hyx as <-.
    vm_compute in Hk. discriminate.
Qed.

(** [min] of a list of numbers is one of them. *)
Lemma min_from_num (l : list py_value) (cur : float) :
  forallb (fun v => match v with PyNum _ => true | _ => false end) l = true ->
  exists m, min_from (PyNum cur) l = Ok (PyNum m) /\ (m = cur \/ In (PyNum m) l).
Proof.
  revert cur. induction l as [|y l IH]; intros cur Hl.
  - exists cur. split; [reflexivity|auto].
  - cbn [forallb] in Hl. apply andb_true_iff in Hl as [Hy Hl].
    destruct y as [s|f|]; [discriminate| |discriminate].
    cbn [min_from py_lt rbind].
    destruct (PrimFloat.ltb f cur).
    + destruct (IH f Hl) as (m & Hm & [Heq|Hin]); exists m; split; auto.
      * right; left; congruence.
      * right; right; exact Hin.
    + destruct (IH cur Hl) as (m & Hm & [Heq|Hin]); exists m; split; auto.
      right; right; exact Hin.
Qed.

(** C1, as amended.  For a table with bulb at index 0, a requested duration
    that is longer than every non-bulb entry (45 s against a longest entry
    of 30 s) resolves to index 0, bulb, with or without [return_minimum]:
    it matches no key and no value, and it is not below the minimum. *)
Theorem longer_than_every_entry_is_bulb
    (k : string) (rest : table) (x : float) (return_minimum : bool) :
  longer_than_every_entry ((k, PyStr "bulb") :: rest) (PyNum x) = true ->
  get_shutterspeed_index_in ((k, PyStr "bulb") :: rest) (PyNum x) return_minimum = Ok 0%nat.
Proof.
  cbn [longer_than_every_entry values map tl snd]. intros Hall.
  assert (index (values ((k, PyStr "bulb") :: rest)) (PyNum x) = Raise ValueError) as Hidx.
  { unfold index.
    assert (index_from 0 (values ((k, PyStr "bulb") :: rest)) (PyNum x) = None) as ->;
      [|reflexivity].
    apply index_from_None. cbn [values map snd]. constructor; [reflexivity|].
    apply Forall_forall. intros v Hv. apply list_elem_of_In in Hv.
    pose proof (proj1 (forallb_forall _ _) Hall v Hv) as Hlt.
    destruct v as [s|f|]; [reflexivity| |reflexivity].
    cbn [py_eq]. exact (float_ltb_neq _ _ Hlt). }
  unfold get_shutterspeed_index_in.
  rewrite index_keys_num. cbn [except_ValueError].
  destruct return_minimum; cbn [rbind]; [|rewrite Hidx; reflexivity].
  cbn [values map tl snd].
  destruct (map snd rest) as [|y l] eqn:Hrest; [reflexivity|].
  cbn [py_min]. cbn [forallb] in Hall. apply andb_true_iff in Hall as [Hy Hl].
  destruct y as [s|f|]; [discriminate| |discriminate].
  destruct (min_from_num l f) as (m & Hm & Hin).
  { apply forallb_forall. intros v Hv.
    pose proof (proj1 (forallb_forall _ _) Hl v Hv).
    destruct v; [discriminate|reflexivity|discriminate]. }
  rewrite Hm. cbn [rbind py_lt].
  assert (PrimFloat.ltb x m = false) as ->.
  { apply float_ltb_asym. destruct Hin as [->|Hin]; [exact Hy|].
    exact (proj1 (forallb_forall _ _) Hl _ Hin). }
  cbn [values map snd] in Hidx. rewrite Hrest in Hidx. rewrite Hidx. reflexivity.
Qed.

Lemma longer_than_every_entry_is_bulb_example :
  longer_than_every_entry example_table (PyNum 45%float) = true
  /\ get_shutterspeed_index_in example_table (PyNum 45%float) true = Ok 0%nat.
Proof.
  split; [vm_compute; reflexivity|].
  apply (longer_than_every_entry_is_bulb "bulb" (tl example_table) 45%float true).
  vm_compute; reflexivity.
Defined.

(** C1, on the code.  On the example table, and on the camera's own table,
    45 s with the minimum fallback resolves to index 0, bulb, and not to the
    30 s entry at index 1. *)
Lemma request_45s_resolves_to_bulb :
  index_from 0 (keys example_table) (PyStr "30") = Some 1%nat
  /\ longer_than_every_entry example_table (PyNum 45%float) = true
  /\ get_shutterspeed_index_in example_table (PyNum 45%float) true = Ok 0%nat
  /\ get_shutterspeed_index_in example_table (PyNum 45%float) true <> Ok 1%nat
  /\ get_shutterspeed_index (PyNum 45%float) true = Ok 0%nat
  /\ get_shutterspeed_index (PyNum 45%float) true <> Ok 1%nat.
Proof. vm_compute. repeat split; discriminate. Qed.

Lemma get_shutterspeed_index_precedence_example :
  is_request shutter_speeds (PyNum 8%float) = true
  /\ get_shutterspeed_index (PyNum 8%float) true = Ok 7%nat.
Proof.
  split; [reflexivity|].
  exact (proj1 (get_shutterspeed_index_precedence (PyNum 8%float) true eq_refl)).
Defined.

(** Outside the requests: a [str] that names no key reaches [seconds < min(...)]
    when the minimum fallback is asked for, and [str < float] raises. *)
Lemma nonkey_str_with_minimum_raises :
  get_shutterspeed_index (PyStr "45") true = Raise TypeError
  /\ get_shutterspeed_index (PyStr "45") false = Ok 0%nat.
Proof. vm_compute. split; reflexivity. Qed.

End CanonProperties.

(** ** base.py: the command channel *)
Section GPhotoProperties.
Import GPhoto.

Lemma killed_at_cons_fresh h t ks :
  match killed_at h ks with Some k => (t < k)%nat | None => True end ->
  killed_at h ((h, t) :: ks) = Some t.
Proof.
  cbn [killed_at]. rewrite Nat.eqb_refl.
  destruct (killed_at h ks) as [k|]; [|reflexivity].
  intros Hk. f_equal. lia.
Qed.

(** [get_command_result] never raises and never blocks, and it leaves the
    slot empty. *)
Lemma get_command_result_returns (timeout : nat) (st : state) :
  exists r c w,
    get_command_result timeout st = (Ok r, (set_command_proc None c, w)).
Proof.
  destruct st as [c w]. unfold get_command_result.
  destruct (_command_proc c) as [p|] eqn:Hp.
  - unfold communicate at 1. cbn [now add_log kills].
    assert (forall w', ended_at (add_log (Log DEBUG "Getting output from proc") w') p
                       = ended_at w' p) as Hlog by reflexivity.
    rewrite Hlog.
    destruct (ended_at w p) as [e|] eqn:He.
    + destruct (Nat.leb e (now w + timeout)) eqn:Hle.
      * destruct (String.eqb _ _); eauto.
      * unfold communicate, kill, ended_at. cbn [kills add_kill add_log set_now handle now].
        destruct (killed_at _ _) as [k|] eqn:Hk.
        -- destruct (exits_at p); destruct (String.eqb _ _); eauto.
        -- cbn [killed_at] in Hk. rewrite Nat.eqb_refl in Hk.
           destruct (killed_at (handle p) (kills w)); discriminate.
    + unfold communicate, kill, ended_at. cbn [kills add_kill add_log set_now handle now].
      destruct (killed_at _ _) as [k|] eqn:Hk.
      * destruct (exits_at p); destruct (String.eqb _ _); eauto.
      * cbn [killed_at] in Hk. rewrite Nat.eqb_refl in Hk.
        destruct (killed_at (handle p) (kills w)); discriminate.
  - exists None, c, w. destruct c as [prt cp ev]. cbn in Hp. subst cp. reflexivity.
Qed.

Lemma get_command_result_no_command (timeout : nat) (c : camera) (w : world) :
  get_command_result timeout (set_command_proc None c, w)
  = (Ok None, (set_command_proc None c, w)).
Proof. reflexivity. Qed.

(** C7. [get_command_result] returns [None], and changes nothing, when no
    invocation is in flight; a call always returns, and leaves the invocation
    slot empty, so that a second call returns [None]. *)
Theorem get_command_result_none_then_cleared (timeout timeout' : nat) (st : state) :
  (_command_proc (fst st) = None -> get_command_result timeout st = (Ok None, st))
  /\ (exists r, fst (get_command_result timeout st) = Ok r)
  /\ _command_proc (fst (snd (get_command_result timeout st))) = None
  /\ get_command_result timeout' (snd (get_command_result timeout st))
     = (Ok None, snd (get_command_result timeout st)).
Proof.
  split.
  - destruct st as [[prt cp ev] w]. cbn. intros ->. reflexivity.
  - destruct (get_command_result_returns timeout st) as (r & c & w & ->).
    cbn [fst snd]. repeat split; eauto.
Qed.

Lemma get_command_result_none_then_cleared_example :
  _command_proc (fst (new_camera None)) = None
  /\ get_command_result 10 (new_camera None) = (Ok None, new_camera None).
Proof.
  split; [reflexivity|].
  exact (proj1 (get_command_result_none_then_cleared 10 10 (new_camera None)) eq_refl).
Defined.

(** C6. When the process in flight has not exited [timeout] ticks from now,
    [get_command_result] kills it at that time, collects the output again
    without a timeout, and returns the lines written until then: it neither
    blocks nor raises. *)
Theorem get_command_result_kills_on_timeout
    (timeout : nat) (c : camera) (w : world) (p : process) :
  _command_proc c = Some p ->
  still_running_after timeout w p ->
  exists w',
    get_command_result timeout (c, w)
    = (Ok (Some (split_lines (stdout_by p (now w + timeout)))),
       (set_command_proc None c, w'))
    /\ now w' = (now w + timeout)%nat
    /\ kills w' = (handle p, now w + timeout)%nat :: kills w
    /\ poll w' p = Some 0%nat.
Proof.
  intros Hp Hrun. unfold get_command_result. rewrite Hp.
  unfold still_running_after in Hrun.
  unfold communicate at 1.
  change (ended_at (add_log _ w) p) with (ended_at w p).
  cbn [now add_log].
  assert (ended_at (kill p (add_log (Log DEBUG "Timeout while waiting. Killing process")
                     (set_now (now w + timeout)
                        (add_log (Log DEBUG "Getting output from proc") w)))) p
          = Some (now w + timeout)%nat) as Hend.
  { unfold ended_at in *. cbn [kill add_kill kills add_log set_now now].
    rewrite killed_at_cons_fresh.
    - destruct (killed_at (handle p) (kills w)), (exits_at p); f_equal; lia.
    - destruct (killed_at (handle p) (kills w)) as [k|]; [|exact I].
      destruct (exits_at p); lia. }
  assert (communicate (Some timeout) p (add_log (Log DEBUG "Getting output from proc") w)
          = (TimeoutExpired,
             set_now (now w + timeout) (add_log (Log DEBUG "Getting output from proc") w)))
    as Hfirst.
  { unfold communicate. change (ended_at (add_log _ w) p) with (ended_at w p).
    cbn [now add_log].
    destruct (ended_at w p) as [e|]; [|reflexivity].
    destruct (Nat.leb_spec e (now w + timeout)); [lia|reflexivity]. }
  unfold communicate at 1 in Hfirst. change (ended_at (add_log _ w) p) with (ended_at w p) in Hfirst.
  cbn [now add_log] in Hfirst. rewrite Hfirst.
  unfold communicate. rewrite Hend.
  cbn [kill add_kill now set_now add_log].
  rewrite Nat.max_id.
  eexists. split; [reflexivity|].
  repeat split.
  - destruct (String.eqb _ _); reflexivity.
  - destruct (String.eqb _ _); reflexivity.
  - unfold poll.
    match goal with |- context [ended_at ?w0 p] =>
      assert (ended_at w0 p = Some (now w + timeout)%nat) as ->
    end.
    { destruct (String.eqb _ _); exact Hend. }
    assert (forall b (w1 w2 : world), now w1 = now w2 -> now (if b : bool then w1 else w2) = now w1)
      as Hnow by (intros [] ? ? ?; congruence).
    rewrite Hnow by reflexivity. cbn [now set_now add_log].
    rewrite Nat.leb_refl. reflexivity.
Qed.

Lemma get_command_result_kills_on_timeout_example :
  let st := snd (command (simple_environment None "IMG_0001.CR2")
                   ["--capture-image"] (new_camera None)) in
  exists w',
    get_command_result 10 st
    = (Ok (Some ["IMG_0001.CR2"]), (set_command_proc None (fst st), w'))
    /\ kills w' = [(0, 10)]%nat.
Proof.
  intros st.
  pose (p := {| handle := 0; pid := 4242;
                run_cmd := ["/usr/bin/gphoto2"; "--capture-image"];
                exits_at := None;
                stdout_by := fun _ => "IMG_0001.CR2"; stderr_by := fun _ => "" |}).
  destruct (get_command_result_kills_on_timeout 10 (fst st) (snd st) p eq_refl I)
    as (w' & Hres & _ & Hkills & _).
  exists w'. split; [exact Hres | exact Hkills].
Defined.

(** The guard of [command]: when [is_exposing] holds, the call raises and
    neither the camera nor the world changes. *)
Lemma command_rejected_while_exposing (env : environment) (cmd : list string) (st : state) :
  fst (is_exposing st) = true ->
  command env cmd st = (Raise (InvalidCommand "Command already running"), st).
Proof.
  destruct st as [c w]. unfold command, is_exposing.
  destruct (_command_proc c) as [p|]; [destruct (poll w p)|];
    cbn [fst clear_is_exposing_event _is_exposing_event]; intros H; try discriminate;
    rewrite H; reflexivity.
Qed.

(** [command] does not set the event that [is_exposing] reads: right after a
    call that started a process, [is_exposing] is false whether or not that
    process has exited, and the next call is not rejected by the guard. *)
Lemma command_leaves_event_unset
    (env : environment) (cmd cmd' : list string) (st st1 : state) :
  command env cmd st = (Ok tt, st1) ->
  is_Some (_command_proc (fst st1))
  /\ fst (is_exposing st1) = false
  /\ fst (command env cmd' st1) <> Raise (InvalidCommand "Command already running").
Proof.
  intros Hcmd.
  assert (is_Some (_command_proc (fst st1)) /\ _is_exposing_event (fst st1) = false)
    as [Hproc Hev].
  { unfold command in Hcmd. destruct (is_exposing st) as [b [c w]] eqn:Hexp.
    destruct b; [discriminate|].
    assert (_is_exposing_event c = false) as Hc.
    { destruct st as [c0 w0]. unfold is_exposing in Hexp.
      injection Hexp as Hb <- <-. exact Hb. }
    destruct (which_gphoto2 env); [|discriminate].
    destruct (popen env _ _); try discriminate.
    injection Hcmd as <-. cbn. split; [eauto|exact Hc]. }
  assert (fst (is_exposing st1) = false) as Hexp1.
  { destruct st1 as [c1 w1]. cbn [fst] in *. unfold is_exposing.
    destruct (_command_proc c1) as [p|]; [destruct (poll w1 p)|]; cbn; auto. }
  repeat split; auto.
  unfold command. destruct (is_exposing st1) as [b [c w]]. cbn [fst] in Hexp1. subst b.
  destruct (which_gphoto2 env); [|discriminate].
  destruct (popen env _ _); cbn [fst]; discriminate.
Qed.

(** C5, on the code.  A camera fresh from [__init__] is given two commands
    in a row, the process of the first still running: the second call is
    not rejected, it starts a second process, and both processes run. *)
Theorem second_command_starts_a_second_process :
  let env := simple_environment None "" in
  let first := command env ["--capture-image-and-download"] (new_camera None) in
  let second := command env ["--capture-image-and-download"] (snd first) in
  fst first = Ok tt
  /\ (exists p, _command_proc (fst (snd first)) = Some p /\ poll (snd (snd first)) p = None)
  /\ fst second = Ok tt
  /\ length (started (snd (snd second))) = 2%nat
  /\ Forall (fun p => poll (snd (snd second)) p = None) (started (snd (snd second))).
Proof.
  cbv zeta. repeat split.
  - eexists. split; reflexivity.
  - repeat constructor.
Qed.

End GPhotoProperties.

(** ** observatory.py: the camera registry *)
Section RegistryProperties.
Import Observatory.

Lemma od_set_keys {V} (d : list (string * V)) (k : string) (v : V) :
  od_mem d k = true -> od_keys (od_set d k v) = od_keys d.
Proof.
  unfold od_mem. induction d as [|[k' v'] d IH]; cbn [od_get od_set]; [discriminate|].
  destruct (String.eqb_spec k k') as [->|Hne]; [reflexivity|].
  intros H. cbn [od_keys map fst]. f_equal. exact (IH H).
Qed.

Lemma od_get_set {V} (d : list (string * V)) (k : string) (v : V) :
  od_get (od_set d k v) k = Some v.
Proof.
  induction d as [|[k' v'] d IH]; cbn [od_get od_set].
  - rewrite String.eqb_refl. reflexivity.
  - destruct (String.eqb_spec k k') as [->|Hne]; cbn [od_get].
    + rewrite String.eqb_refl. reflexivity.
    + destruct (String.eqb_spec k k'); [contradiction|]. exact IH.
Qed.

Lemma od_get_set_other {V} (d : list (string * V)) (k k' : string) (v : V) :
  k <> k' -> od_get (od_set d k v) k' = od_get d k'.
Proof.
  intros Hne. induction d as [|[k0 v0] d IH]; cbn [od_get od_set].
  - destruct (String.eqb_spec k' k); [congruence|reflexivity].
  - destruct (String.eqb_spec k k0) as [->|Hk]; cbn [od_get].
    + destruct (String.eqb_spec k' k0); [congruence|reflexivity].
    + destruct (String.eqb_spec k' k0); [reflexivity|exact IH].
Qed.

(** The registry after [add_camera]. *)
Lemma add_camera_cameras (cam_name : string) (cam : camera) (st : state) :
  fst (add_camera cam_name cam st) = Ok tt
  /\ cameras (self (snd (add_camera cam_name cam st)))
     = od_set (cameras (self st)) cam_name cam.
Proof.
  unfold add_camera, bind, logger, ret. cbn [self add_event].
  destruct (od_mem (cameras (self st)) cam_name); cbn [self add_event set_self];
    destruct (is_primary cam); auto.
Qed.

(** C8. For every registry and every name already in it, [add_camera] under
    that name replaces the entry in place: the registry then holds the new
    camera under the name, the names are listed in the same order as before,
    and every other name keeps its camera. *)
Theorem add_camera_replaces_in_place (cam_name : string) (cam : camera) (st : state) :
  od_mem (cameras (self st)) cam_name = true ->
  let st' := snd (add_camera cam_name cam st) in
  fst (add_camera cam_name cam st) = Ok tt
  /\ od_get (cameras (self st')) cam_name = Some cam
  /\ od_keys (cameras (self st')) = od_keys (cameras (self st))
  /\ (forall other, other <> cam_name ->
        od_get (cameras (self st')) other = od_get (cameras (self st)) other).
Proof.
  intros Hmem st'. subst st'.
  destruct (add_camera_cameras cam_name cam st) as [Hok ->].
  repeat split.
  - exact Hok.
  - apply od_get_set.
  - apply od_set_keys, Hmem.
  - intros other Hne. apply od_get_set_other. congruence.
Qed.

Lemma add_camera_replaces_in_place_example :
  let cam := example_camera "Cam01b" false 0 in
  let st' := snd (add_camera "Cam01" cam example_state) in
  od_mem (cameras (self example_state)) "Cam01" = true
  /\ od_get (cameras (self st')) "Cam01" = Some cam
  /\ od_keys (cameras (self st')) = ["Cam00"; "Cam01"; "Cam02"].
Proof.
  intros cam st'. split; [reflexivity|].
  destruct (add_camera_replaces_in_place "Cam01" cam example_state eq_refl)
    as (_ & Hget & Hkeys & _).
  split; [exact Hget|exact Hkeys].
Defined.

(** Removing and then adding, by contrast, moves the name to the end. *)
Lemma remove_then_add_moves_to_the_end :
  let cam := example_camera "Cam01b" false 0 in
  let st' := snd (add_camera "Cam01" cam (snd (remove_camera "Cam01" example_state))) in
  od_keys (cameras (self st')) = ["Cam00"; "Cam02"; "Cam01"].
Proof. reflexivity. Qed.

End RegistryProperties.

(** ** observatory.py: the blocking wait of [observe] *)
Section ObserveProperties.
Import Observatory.

Lemma poll_times_nil (t r d : nat) : (0 < r)%nat -> (d <= t)%nat -> poll_times t r d = [].
Proof.
  intros Hr Hd. unfold poll_times.
  replace (d - t + (r - 1))%nat with (r - 1)%nat by lia.
  rewrite Nat.div_small by lia. reflexivity.
Qed.

Lemma poll_times_cons (t r d : nat) :
  (0 < r)%nat -> (t < d)%nat -> poll_times t r d = t :: poll_times (t + r) r d.
Proof.
  intros Hr Hd. unfold poll_times.
  assert (((d - t + (r - 1)) / r = S ((d - (t + r) + (r - 1)) / r))%nat) as ->.
  { destruct (Nat.le_gt_cases r (d - t)) as [Hle|Hgt].
    - replace (d - t + (r - 1))%nat with ((d - (t + r) + (r - 1)) + 1 * r)%nat by lia.
      rewrite Nat.div_add by lia. lia.
    - replace (d - (t + r) + (r - 1))%nat with (r - 1)%nat by lia.
      rewrite (Nat.div_small (r - 1)) by lia.
      replace (d - t + (r - 1))%nat with ((d - t - 1) + 1 * r)%nat by lia.
      rewrite Nat.div_add by lia. rewrite Nat.div_small by lia. reflexivity. }
  cbn [seq map]. f_equal; [lia|].
  rewrite <- seq_shift, map_map. apply map_ext. intros k. lia.
Qed.

Lemma done_observing_all_idle (st : state) :
  done_observing st = all_idle (self st) (clock st).
Proof. reflexivity. Qed.

(** The loop, from a state whose clock has not passed the deadline. *)
Lemma poll_loop_spec (fuel : nat) (timer : CountdownTimer) (r : nat) (st : state) :
  (0 < r)%nat ->
  (clock st <= target_time timer)%nat ->
  (target_time timer - clock st < fuel)%nat ->
  exists st',
    poll_loop fuel timer r st = (Ok tt, st')
    /\ self st' = self st
    /\ (exists evs, events st' = evs ++ events st)
    /\ match find (all_idle (self st)) (poll_times (clock st) r (target_time timer)) with
       | Some t => clock st' = t /\ expired timer st' = false
       | None => clock st' = target_time timer /\ expired timer st' = true
       end.
Proof.
  intros Hr. revert st. induction fuel as [|fuel IH]; intros st Hle Hfuel; [lia|].
  cbn [poll_loop]. unfold expired at 1, time_left.
  destruct (Nat.eqb_spec (target_time timer - clock st) 0) as [Hz|Hnz].
  - exists st. repeat split; [exists []; reflexivity|].
    rewrite poll_times_nil by lia. cbn [find].
    split; [lia|]. unfold expired, time_left. rewrite Hz. reflexivity.
  - rewrite poll_times_cons by lia. cbn [find].
    rewrite done_observing_all_idle.
    destruct (all_idle (self st) (clock st)) eqn:Hidle.
    + eexists. split; [reflexivity|]. cbn [self add_event clock events].
      repeat split; [eexists [_]; reflexivity|].
      unfold expired, time_left. cbn [clock add_event].
      apply Nat.eqb_neq. exact Hnz.
    + unfold bind, timer_sleep, time_left.
      set (sleep_time := if (0 <? r)%nat && (r <? target_time timer - clock st)%nat
                         then r else (target_time timer - clock st)%nat).
      set (st1 := advance sleep_time (add_event (Called (Sleep sleep_time)) st)).
      assert (clock st1 = Nat.min (clock st + r) (target_time timer)) as Hclock.
      { subst st1 sleep_time. cbn [clock advance add_event].
        destruct (Nat.ltb_spec 0 r); [|lia].
        destruct (Nat.ltb_spec r (target_time timer - clock st)); cbn [andb]; lia. }
      destruct (IH st1) as (st' & Hloop & Hself & [evs Hevs] & Hfind); [lia|lia|].
      rewrite Hloop. exists st'. split; [reflexivity|].
      split; [rewrite Hself; reflexivity|].
      split; [exists (evs ++ [Called (Sleep sleep_time)]); rewrite Hevs, <- app_assoc;
              reflexivity|].
      change (self st1) with (self st) in Hfind.
      destruct (Nat.le_gt_cases (target_time timer) (clock st + r)) as [Hover|Hunder].
      * rewrite poll_times_nil by lia. cbn [find].
        rewrite Hclock, Nat.min_r in Hfind by lia.
        rewrite poll_times_nil in Hfind by lia. exact Hfind.
      * rewrite Hclock, Nat.min_l in Hfind by lia. exact Hfind.
Qed.

Lemma timer_sleep_first (timer : CountdownTimer) (a b : nat) (st : state) :
  target_time timer = (clock st + (a + b))%nat -> (0 < a)%nat ->
  timer_sleep timer a st = (Ok tt, advance a (add_event (Called (Sleep a)) st)).
Proof.
  intros Ht Ha. unfold timer_sleep, time_left. rewrite Ht.
  destruct (Nat.ltb_spec 0 a); [|lia].
  destruct (Nat.ltb_spec a (clock st + (a + b) - clock st)); cbn [andb]; [reflexivity|].
  replace (clock st + (a + b) - clock st)%nat with a by lia. reflexivity.
Qed.

(** The [if blocking:] block against the wait of the specification. *)
Lemma wait_for_cameras_spec (st : state) (cam : camera) (obs : observation) :
  primary_camera (self st) = Some cam ->
  current_observation (self st) = Some obs ->
  (0 < readout_time cam)%nat ->
  exists st',
    wait_for_cameras st = (fst (wait_spec (self st) (clock st) (exptime obs)
                                  (readout_time cam) (timeout cam)), st')
    /\ clock st' = snd (wait_spec (self st) (clock st) (exptime obs)
                         (readout_time cam) (timeout cam))
    /\ self st' = self st
    /\ exists evs,
         events st' = evs ++ Called (Sleep (exptime obs + readout_time cam)) :: events st.
Proof.
  intros Hcam Hobs Hr. unfold wait_for_cameras. rewrite Hcam, Hobs.
  unfold bind at 1. unfold new_timer.
  set (timer := {| target_time := clock st + (exptime obs + readout_time cam + timeout cam) |}).
  unfold bind at 1.
  rewrite (timer_sleep_first timer _ (timeout cam)) by (subst timer; cbn; lia).
  set (st1 := advance _ _).
  destruct (poll_loop_spec (S (time_left timer st1)) timer (readout_time cam) st1)
    as (st' & Hloop & Hself & [evs Hevs] & Hfind).
  { exact Hr. }
  { subst st1 timer. cbn [clock advance add_event target_time]. lia. }
  { unfold time_left. lia. }
  unfold bind. rewrite Hloop.
  unfold wait_spec.
  replace (clock st + (exptime obs + readout_time cam + timeout cam))%nat
    with (target_time timer) by reflexivity.
  change (clock st + (exptime obs + readout_time cam))%nat with (clock st1).
  change (self st) with (self st1).
  destruct (find (all_idle (self st1)) (poll_times (clock st1) (readout_time cam)
                                          (target_time timer))) as [t|];
    destruct Hfind as [Hclock Hexp]; rewrite Hexp; exists st'; cbn [fst snd];
    (repeat split; [exact Hclock|exact Hself|]);
    exists evs; rewrite Hevs; reflexivity.
Qed.

Lemma observe_blocking (env : environment) (st : state) :
  fst (observe env false st) = Ok tt ->
  observe env true st = wait_for_cameras (snd (observe env false st)).
Proof.
  unfold observe, bind.
  destruct (invoke GetStandardHeaders (get_standard_headers env) st) as [[u| |] s0];
    cbn [fst snd]; try discriminate.
  destruct (take_observations env (od_keys (cameras (self s0))) s0) as [[u'| |] s1];
    cbn [fst snd ret]; try discriminate.
  reflexivity.
Qed.

(** C4, as amended.  For every blocking [observe] whose exposures have been
    started ([observe env false] is the call that starts them and does not
    wait) and whose primary camera has a positive readout time, the wait
    budget is the exposure time plus the readout time and the timeout of
    the primary camera.  The wait first sleeps for exposure time plus
    readout time, then polls the flag of every camera every readout time
    while the budget lasts.  It returns, before the budget has elapsed,
    exactly when at one of these polls all cameras report that they are
    idle, and it raises [TimeoutError], the budget exhausted, when at none
    of them they do: what the cameras report between two polls, or after
    the last one, does not count. *)
Theorem observe_wait_budget
    (env : environment) (st : state) (cam : camera) (obs : observation) :
  let st1 := snd (observe env false st) in
  let budget := (exptime obs + readout_time cam + timeout cam)%nat in
  let polls := poll_times (clock st1 + (exptime obs + readout_time cam))
                 (readout_time cam) (clock st1 + budget) in
  fst (observe env false st) = Ok tt ->
  primary_camera (self st1) = Some cam ->
  current_observation (self st1) = Some obs ->
  (0 < readout_time cam)%nat ->
  exists st',
    observe env true st = (fst (wait_spec (self st1) (clock st1) (exptime obs)
                                  (readout_time cam) (timeout cam)), st')
    /\ clock st' = snd (wait_spec (self st1) (clock st1) (exptime obs)
                         (readout_time cam) (timeout cam))
    /\ (exists evs,
          events st' = evs ++ Called (Sleep (exptime obs + readout_time cam)) :: events st1)
    /\ ((exists t, In t polls /\ all_idle (self st1) t = true) ->
        fst (observe env true st) = Ok tt /\ (clock st' < clock st1 + budget)%nat)
    /\ ((forall t, In t polls -> all_idle (self st1) t = false) ->
        fst (observe env true st) = Raise TimeoutError /\ clock st' = (clock st1 + budget)%nat).
Proof.
  intros st1 budget polls Hdispatch Hcam Hobs Hr.
  destruct (wait_for_cameras_spec st1 cam obs Hcam Hobs Hr)
    as (st' & Hwait & Hclock & _ & Hevs).
  rewrite (observe_blocking env st Hdispatch). fold st1.
  exists st'. rewrite Hwait, Hclock. cbn [fst].
  split; [reflexivity|]. split; [reflexivity|]. split; [exact Hevs|].
  unfold wait_spec; fold budget; fold polls.
  destruct (find (all_idle (self st1)) polls) as [t'|] eqn:Hfind; cbn [fst snd].
  - apply find_some in Hfind as [Hin' Hidle']. split.
    + intros _. split; [reflexivity|].
      subst polls. unfold poll_times in Hin'.
      apply in_map_iff in Hin' as (k & <- & Hk). apply in_seq in Hk.
      assert (k * readout_time cam < timeout cam)%nat; [|lia].
      destruct Hk as [_ Hk]. cbn in Hk.
      replace (clock st1 + budget - (clock st1 + (exptime obs + readout_time cam)))%nat
        with (timeout cam) in Hk by lia.
      pose proof (Nat.Div0.mul_div_le (timeout cam + (readout_time cam - 1))
                    (readout_time cam)) as Hdiv.
      set (q := ((timeout cam + (readout_time cam - 1)) / readout_time cam)%nat) in *.
      assert (readout_time cam * S k <= readout_time cam * q)%nat
        by (apply Nat.mul_le_mono_l; lia).
      lia.
    + intros Hbusy. rewrite (Hbusy _ Hin') in Hidle'. discriminate.
  - split.
    + intros (t & Hin & Hidle). pose proof (find_none _ _ Hfind t Hin). congruence.
    + intros _. split; reflexivity.
Qed.

Lemma observe_wait_budget_example :
  let out := observe quiet_environment true example_state in
  all_idle (self example_state) 30 = true
  /\ fst out = Ok tt
  /\ clock (snd out) = 30%nat.
Proof.
  intros out.
  destruct (observe_wait_budget quiet_environment example_state
              (example_camera "Cam00" false 25)
              {| exptime := 20;
                 exposure_list :=
                   <["Cam00" := [example_exposure "a0" None]]>
                     (<["Cam01" := [example_exposure "b0" (Some "complete")]]>
                        (<["Cam02" := [example_exposure "c0" None]]> ∅)) |}
              eq_refl eq_refl eq_refl (Nat.lt_0_succ 9))
    as (st' & Hrun & Hclock & _ & Hok & _).
  split; [reflexivity|]. split.
  - apply Hok. exists 30%nat. split; [left; reflexivity|reflexivity].
  - subst out. rewrite Hrun. exact Hclock.
Defined.

(** C4, on the code.  In tenths of a second: exposure 2 s, readout 1 s,
    timeout 5 s, so that the budget is 80 and the polls are at 30, 40, 50,
    60 and 70.  The camera is idle from 75 on, before the budget has
    elapsed but after the last poll: the wait raises [TimeoutError] at 80. *)
Lemma idle_after_the_last_poll_times_out :
  let late := example_camera "Cam00" false 75 in
  let st := set_self (set_cameras [("Cam00", late)] (self example_state)) example_state in
  let out := observe quiet_environment true st in
  all_idle (self st) 75 = true
  /\ Nat.ltb 75 (20 + readout_time late + timeout late) = true
  /\ poll_times (20 + readout_time late) (readout_time late)
       (20 + readout_time late + timeout late) = [30; 40; 50; 60; 70]%nat
  /\ fst out = Raise TimeoutError
  /\ clock (snd out) = 80%nat.
Proof. vm_compute. split_and!; reflexivity. Qed.

(** With a readout time of zero the cameras are polled once, when the
    exposure time has passed, and the wait then sleeps until the budget is
    exhausted: a camera that is idle from 25 on is not seen. *)
Lemma zero_readout_polls_once :
  let cam := {| uid := "Cam00"; is_primary := false; readout_time := 0; timeout := 50;
                is_observing := fun t => Nat.ltb t 25 |} in
  let st := set_self (set_cameras [("Cam00", cam)] (self example_state)) example_state in
  let out := observe quiet_environment true st in
  all_idle (self st) 25 = true
  /\ fst out = Raise TimeoutError
  /\ clock (snd out) = 70%nat.
Proof. vm_compute. split_and!; reflexivity. Qed.

End ObserveProperties.

(** ** observatory.py: [process_observation] *)
Section ProcessProperties.
Import Observatory.

Lemma latest_is_self (cam_name : string) (st st' : state) (e : exposure) :
  self st' = self st -> latest_is cam_name st e -> latest_is cam_name st' e.
Proof.
  unfold latest_is, latest_exposure. intros ->.
  destruct (current_observation (self st)) as [obs|]; [|discriminate].
  destruct (exposure_list obs !! cam_name) as [l|]; [|discriminate].
  destruct (last l); [|discriminate]. intros [= ->]. reflexivity.
Qed.

Lemma latest_is_add_event (cam_name : string) (st : state) (e : exposure) (ev : event) :
  latest_is cam_name st e -> latest_is cam_name (add_event ev st) e.
Proof. apply latest_is_self. reflexivity. Qed.

Lemma latest_is_update (cam_name : string) (f : exposure -> exposure)
    (st : state) (e : exposure) :
  latest_is cam_name st e ->
  latest_is cam_name (update_latest cam_name f st) (f e)
  /\ events (update_latest cam_name f st) = events st
  /\ clock (update_latest cam_name f st) = clock st.
Proof.
  unfold latest_is, latest_exposure, update_latest.
  destruct (current_observation (self st)) as [obs|] eqn:Hobs; [|discriminate].
  destruct (exposure_list obs !! cam_name) as [l|] eqn:Hl; [|discriminate].
  destruct (last l) as [e0|] eqn:Hlast; [|discriminate]. intros [= ->].
  cbn [self set_self current_observation exposure_list events clock].
  rewrite lookup_insert_eq.
  assert (last (replace_last l (f e)) = Some (f e)) as ->.
  { destruct l as [|x l]; [discriminate|]. unfold replace_last. apply last_snoc. }
  auto.
Qed.

Lemma steps_entered_app (evs2 evs1 : list event) :
  steps_entered (evs2 ++ evs1) = steps_entered evs1 ++ steps_entered evs2.
Proof. unfold steps_entered. rewrite rev_app_distr. apply omap_app. Qed.

Lemma events_cons_app {A} (x : A) (xs ys t : list A) :
  xs = ys ++ t -> x :: xs = (x :: ys) ++ t.
Proof. intros ->. reflexivity. Qed.

Ltac solve_events :=
  cbn [events add_event];
  repeat (apply events_cons_app); exact (eq_refl : _ = [] ++ _).

(** Closes [step_done] for a run that only logged and called. *)
Ltac logged_only He :=
  eexists _, _, _; split; [reflexivity|];
  cbn [cam set_file_path set_meta clock add_event];
  split_and!;
  [ reflexivity
  | eexists; repeat apply latest_is_add_event; exact He
  | reflexivity
  | solve_events
  | reflexivity ].

Lemma step_solve_done env opts l st e :
  latest_is (cam l) st e ->
  step_done Solve env opts l st (step_solve env opts l st)
  /\ (step_enabled env opts Solve = true ->
      is_raise (get_solve_field env (l_file_path l)) ->
      exists evs, events (snd (step_solve env opts l st)) = evs ++ events st
                  /\ In (Logged WARNING "Problem solving") evs).
Proof.
  intros He. unfold step_done, step_solve. cbn [step_enabled].
  destruct (enabled env (plate_solve opts) "observations.plate_solve").
  - unfold bind, logger, try_except, invoke, ret.
    destruct (get_solve_field env (l_file_path l)) as [d|ex]; cbn [is_raise].
    + split; [|intros _ []].
      destruct (d !! "solved_fits_file") as [v|]; logged_only He.
    + split; [logged_only He|].
      intros _ _. eexists. split; [solve_events|]. left. reflexivity.
  - split; [|discriminate]. exists l, st, []. split_and!; eauto.
Qed.

Lemma step_compress_done env opts l st e :
  latest_is (cam l) st e ->
  (step_enabled env opts Compress = true -> is_return (fpack env (l_file_path l))) ->
  step_done Compress env opts l st (step_compress env opts l st).
Proof.
  intros He Hfpack. unfold step_done, step_compress. cbn [step_enabled] in *.
  destruct (enabled env (compress_fits opts) "observations.compress_fits").
  - unfold bind, logger, invoke, ret.
    destruct (fpack env (l_file_path l)) as [p|ex]; [|destruct (Hfpack eq_refl)].
    set (st1 := add_event _ (add_event _ st)).
    assert (latest_is (cam l) st1 e) as He1 by (repeat apply latest_is_add_event; exact He).
    destruct (latest_is_update (cam l)
                (fun e0 => {| image_id := image_id e0; path := p; metadata := metadata e0 |})
                st1 e He1) as (He2 & Hev2 & Hck2).
    set (st2 := update_latest _ _ st1) in *.
    unfold metadata_setitem. destruct (meta l) as [|d].
    + destruct (latest_is_update (cam l)
                  (fun e0 => {| image_id := image_id e0; path := path e0;
                                metadata := <["filepath" := p]> (metadata e0) |})
                  st2 _ He2) as (He3 & Hev3 & Hck3).
      eexists _, _, _. split; [reflexivity|].
      cbn [cam clock add_event events].
      split_and!; [reflexivity| eexists; apply latest_is_add_event; exact He3 | | |].
      * rewrite Hck3, Hck2. reflexivity.
      * rewrite Hev3, Hev2. subst st1. solve_events.
      * reflexivity.
    + unfold ret. eexists _, _, _. split; [reflexivity|].
      cbn [cam set_meta clock add_event events].
      split_and!; [reflexivity| eexists; apply latest_is_add_event; exact He2 | | |].
      * rewrite Hck2. reflexivity.
      * rewrite Hev2. subst st1. solve_events.
      * reflexivity.
  - exists l, st, []. split_and!; eauto.
Qed.

Lemma step_record_done env opts l st e :
  latest_is (cam l) st e ->
  (step_enabled env opts Record_ = true ->
   forall d, is_return (insert_current env "observations" d)) ->
  step_done Record_ env opts l st (step_record env opts l st).
Proof.
  intros He Hins. unfold step_done, step_record. cbn [step_enabled] in *.
  destruct (enabled env (record_observations opts) "observations.record_observations").
  - unfold bind at 1. unfold logger at 1.
    set (st1 := add_event _ st).
    assert (latest_is (cam l) st1 e) as He1 by (apply latest_is_add_event; exact He).
    unfold metadata_setitem, read_metadata, bind, ret, invoke.
    destruct (meta l) as [|d] eqn:Hmeta.
    + destruct (latest_is_update (cam l)
                  (fun e0 => {| image_id := image_id e0; path := path e0;
                                metadata := <["status" := VStr "complete"]> (metadata e0) |})
                  st1 _ He1) as (He2 & Hev2 & Hck2).
      rewrite Hmeta. rewrite He2.
      match goal with |- context [insert_current env "observations" ?d] =>
        pose proof (Hins eq_refl d) as Hd; destruct (insert_current env "observations" d);
        [|destruct Hd] end.
      eexists _, _, _. split; [reflexivity|].
      cbn [cam clock add_event events].
      split_and!; [reflexivity| eexists; apply latest_is_add_event; exact He2 | | |].
      * rewrite Hck2. reflexivity.
      * rewrite Hev2. subst st1. solve_events.
      * reflexivity.
    + cbn [meta set_meta].
      match goal with |- context [insert_current env "observations" ?d] =>
        pose proof (Hins eq_refl d) as Hd; destruct (insert_current env "observations" d);
        [|destruct Hd] end.
      subst st1. logged_only He.
  - exists l, st, []. split_and!; eauto.
Qed.

Ltac mstep :=
  unfold try_except, bind, logger, ret, raise, invoke, getitem; cbn beta iota; cbn [negb].

(** Closes the two parts of a guarded step that ended in its handler. *)
Ltac handled He :=
  split; [logged_only He|];
  intros _ _; eexists; split; [solve_events|]; left; reflexivity.

Lemma step_pretty_done env opts l st e :
  latest_is (cam l) st e ->
  step_done Pretty env opts l st (step_pretty env opts l st)
  /\ (step_enabled env opts Pretty = true ->
      (forall c, is_raise (start_process env c)) ->
      exists evs, events (snd (step_pretty env opts l st)) = evs ++ events st
                  /\ In (Logged WARNING "Problem with extracting pretty image") evs).
Proof.
  intros He. unfold step_done, step_pretty. cbn [step_enabled].
  destruct (enabled env (make_pretty_images opts) "observations.make_pretty_images").
  - assert (exists d, forall ev, read_metadata l (add_event ev st) = (Ok d, add_event ev st))
      as [d Hd].
    { unfold read_metadata. destruct (meta l) as [|d]; [|exists d; reflexivity].
      exists (metadata e). intros ev. unfold bind.
      rewrite (latest_is_add_event _ _ _ ev He). reflexivity. }
    mstep. rewrite Hd.
    destruct (d !! "is_primary") as [primary|]; mstep; [|handled He].
    destruct (truthy primary); mstep.
    + destruct (get_config env "directories.images") as [| | |dir]; mstep;
        [handled He..|].
      match goal with |- context [start_process env ?c] =>
        pose proof (fun H : forall c0, is_raise (start_process env c0) => H c) as Hc;
        destruct (start_process env c) end; mstep; [|handled He].
      split; [logged_only He|]. intros _ H. destruct (Hc H).
    + match goal with |- context [start_process env ?c] =>
        pose proof (fun H : forall c0, is_raise (start_process env c0) => H c) as Hc;
        destruct (start_process env c) end; mstep; [|handled He].
      split; [logged_only He|]. intros _ H. destruct (Hc H).
  - split; [|discriminate]. exists l, st, []. split_and!; eauto.
Qed.

Lemma step_upload_done env opts l st e :
  latest_is (cam l) st e ->
  step_done Upload env opts l st (step_upload env opts l st)
  /\ (step_enabled env opts Upload = true ->
      (forall c, is_raise (start_process env c)) ->
      exists evs, events (snd (step_upload env opts l st)) = evs ++ events st
                  /\ In (Logged WARNING "Problem uploading exposure") evs).
Proof.
  intros He. unfold step_done, step_upload. cbn [step_enabled].
  destruct (enabled env (upload_image_immediately opts)
              "observations.upload_image_immediately").
  - mstep. rewrite (latest_is_add_event _ _ _ _ He).
    unfold upload_exposure.
    destruct (path_exists env (path e)); mstep; [|handled He].
    destruct (get_config env "directories.images") as [| | |dir]; mstep; [handled He..|].
    destruct (get_config env "pan_id") as [| | |pan_id]; mstep; [handled He..|].
    match goal with |- context [start_process env ?c] =>
      pose proof (fun H : forall c0, is_raise (start_process env c0) => H c) as Hc;
      destruct (start_process env c) end; mstep; [|handled He].
    split; [logged_only He|]. intros _ H. destruct (Hc H).
  - split; [|discriminate]. exists l, st, []. split_and!; eauto.
Qed.

Lemma has_required_fields_lookup (d : gmap string value) :
  has_required_fields d = true ->
  exists a b c e, d !! "image_id" = Some a /\ d !! "sequence_id" = Some b
                  /\ d !! "filepath" = Some c /\ d !! "exptime" = Some e.
Proof.
  unfold has_required_fields. cbn [forallb].
  rewrite !andb_true_iff, !bool_decide_eq_true.
  intros ([a Ha] & [b Hb] & [c Hc] & [e He] & _). eauto 10.
Qed.

Lemma enabled_steps_eq env opts :
  enabled_steps env opts
  = (if step_enabled env opts Solve then [Solve] else [])
    ++ (if step_enabled env opts Compress then [Compress] else [])
    ++ (if step_enabled env opts Record_ then [Record_] else [])
    ++ (if step_enabled env opts Pretty then [Pretty] else [])
    ++ (if step_enabled env opts Upload then [Upload] else []).
Proof.
  unfold enabled_steps. cbn [List.filter].
  destruct (step_enabled env opts Solve), (step_enabled env opts Compress),
    (step_enabled env opts Record_), (step_enabled env opts Pretty),
    (step_enabled env opts Upload); reflexivity.
Qed.

(** A pending exposure, when [fpack] and the database answer: every enabled
    step is entered, in order, and the loop goes on to the next camera. *)
Lemma process_exposure_pending env opts cam_name st e :
  latest_is cam_name st e ->
  has_required_fields (metadata e) = true ->
  marked_complete (metadata e) = false ->
  (step_enabled env opts Compress = true -> forall p, is_return (fpack env p)) ->
  (step_enabled env opts Record_ = true ->
   forall d, is_return (insert_current env "observations" d)) ->
  exists st' evs,
    process_exposure env opts cam_name st = (Ok Continue, st')
    /\ events st' = evs ++ events st
    /\ steps_entered evs = enabled_steps env opts
    /\ (step_enabled env opts Solve = true ->
        (forall p, is_raise (get_solve_field env p)) ->
        In (Logged WARNING "Problem solving") evs)
    /\ (step_enabled env opts Pretty = true ->
        (forall c, is_raise (start_process env c)) ->
        In (Logged WARNING "Problem with extracting pretty image") evs)
    /\ (step_enabled env opts Upload = true ->
        (forall c, is_raise (start_process env c)) ->
        In (Logged WARNING "Problem uploading exposure") evs).
Proof.
  intros He Hreq Hpending Hfpack Hins.
  destruct (has_required_fields_lookup _ Hreq) as (a & b & c & x & Ha & Hb & Hc & Hx).
  unfold process_exposure. unfold bind at 1. rewrite He.
  unfold bind at 1. unfold logger at 1.
  unfold required_field. rewrite Ha, Hb, Hc, Hx.
  unfold bind at 1 2 3 4. unfold ret at 1 2 3 4.
  unfold marked_complete in Hpending. rewrite Hpending.
  set (st0 := add_event _ st).
  set (l0 := {| cam := cam_name |}).
  assert (latest_is (cam l0) st0 e) as He0 by (apply latest_is_add_event; exact He).
  destruct (step_solve_done env opts l0 st0 e He0)
    as [(l1 & st1 & evs1 & Hs1 & Hc1 & [e1 He1] & _ & Hev1 & Hst1) Hw1].
  rewrite <- Hc1 in He1.
  destruct (step_compress_done env opts l1 st1 e1 He1 (fun H => Hfpack H _))
    as (l2 & st2 & evs2 & Hs2 & Hc2 & [e2 He2] & _ & Hev2 & Hst2).
  rewrite <- Hc2 in He2.
  destruct (step_record_done env opts l2 st2 e2 He2 Hins)
    as (l3 & st3 & evs3 & Hs3 & Hc3 & [e3 He3] & _ & Hev3 & Hst3).
  rewrite <- Hc3 in He3.
  destruct (step_pretty_done env opts l3 st3 e3 He3)
    as [(l4 & st4 & evs4 & Hs4 & Hc4 & [e4 He4] & _ & Hev4 & Hst4) Hw4].
  rewrite <- Hc4 in He4.
  destruct (step_upload_done env opts l4 st4 e4 He4)
    as [(l5 & st5 & evs5 & Hs5 & Hc5 & [e5 He5] & _ & Hev5 & Hst5) Hw5].
  unfold bind. rewrite Hs1, Hs2, Hs3, Hs4, Hs5. unfold ret.
  exists st5, (evs5 ++ evs4 ++ evs3 ++ evs2 ++ evs1
               ++ [Logged DEBUG "Processing observation with exposure"]).
  split; [reflexivity|].
  split.
  { rewrite Hev5, Hev4, Hev3, Hev2, Hev1. subst st0. cbn [events add_event].
    rewrite <- !app_assoc. reflexivity. }
  split.
  { rewrite !steps_entered_app, Hst1, Hst2, Hst3, Hst4, Hst5, enabled_steps_eq.
    rewrite <- !app_assoc. reflexivity. }
  split_and!.
  - intros Hen Hraise. destruct (Hw1 Hen (Hraise _)) as (evs & Hevs & Hin).
    rewrite Hs1 in Hevs. cbn [snd] in Hevs. rewrite Hev1 in Hevs.
    apply app_inv_tail in Hevs as ->. rewrite !in_app_iff. auto 10.
  - intros Hen Hraise. destruct (Hw4 Hen Hraise) as (evs & Hevs & Hin).
    rewrite Hs4 in Hevs. cbn [snd] in Hevs. rewrite Hev4 in Hevs.
    apply app_inv_tail in Hevs as ->. rewrite !in_app_iff. auto 10.
  - intros Hen Hraise. destruct (Hw5 Hen Hraise) as (evs & Hevs & Hin).
    rewrite Hs5 in Hevs. cbn [snd] in Hevs. rewrite Hev5 in Hevs.
    apply app_inv_tail in Hevs as ->. rewrite !in_app_iff. auto 10.
Qed.

Lemma process_cameras_cons_continue env opts cam_name rest st st' :
  process_exposure env opts cam_name st = (Ok Continue, st') ->
  process_cameras env opts (cam_name :: rest) st = process_cameras env opts rest st'.
Proof. intros H. cbn [process_cameras]. unfold bind. rewrite H. reflexivity. Qed.

Lemma process_cameras_run_through env opts pre rest st st1 :
  run_through env opts pre st = Some st1 ->
  process_cameras env opts (pre ++ rest) st = process_cameras env opts rest st1.
Proof.
  revert st. induction pre as [|cam_name pre IH]; intros st; cbn [run_through app].
  - intros [= ->]. reflexivity.
  - destruct (process_exposure env opts cam_name st) as [[[]| |] st'] eqn:Hp; try discriminate.
    intros H. rewrite (process_cameras_cons_continue _ _ _ _ _ _ Hp). exact (IH _ H).
Qed.

(** An exposure already marked complete: two debug messages, and the body
    returns from the method. *)
Lemma process_exposure_complete env opts cam_name st e :
  latest_is cam_name st e ->
  has_required_fields (metadata e) = true ->
  marked_complete (metadata e) = true ->
  process_exposure env opts cam_name st
  = (Ok Return,
     add_event (Logged DEBUG "has already been processed, skipping")
       (add_event (Logged DEBUG "Processing observation with exposure") st)).
Proof.
  intros He Hreq Hdone.
  destruct (has_required_fields_lookup _ Hreq) as (a & b & c & x & Ha & Hb & Hc & Hx).
  unfold process_exposure. unfold bind at 1. rewrite He.
  unfold bind at 1. unfold logger at 1.
  unfold required_field. rewrite Ha, Hb, Hc, Hx.
  unfold bind at 1 2 3 4. unfold ret at 1 2 3 4.
  unfold marked_complete in Hdone. rewrite Hdone. reflexivity.
Qed.

(** C9. When the loop of [process_observation] reaches an exposure that has
    the required fields and is marked complete, the method returns without
    error: no step is entered and no collaborator is called for it, and
    nothing but the log changes. *)
Theorem process_observation_complete_is_noop
    env opts (pre : list string) cam_name (rest : list string) st st1 e :
  od_keys (cameras (self st)) = pre ++ cam_name :: rest ->
  run_through env opts pre st = Some st1 ->
  latest_is cam_name st1 e ->
  has_required_fields (metadata e) = true ->
  marked_complete (metadata e) = true ->
  exists st' evs,
    process_observation env opts st = (Ok tt, st')
    /\ self st' = self st1
    /\ clock st' = clock st1
    /\ events st' = evs ++ events st1
    /\ steps_entered evs = []
    /\ (forall c, ~ In (Called c) evs).
Proof.
  intros Hkeys Hpre He Hreq Hdone.
  unfold process_observation. rewrite Hkeys.
  rewrite (process_cameras_run_through _ _ _ _ _ _ Hpre).
  cbn [process_cameras]. unfold bind.
  rewrite (process_exposure_complete _ _ _ _ _ He Hreq Hdone).
  eexists _, [_; _]. split; [reflexivity|]. split_and!; try reflexivity.
  intros c [H|[H|[]]]; discriminate H.
Qed.

Lemma process_observation_complete_is_noop_example :
  let st := only_camera "Cam01" in
  marked_complete (metadata (example_exposure "b0" (Some "complete"))) = true
  /\ exists st',
       process_observation quiet_environment all_steps st = (Ok tt, st')
       /\ self st' = self st
       /\ steps_entered (events st') = [].
Proof.
  intros st. split; [reflexivity|].
  destruct (process_observation_complete_is_noop quiet_environment all_steps
              [] "Cam01" [] st st (example_exposure "b0" (Some "complete"))
              eq_refl eq_refl eq_refl eq_refl eq_refl)
    as (st' & evs & Hrun & Hself & _ & Hevs & Hsteps & _).
  exists st'. split; [exact Hrun|]. split; [exact Hself|].
  rewrite Hevs. cbn [events st only_camera set_self example_state].
  rewrite app_nil_r. exact Hsteps.
Defined.

(** A run that records the exposure marks it complete, and the run after it
    enters no step. *)
Lemma rerun_after_record_enters_no_step :
  let first := process_observation quiet_environment record_only (only_camera "Cam00") in
  let second := process_observation quiet_environment record_only (snd first) in
  fst first = Ok tt
  /\ steps_entered (events (snd first)) = [Record_]
  /\ fst second = Ok tt
  /\ self (snd second) = self (snd first)
  /\ steps_entered (events (snd second)) = [Record_].
Proof. vm_compute. repeat split; reflexivity. Qed.

(** C10. An exposure marked complete ends the whole method: the cameras
    after it in the registry are not processed in that call.  The outcome is
    the one of the run without them, their exposures are left as they were,
    and no step is entered once the complete exposure has been reached. *)
Theorem complete_exposure_ends_the_run
    env opts (pre : list string) cam_name (rest : list string) st st1 e :
  run_through env opts pre st = Some st1 ->
  latest_is cam_name st1 e ->
  has_required_fields (metadata e) = true ->
  marked_complete (metadata e) = true ->
  let out := process_cameras env opts (pre ++ cam_name :: rest) st in
  out = process_cameras env opts (pre ++ [cam_name]) st
  /\ fst out = Ok tt
  /\ self (snd out) = self st1
  /\ (forall other x, In other rest -> latest_is other st1 x -> latest_is other (snd out) x)
  /\ exists evs, events (snd out) = evs ++ events st1 /\ steps_entered evs = [].
Proof.
  intros Hpre He Hreq Hdone out. subst out.
  rewrite !(process_cameras_run_through _ _ _ _ _ _ Hpre).
  cbn [process_cameras]. unfold bind.
  rewrite (process_exposure_complete _ _ _ _ _ He Hreq Hdone).
  cbn [fst snd ret]. split_and!; try reflexivity.
  - intros other x _ Hx. eapply latest_is_self; [|exact Hx]. reflexivity.
  - exists [Logged DEBUG "has already been processed, skipping";
            Logged DEBUG "Processing observation with exposure"].
    split; reflexivity.
Qed.

Lemma complete_exposure_ends_the_run_example :
  let out := process_observation quiet_environment all_steps example_state in
  od_keys (cameras (self example_state)) = ["Cam00"; "Cam01"; "Cam02"]
  /\ marked_complete (metadata (example_exposure "c0" None)) = false
  /\ fst out = Ok tt
  /\ latest_is "Cam02" (snd out) (example_exposure "c0" None).
Proof.
  intros out.
  pose (st1 := snd (process_exposure quiet_environment all_steps "Cam00" example_state)).
  assert (run_through quiet_environment all_steps ["Cam00"] example_state = Some st1)
    as Hpre by (vm_compute; reflexivity).
  assert (latest_is "Cam01" st1 (example_exposure "b0" (Some "complete")))
    as He by (vm_compute; reflexivity).
  assert (latest_is "Cam02" st1 (example_exposure "c0" None))
    as Hc by (vm_compute; reflexivity).
  destruct (complete_exposure_ends_the_run quiet_environment all_steps
              ["Cam00"] "Cam01" ["Cam02"] example_state st1
              (example_exposure "b0" (Some "complete"))
              Hpre He eq_refl eq_refl)
    as (_ & Hok & _ & Hrest & _).
  split; [reflexivity|]. split; [reflexivity|]. split; [exact Hok|].
  exact (Hrest "Cam02" (example_exposure "c0" None) (or_introl eq_refl) Hc).
Defined.

(** C3, as amended.  For every exposure that has the required fields and is
    not marked complete: when the solve, pretty-image or upload step
    raises, the exception is caught and logged as a warning, every enabled
    step is still entered in order, and the loop goes on to the next
    camera.  ([fpack] and the database are taken to answer.) *)
Theorem guarded_steps_do_not_abort env opts cam_name (rest : list string) st e :
  latest_is cam_name st e ->
  has_required_fields (metadata e) = true ->
  marked_complete (metadata e) = false ->
  (step_enabled env opts Compress = true -> forall p, is_return (fpack env p)) ->
  (step_enabled env opts Record_ = true ->
   forall d, is_return (insert_current env "observations" d)) ->
  exists st' evs,
    process_exposure env opts cam_name st = (Ok Continue, st')
    /\ process_cameras env opts (cam_name :: rest) st = process_cameras env opts rest st'
    /\ events st' = evs ++ events st
    /\ steps_entered evs = enabled_steps env opts
    /\ (step_enabled env opts Solve = true ->
        (forall p, is_raise (get_solve_field env p)) ->
        In (Logged WARNING "Problem solving") evs)
    /\ (step_enabled env opts Pretty = true ->
        (forall c, is_raise (start_process env c)) ->
        In (Logged WARNING "Problem with extracting pretty image") evs)
    /\ (step_enabled env opts Upload = true ->
        (forall c, is_raise (start_process env c)) ->
        In (Logged WARNING "Problem uploading exposure") evs).
Proof.
  intros He Hreq Hpending Hfpack Hins.
  destruct (process_exposure_pending env opts cam_name st e He Hreq Hpending Hfpack Hins)
    as (st' & evs & Hrun & Hrest).
  exists st', evs. split; [exact Hrun|].
  split; [exact (process_cameras_cons_continue _ _ _ _ _ _ Hrun)|exact Hrest].
Qed.

Lemma guarded_steps_do_not_abort_example :
  let env := failing_solve_environment in
  let st := only_camera "Cam00" in
  is_raise (get_solve_field env (VStr "/images/a0.fits"))
  /\ exists st' evs,
       process_observation env all_steps st = (Ok tt, st')
       /\ events st' = evs ++ events st
       /\ steps_entered evs = [Solve; Compress; Record_; Pretty; Upload]
       /\ In (Logged WARNING "Problem solving") evs.
Proof.
  intros env st. split; [exact I|].
  destruct (guarded_steps_do_not_abort env all_steps "Cam00" [] st
              (example_exposure "a0" None) eq_refl eq_refl eq_refl
              (fun _ _ => I) (fun _ _ => I))
    as (st' & evs & _ & Hrun & Hevs & Hsteps & Hsolve & _).
  exists st', evs. split; [exact Hrun|]. split; [exact Hevs|].
  split; [exact Hsteps|]. apply Hsolve; [reflexivity|]. intros p. exact I.
Defined.

(** C3, on the code.  All five steps are enabled and [fpack] raises: the
    exception leaves [process_observation], and the record, pretty-image
    and upload steps are not entered. *)
Lemma compress_failure_aborts_the_run :
  let env := failing_fpack_environment in
  let out := process_observation env all_steps (only_camera "Cam00") in
  has_required_fields (metadata (example_exposure "a0" None)) = true
  /\ marked_complete (metadata (example_exposure "a0" None)) = false
  /\ enabled_steps env all_steps = [Solve; Compress; Record_; Pretty; Upload]
  /\ fst out = Raise (Other "fpack failed")
  /\ steps_entered (events (snd out)) = [Solve; Compress].
Proof. vm_compute. split_and!; reflexivity. Qed.

End ProcessProperties.

(** ** base.py: collecting results, starting commands *)
Section CommandChannelProperties.
Import GPhoto PropertyStore.

Lemma killed_at_cons_le (h t : nat) (ks : list (nat * nat)) :
  exists t', killed_at h ((h, t) :: ks) = Some t' /\ (t' <= t)%nat.
Proof.
  cbn [killed_at]. rewrite Nat.eqb_refl.
  destruct (killed_at h ks) as [k|]; eexists; split; try reflexivity; lia.
Qed.

Lemma ended_at_after_kill (p : process) (w : world) :
  exists e, ended_at (kill p w) p = Some e /\ (e <= now w)%nat.
Proof.
  unfold ended_at, kill. cbn [kills add_kill].
  destruct (killed_at_cons_le (handle p) (now w) (kills w)) as (k & -> & Hk).
  destruct (exits_at p) as [e|]; eexists; split; try reflexivity; lia.
Qed.

Lemma ended_at_kills (w1 w2 : world) (p : process) :
  kills w1 = kills w2 -> ended_at w1 p = ended_at w2 p.
Proof. unfold ended_at. intros ->. reflexivity. Qed.

(** X1. The process exits within the timeout: its whole output is returned,
    split into lines, the clock stands at the later of now and the exit,
    nothing is killed, and what the process wrote to its error stream is
    logged as an error without failing the call. *)
Theorem get_command_result_collects_finished
    (timeout : nat) (c : camera) (w : world) (p : process) (e : nat) :
  _command_proc c = Some p ->
  ended_at w p = Some e ->
  (e <= now w + timeout)%nat ->
  exists w',
    get_command_result timeout (c, w)
    = (Ok (Some (split_lines (stdout_by p e))), (set_command_proc None c, w'))
    /\ now w' = Nat.max (now w) e
    /\ kills w' = kills w
    /\ started w' = started w
    /\ log w' = (if String.eqb (stderr_by p e) ""
                 then []
                 else [Log ERROR ("gphoto2 error: " ++ stderr_by p e)])
                ++ Log TRACE "gphoto2 output" :: Log DEBUG "Getting output from proc" :: log w.
Proof.
  intros Hp He Hle. unfold get_command_result. rewrite Hp.
  unfold communicate at 1.
  change (ended_at (add_log _ w) p) with (ended_at w p). rewrite He.
  cbn [now add_log]. destruct (Nat.leb_spec e (now w + timeout)) as [_|Hgt]; [|lia].
  eexists. split; [reflexivity|].
  destruct (String.eqb (stderr_by p e) ""); cbn [now kills started log set_now add_log];
    split_and!; reflexivity.
Qed.

Lemma get_command_result_collects_finished_example :
  let st := snd (command (simple_environment (Some 3) "a.cr2") ["--capture-image"]
                   (new_camera None)) in
  exists w',
    get_command_result 10 st = (Ok (Some ["a.cr2"]), (set_command_proc None (fst st), w'))
    /\ now w' = 3%nat /\ kills w' = [].
Proof.
  intros st.
  pose (p := {| handle := 0; pid := 4242; run_cmd := ["/usr/bin/gphoto2"; "--capture-image"];
                exits_at := Some 3;
                stdout_by := fun _ => "a.cr2"; stderr_by := fun _ => "" |}).
  destruct (get_command_result_collects_finished 10 (fst st) (snd st) p 3 eq_refl eq_refl
              ltac:(cbn; lia))
    as (w' & Hres & Hnow & Hkills & _).
  exists w'. split; [exact Hres|]. split; [exact Hnow|exact Hkills].
Defined.

(** What [get_command_result] does when a command is in flight. *)
Lemma get_command_result_some
    (timeout : nat) (c : camera) (w : world) (p : process) :
  _command_proc c = Some p ->
  exists lines w',
    get_command_result timeout (c, w) = (Ok (Some lines), (set_command_proc None c, w'))
    /\ (exists e, lines = split_lines (stdout_by p e) /\ (e <= now w + timeout)%nat)
    /\ (now w <= now w' <= now w + timeout)%nat
    /\ started w' = started w
    /\ poll w' p = Some 0%nat.
Proof.
  intros Hp. unfold get_command_result. rewrite Hp.
  unfold communicate at 1.
  change (ended_at (add_log _ w) p) with (ended_at w p).
  cbn [now add_log].
  destruct (ended_at w p) as [e|] eqn:He;
    [destruct (Nat.leb_spec e (now w + timeout)) as [Hin|Hout]|].
  - eexists _, _. split; [reflexivity|].
    destruct (String.eqb _ _); cbn [now started set_now add_log];
      (split_and!; [exists e; split; [reflexivity|lia]|lia|lia|reflexivity|]);
      unfold poll; rewrite (ended_at_kills _ w) by reflexivity;
      rewrite He; cbn [now set_now add_log];
      (destruct (Nat.leb_spec e (Nat.max (now w) e)); [reflexivity|lia]).
  - set (w1 := add_log _ (set_now _ _)).
    destruct (ended_at_after_kill p w1) as (k & Hk & Hle).
    unfold communicate. rewrite Hk.
    eexists _, _. split; [reflexivity|].
    assert (now w1 = now w + timeout)%nat as Hnow by reflexivity.
    assert (started w1 = started w) as Hstarted by reflexivity.
    destruct (String.eqb _ _); cbn [now started set_now add_log kill add_kill];
      rewrite Hnow, Hstarted;
      (split_and!; [exists k; split; [reflexivity|lia]|lia|lia|reflexivity|]);
      unfold poll; rewrite (ended_at_kills _ (kill p w1)) by reflexivity;
      rewrite Hk; cbn [now set_now add_log kill add_kill];
      (destruct (Nat.leb_spec k (Nat.max (now w + timeout) k)); [reflexivity|lia]).
  - set (w1 := add_log _ (set_now _ _)).
    destruct (ended_at_after_kill p w1) as (k & Hk & Hle).
    unfold communicate. rewrite Hk.
    eexists _, _. split; [reflexivity|].
    assert (now w1 = now w + timeout)%nat as Hnow by reflexivity.
    assert (started w1 = started w) as Hstarted by reflexivity.
    destruct (String.eqb _ _); cbn [now started set_now add_log kill add_kill];
      rewrite Hnow, Hstarted;
      (split_and!; [exists k; split; [reflexivity|lia]|lia|lia|reflexivity|]);
      unfold poll; rewrite (ended_at_kills _ (kill p w1)) by reflexivity;
      rewrite Hk; cbn [now set_now add_log kill add_kill];
      (destruct (Nat.leb_spec k (Nat.max (now w + timeout) k)); [reflexivity|lia]).
Qed.

(** X2. Whenever a command is in flight, [get_command_result] returns within
    the timeout the lines that the process had written by some time no later
    than that: it does not block longer and does not raise, and on return
    the process has ended, on its own or killed. *)
Theorem get_command_result_ends_the_process
    (timeout : nat) (c : camera) (w : world) (p : process) :
  _command_proc c = Some p ->
  exists lines w',
    get_command_result timeout (c, w) = (Ok (Some lines), (set_command_proc None c, w'))
    /\ (exists e, lines = split_lines (stdout_by p e) /\ (e <= now w + timeout)%nat)
    /\ (now w <= now w' <= now w + timeout)%nat
    /\ started w' = started w
    /\ poll w' p = Some 0%nat.
Proof.
  intros Hp.
  destruct (get_command_result_some timeout c w p Hp) as (lines & w' & H).
  exists lines, w'. exact H.
Qed.

Lemma get_command_result_ends_the_process_example :
  let st := snd (command (simple_environment None "") ["--capture-image"]
                   (new_camera None)) in
  exists lines w',
    get_command_result 10 st = (Ok (Some lines), (set_command_proc None (fst st), w'))
    /\ (now w' <= 10)%nat.
Proof.
  intros st.
  pose (p := {| handle := 0; pid := 4242; run_cmd := ["/usr/bin/gphoto2"; "--capture-image"];
                exits_at := None;
                stdout_by := fun _ => ""; stderr_by := fun _ => "" |}).
  destruct (get_command_result_ends_the_process 10 (fst st) (snd st) p eq_refl)
    as (lines & w' & Hres & _ & [_ Hle] & _ & _).
  exists lines, w'. split; [exact Hres|exact Hle].
Defined.

Lemma split_lines_nonempty (s : string) : split_lines s <> [].
Proof.
  induction s as [|a s IH]; cbn [split_lines]; [discriminate|].
  destruct (Ascii.eqb a "010"%char); [discriminate|].
  destruct (split_lines s); discriminate.
Qed.

(** X3. The lines that [get_command_result] returns are the output itself:
    joined again by newlines they give it back, none of them holds a
    newline, and there is one more line than there are newlines, so that
    the empty output is one empty line. *)
Theorem split_lines_joins_back (s : string) :
  String.concat newline (split_lines s) = s
  /\ Forall (fun line => newlines line = 0%nat) (split_lines s)
  /\ length (split_lines s) = S (newlines s).
Proof.
  induction s as [|a s (IHj & IHn & IHl)]; [repeat split; repeat constructor|].
  cbn [split_lines newlines].
  destruct (Ascii.eqb_spec a "010"%char) as [->|Hne].
  - split_and!.
    + pose proof (split_lines_nonempty s) as Hs.
      cbn [String.concat]. destruct (split_lines s) as [|l ls]; [contradiction|].
      rewrite IHj. reflexivity.
    + constructor; [reflexivity|exact IHn].
    + cbn [length]. rewrite IHl. reflexivity.
  - pose proof (split_lines_nonempty s) as Hs.
    destruct (split_lines s) as [|l ls]; [contradiction|].
    split_and!.
    + rewrite <- IHj. cbn [String.concat]. destruct ls; reflexivity.
    + inversion IHn; subst. constructor; [|assumption].
      cbn [newlines]. destruct (Ascii.eqb_spec a "010"%char); [contradiction|]. assumption.
    + cbn [length] in *. rewrite IHl. reflexivity.
Qed.

(** The ways in which [command] ends. *)
Lemma command_outcome
    (env : environment) (cmd : list string) (st : state) :
  let out := command env cmd st in
  match fst out with
  | Ok _ =>
      exists p exe,
        which_gphoto2 env = Some exe
        /\ run_cmd p = exe :: match port (fst st) with
                              | Some prt => ["--port"; prt]
                              | None => []
                              end ++ cmd
        /\ _command_proc (fst (snd out)) = Some p
        /\ started (snd (snd out)) = p :: started (snd st)
        /\ now (snd (snd out)) = now (snd st)
  | Raise (InvalidCommand _) | Raise (PanError _) =>
      _command_proc (fst (snd out)) = _command_proc (fst st)
      /\ started (snd (snd out)) = started (snd st)
      /\ now (snd (snd out)) = now (snd st)
  | _ => False
  end.
Proof.
  destruct st as [c w]. unfold command, is_exposing.
  assert (forall c', (c' = c \/ c' = clear_is_exposing_event c) ->
            _command_proc c' = _command_proc c /\ port c' = port c) as Hc
    by (intros c' [->| ->]; split; reflexivity).
  set (c' := match _command_proc c with
             | Some p => match poll w p with
                         | Some _ => clear_is_exposing_event c
                         | None => c
                         end
             | None => c
             end).
  assert (c' = c \/ c' = clear_is_exposing_event c) as Hc'.
  { subst c'. destruct (_command_proc c) as [p|]; [destruct (poll w p)|]; auto. }
  destruct (Hc c' Hc') as [Hproc Hport]. clearbody c'.
  destruct (_is_exposing_event c'); cbn [fst snd]; [auto|].
  destruct (which_gphoto2 env) as [exe|]; cbn [fst snd]; [|auto].
  destruct (popen env _ _); cbn [fst snd started add_started add_log now]; auto.
  match goal with |- context [set_command_proc (Some ?q)] => exists q, exe end.
  rewrite Hport. cbn [run_cmd]. split_and!; reflexivity.
Qed.

(** X4. A call of [command] ends in one of three ways.  It returns, and then
    one process has been started, on the command line made of the
    executable, the port when there is one, and the arguments, and it is the
    one in the slot; the call has not waited.  Or it raises
    [InvalidCommand] or [PanError], and then no process has been started and
    the slot holds what it held.  Nothing else leaves the call. *)
Theorem command_starts_one_process_or_none
    (env : environment) (cmd : list string) (st : state) :
  let out := command env cmd st in
  match fst out with
  | Ok _ =>
      exists p exe,
        which_gphoto2 env = Some exe
        /\ run_cmd p = exe :: match port (fst st) with
                              | Some prt => ["--port"; prt]
                              | None => []
                              end ++ cmd
        /\ _command_proc (fst (snd out)) = Some p
        /\ started (snd (snd out)) = p :: started (snd st)
        /\ now (snd (snd out)) = now (snd st)
  | Raise (InvalidCommand _) | Raise (PanError _) =>
      _command_proc (fst (snd out)) = _command_proc (fst st)
      /\ started (snd (snd out)) = started (snd st)
      /\ now (snd (snd out)) = now (snd st)
  | _ => False
  end.
Proof.
  intros out. subst out.
  pose proof (command_outcome env cmd st) as H. cbv zeta in H.
  destruct (fst (command env cmd st)) as [u|e|]; exact H.
Qed.

(** X5. [is_exposing] can be asked again and again: the second reading in a
    row gives the first answer and changes nothing more.  Once the process
    in the slot has exited the answer is no, whatever the event said. *)
Theorem is_exposing_settles (st : state) :
  is_exposing (snd (is_exposing st)) = is_exposing st
  /\ (forall p, _command_proc (fst st) = Some p ->
                is_Some (poll (snd st) p) -> fst (is_exposing st) = false).
Proof.
  destruct st as [[prt proc ev] w]. unfold is_exposing. cbn [fst snd _command_proc].
  split.
  - destruct proc as [p|]; [|reflexivity].
    destruct (poll w p) eqn:Hpoll; cbn [_command_proc clear_is_exposing_event];
      rewrite Hpoll; reflexivity.
  - intros p -> [x ->]. reflexivity.
Qed.

Lemma is_exposing_settles_example :
  let st := snd (command (simple_environment (Some 0) "") [] (new_camera None)) in
  let st := ({| port := None; _command_proc := _command_proc (fst st);
                _is_exposing_event := true |}, snd st) in
  fst (is_exposing st) = false.
Proof.
  intros st0 st.
  pose (p := {| handle := 0; pid := 4242; run_cmd := ["/usr/bin/gphoto2"];
                exits_at := Some 0;
                stdout_by := fun _ => ""; stderr_by := fun _ => "" |}).
  exact (proj2 (is_exposing_settles st) p eq_refl (ex_intro _ 0%nat eq_refl)).
Defined.

End CommandChannelProperties.

(** ** base.py: the property commands *)
Section PropertyStoreProperties.
Import GPhoto PropertyStore.

(** A command followed by the collection of its result. *)
Lemma command_then_result {A} (env : environment) (cmd : list string)
    (k : option (list string) -> G A) (st : state) :
  (forall lines st', fst (k (Some lines) st') <> Diverge
                     /\ (forall e, fst (k (Some lines) st') = Raise e -> False)
                     /\ snd (k (Some lines) st') = st') ->
  runs_one_command st
    (gbind (command env cmd) (fun _ => gbind (get_command_result default_timeout) k) st).
Proof.
  intros Hk. unfold runs_one_command, gbind.
  pose proof (command_outcome env cmd st) as Hcmd. cbv zeta in Hcmd.
  destruct (command env cmd st) as [[[]|e|] [c1 w1]]; cbn [fst snd] in *;
    [|exact Hcmd..].
  destruct Hcmd as (p & exe & _ & _ & Hp & Hstarted & Hnow1).
  destruct (get_command_result_some default_timeout c1 w1 p Hp)
    as (lines & w' & -> & _ & Hnow & Hst & Hpoll).
  destruct (Hk lines (set_command_proc None c1, w')) as (Hd & Hr & Hs).
  destruct (k (Some lines) (set_command_proc None c1, w')) as [[a|e|] st2];
    cbn [fst snd] in *; [|destruct (Hr e eq_refl)|contradiction].
  subst st2. unfold settled. cbn [fst snd _command_proc set_command_proc].
  split; [reflexivity|]. split.
  - exists p. rewrite Hst. split; [exact Hstarted|exact Hpoll].
  - rewrite <- Hnow1. exact Hnow.
Qed.

(** X6. [set_property], [set_properties] and [get_property] each run one
    command to its end.  When the call returns, the slot is empty, the one
    process it started has ended, and no more than the default timeout of
    10 has passed.  When it raises, [InvalidCommand] or [PanError], nothing
    was started.  Nothing else leaves the call. *)
Theorem property_commands_run_to_the_end (env : environment) (st : state) :
  (forall prop val, runs_one_command st (set_property env prop val st))
  /\ (forall prop2index prop2value,
        runs_one_command st (set_properties env prop2index prop2value st))
  /\ (forall prop, runs_one_command st (get_property env prop st)).
Proof.
  split_and!; intros; apply command_then_result; intros lines st';
    cbn [fst snd]; split_and!; discriminate || reflexivity.
Qed.

(** The argument lists that the loops of [set_properties] build. *)
Lemma index_settings_flat_map (prop2index : option (list (string * Z))) :
  index_settings prop2index
  = flat_map (fun kv => ["--set-config-index"; (fst kv ++ "=" ++ pretty (snd kv))%string])
             (items prop2index).
Proof.
  assert (forall l acc,
            fold_left (fun set_cmd (kv : string * Z) =>
                         set_cmd ++ ["--set-config-index";
                                     (fst kv ++ "=" ++ pretty (snd kv))%string]) l acc
            = acc ++ flat_map (fun kv => ["--set-config-index";
                                          (fst kv ++ "=" ++ pretty (snd kv))%string]) l) as H.
  { induction l as [|kv l IH]; intros acc; cbn [fold_left flat_map].
    - rewrite app_nil_r. reflexivity.
    - rewrite IH, <- app_assoc. reflexivity. }
  destruct prop2index as [[|kv l]|]; cbn [index_settings items]; try reflexivity.
  rewrite H. reflexivity.
Qed.

Lemma value_settings_flat_map (set_cmd : list string)
    (prop2value : option (list (string * string))) :
  value_settings set_cmd prop2value
  = set_cmd
    ++ flat_map (fun kv => ["--set-config-value";
                            (fst kv ++ "=" ++ dquote ++ snd kv ++ dquote)%string])
                (items prop2value).
Proof.
  assert (forall l acc,
            fold_left (fun set_cmd (kv : string * string) =>
                         set_cmd ++ ["--set-config-value";
                                     (fst kv ++ "=" ++ dquote ++ snd kv ++ dquote)%string])
                      l acc
            = acc ++ flat_map (fun kv => ["--set-config-value";
                                          (fst kv ++ "=" ++ dquote ++ snd kv ++ dquote)%string])
                              l) as H.
  { induction l as [|kv l IH]; intros acc; cbn [fold_left flat_map].
    - rewrite app_nil_r. reflexivity.
    - rewrite IH, <- app_assoc. reflexivity. }
  destruct prop2value as [[|kv l]|]; cbn [value_settings items];
    rewrite ?app_nil_r; try reflexivity.
  rewrite H. reflexivity.
Qed.

(** What a command followed by the collection of its result returns, in an
    environment where commands start. *)
Lemma command_then_answer (env : environment) (cmd : list string) (st : state)
    (reply : list string -> string) :
  answers env reply ->
  fst (is_exposing st) = false ->
  exists p exe st1 st2,
    which_gphoto2 env = Some exe
    /\ command env cmd st = (Ok tt, st1)
    /\ get_command_result default_timeout st1
       = (Ok (Some (split_lines (reply (run_cmd p)))), st2)
    /\ run_cmd p = exe :: match port (fst st) with
                          | Some prt => ["--port"; prt]
                          | None => []
                          end ++ cmd
    /\ started (snd st2) = p :: started (snd st)
    /\ fst st2 = {| port := port (fst st); _command_proc := None;
                    _is_exposing_event := false |}
    /\ poll (snd st2) p = Some 0%nat
    /\ (now (snd st) <= now (snd st2))%nat.
Proof.
  intros [[exe Hexe] Hpopen] Hidle.
  pose proof (command_outcome env cmd st) as Hcmd. cbv zeta in Hcmd.
  assert (exists st1, command env cmd st = (Ok tt, st1)) as [[c1 w1] Hrun].
  { unfold command. destruct (is_exposing st) as [b [c w]]. cbn [fst] in Hidle. subst b.
    rewrite Hexe.
    match goal with |- context [popen env ?l ?t] =>
      destruct (Hpopen l t) as (pid & exits & err & ->) end.
    eauto. }
  rewrite Hrun in Hcmd. cbn [fst snd] in Hcmd.
  destruct Hcmd as (p & exe' & Hexe' & Hcmdline & Hp & Hstarted & Hnow).
  assert (stdout_by p = fun _ => reply (run_cmd p)) as Hout.
  { unfold command in Hrun. destruct (is_exposing st) as [b [c w]].
    cbn [fst] in Hidle. subst b. rewrite Hexe in Hrun.
    match type of Hrun with context [popen env ?l ?t] =>
      destruct (Hpopen l t) as (pid & exits & err & Hstart); rewrite Hstart in Hrun end.
    injection Hrun as <- <-. cbn [_command_proc set_command_proc] in Hp.
    injection Hp as <-. reflexivity. }
  destruct (get_command_result_some default_timeout c1 w1 p Hp)
    as (lines & w' & Hres & (e & -> & _) & Hbounds & Hst & Hpoll).
  rewrite Hout in Hres.
  exists p, exe', (c1, w1), (set_command_proc None c1, w').
  split_and!; auto.
  - cbn [snd]. rewrite Hst. exact Hstarted.
  - cbn [fst]. unfold command in Hrun. destruct st as [c w]. unfold is_exposing in *.
    cbn [fst snd] in *.
    set (c' := match _command_proc c with
               | Some p => match poll w p with
                           | Some _ => clear_is_exposing_event c
                           | None => c
                           end
               | None => c
               end) in *.
    assert (port c' = port c) as Hport.
    { subst c'. destruct (_command_proc c) as [q|]; [destruct (poll w q)|]; reflexivity. }
    clearbody c'. rewrite Hidle, Hexe in Hrun.
    match type of Hrun with context [popen env ?l ?t] =>
      destruct (Hpopen l t) as (pid & exits & err & Hstart); rewrite Hstart in Hrun end.
    injection Hrun as <- _. unfold set_command_proc. cbn [port _is_exposing_event].
    rewrite Hidle, Hport. reflexivity.
  - cbn [snd] in *. lia.
Qed.

Lemma command_then_lines (env : environment) (cmd : list string) (st : state) (text : string) :
  prints env text ->
  fst (is_exposing st) = false ->
  exists p exe st1 st2,
    which_gphoto2 env = Some exe
    /\ command env cmd st = (Ok tt, st1)
    /\ get_command_result default_timeout st1 = (Ok (Some (split_lines text)), st2)
    /\ run_cmd p = exe :: match port (fst st) with
                          | Some prt => ["--port"; prt]
                          | None => []
                          end ++ cmd
    /\ started (snd st2) = p :: started (snd st)
    /\ fst st2 = {| port := port (fst st); _command_proc := None;
                    _is_exposing_event := false |}
    /\ poll (snd st2) p = Some 0%nat
    /\ (now (snd st) <= now (snd st2))%nat.
Proof.
  intros Hprints Hidle.
  exact (command_then_answer env cmd st (fun _ => text) Hprints Hidle).
Qed.

(** [get_property] and [set_properties] as single steps, where commands
    start: the process has ended when the call returns. *)
Lemma get_property_answer (env : environment) (prop : string) (st : state)
    (reply : list string -> string) :
  answers env reply ->
  fst (is_exposing st) = false ->
  exists p exe st2,
    which_gphoto2 env = Some exe
    /\ get_property env prop st
       = (Ok (last_current (split_lines (reply (run_cmd p)))), st2)
    /\ run_cmd p = exe :: match port (fst st) with
                          | Some prt => ["--port"; prt]
                          | None => []
                          end ++ ["--get-config"; prop]
    /\ started (snd st2) = p :: started (snd st)
    /\ fst st2 = {| port := port (fst st); _command_proc := None;
                    _is_exposing_event := false |}
    /\ poll (snd st2) p = Some 0%nat
    /\ (now (snd st) <= now (snd st2))%nat.
Proof.
  intros Hanswers Hidle.
  destruct (command_then_answer env ["--get-config"; prop] st reply Hanswers Hidle)
    as (p & exe & st1 & st2 & Hexe & Hcmd & Hres & Hline & Hstarted & Hcam & Hpoll & Hnow).
  exists p, exe, st2. unfold get_property, gbind. rewrite Hcmd, Hres. auto 10.
Qed.

Lemma set_properties_answer (env : environment)
    (prop2index : option (list (string * Z))) (prop2value : option (list (string * string)))
    (st : state) (reply : list string -> string) :
  answers env reply ->
  fst (is_exposing st) = false ->
  exists p exe st2,
    which_gphoto2 env = Some exe
    /\ set_properties env prop2index prop2value st = (Ok tt, st2)
    /\ run_cmd p = exe :: match port (fst st) with
                          | Some prt => ["--port"; prt]
                          | None => []
                          end ++ value_settings (index_settings prop2index) prop2value
    /\ started (snd st2) = p :: started (snd st)
    /\ fst st2 = {| port := port (fst st); _command_proc := None;
                    _is_exposing_event := false |}
    /\ poll (snd st2) p = Some 0%nat
    /\ (now (snd st) <= now (snd st2))%nat.
Proof.
  intros Hanswers Hidle.
  destruct (command_then_answer env (value_settings (index_settings prop2index) prop2value)
              st reply Hanswers Hidle)
    as (p & exe & st1 & st2 & Hexe & Hcmd & Hres & Hline & Hstarted & Hcam & Hpoll & Hnow).
  exists p, exe, st2. unfold set_properties, gbind. rewrite Hcmd, Hres. auto 10.
Qed.

(** X7. Where commands start and print [text], [get_property] returns the
    group of the last line of [text] that starts with [Current:]. *)
Theorem get_property_reads_the_output
    (env : environment) (prop : string) (st : state) (text : string) :
  prints env text ->
  fst (is_exposing st) = false ->
  fst (get_property env prop st) = Ok (last_current (split_lines text)).
Proof.
  intros Hprints Hidle.
  destruct (command_then_lines env ["--get-config"; prop] st text Hprints Hidle)
    as (p & exe & st1 & st2 & _ & Hcmd & Hres & _ & _ & _).
  unfold get_property, gbind. rewrite Hcmd, Hres. reflexivity.
Qed.

Lemma get_property_reads_the_output_example :
  let text := String.concat newline ["Label: Serial Number"; "Type: TEXT";
                                     "Current: 0123456789"; "END"] in
  fst (get_property (simple_environment (Some 1) text) "serialnumber" (new_camera None))
  = Ok "0123456789".
Proof.
  intros text.
  assert (prints (simple_environment (Some 1) text) text) as Hprints.
  { split; [eexists; reflexivity|]. intros cmdline t. eexists _, _, _. reflexivity. }
  exact (get_property_reads_the_output _ "serialnumber" (new_camera None) text
           Hprints eq_refl).
Defined.

Lemma last_current_app (lines : list string) (line : string) :
  last_current (lines ++ [line])
  = match match_label "Current:" line with
    | Some group => group
    | None => last_current lines
    end.
Proof. unfold last_current. rewrite fold_left_app. reflexivity. Qed.

Lemma last_current_no_match (output : string) (lines : list string) :
  Forall (fun line => match_label "Current:" line = None) lines ->
  fold_left (fun output line =>
               match match_label "Current:" line with
               | Some group => group
               | None => output
               end) lines output = output.
Proof.
  intros H. revert output. induction H as [|line lines Hline _ IH]; intros output;
    cbn [fold_left]; [reflexivity|]. rewrite Hline. apply IH.
Qed.

Lemma skip_spaces_app (spaces v : string) :
  forallb is_space (list_ascii_of_string spaces) = true ->
  skip_spaces (spaces ++ v) = skip_spaces v.
Proof.
  induction spaces as [|a spaces IH]; cbn [list_ascii_of_string forallb]; [reflexivity|].
  intros [Ha Hs]%andb_true_iff.
  change (String a spaces ++ v)%string with (String a (spaces ++ v)%string).
  cbn [skip_spaces]. rewrite Ha. exact (IH Hs).
Qed.

Lemma rest_of_line_id (v : string) : newlines v = 0%nat -> rest_of_line v = v.
Proof.
  induction v as [|a v IH]; cbn [newlines rest_of_line]; [reflexivity|].
  destruct (Ascii.eqb a "010"%char); [discriminate|]. intros H. rewrite (IH H). reflexivity.
Qed.

Lemma match_label_app (label rest : string) :
  match_label label (label ++ rest) = Some (rest_of_line (skip_spaces rest)).
Proof.
  unfold match_label.
  assert (String.prefix label (label ++ rest) = true) as ->.
  { induction label as [|a label IH].
    - change (EmptyString ++ rest)%string with rest. destruct rest; reflexivity.
    - change (String a label ++ rest)%string with (String a (label ++ rest)%string).
      cbn [String.prefix]. destruct (ascii_dec a a); [exact IH|contradiction]. }
  assert (String.substring (String.length label)
            (String.length (label ++ rest) - String.length label) (label ++ rest) = rest) as ->.
  { induction label as [|a label IH].
    - change (EmptyString ++ rest)%string with rest. cbn [String.length].
      rewrite Nat.sub_0_r. clear. induction rest as [|b rest IHr];
        cbn [String.length String.substring]; [reflexivity|]. rewrite IHr. reflexivity.
    - change (String a label ++ rest)%string with (String a (label ++ rest)%string).
      cbn [String.length String.substring Nat.sub]. exact IH. }
  reflexivity.
Qed.

(** X8. The value that [get_property] reads is that of the last [Current:]
    line: the lines after it that do not start with [Current:] do not count,
    and without any such line the value is empty.  A line made of
    [Current:], white space and a value that has no newline and does not
    start with white space gives back that value. *)
Theorem last_current_is_the_last_match :
  (forall lines, Forall (fun line => match_label "Current:" line = None) lines ->
                 last_current lines = EmptyString)
  /\ (forall before line after group,
        match_label "Current:" line = Some group ->
        Forall (fun line => match_label "Current:" line = None) after ->
        last_current (before ++ line :: after) = group)
  /\ (forall spaces v,
        forallb is_space (list_ascii_of_string spaces) = true ->
        skip_spaces v = v -> newlines v = 0%nat ->
        match_label "Current:" ("Current:" ++ spaces ++ v) = Some v).
Proof.
  split_and!.
  - intros lines H. exact (last_current_no_match _ lines H).
  - intros before line after group Hline Hafter.
    unfold last_current. rewrite fold_left_app. cbn [fold_left]. rewrite Hline.
    exact (last_current_no_match _ after Hafter).
  - intros spaces v Hspaces Hv Hnl.
    rewrite match_label_app, (skip_spaces_app _ _ Hspaces), Hv, (rest_of_line_id _ Hnl).
    reflexivity.
Qed.

Lemma last_current_is_the_last_match_example :
  last_current ["Label: ISO Speed"; "Current: 100"; "Choice: 0 Auto"; "END"] = "100".
Proof.
  apply (proj1 (proj2 last_current_is_the_last_match)
           ["Label: ISO Speed"] "Current: 100" ["Choice: 0 Auto"; "END"] "100").
  - reflexivity.
  - repeat constructor.
Defined.

(** X9. [set_properties] sends all its settings in one command: when it
    returns, exactly one process has been started, and its command line is
    the executable, the port when there is one, then two arguments for each
    index setting, in the order of the dict, and after them two arguments
    for each value setting. *)
Theorem set_properties_is_one_batch
    (env : environment) (prop2index : option (list (string * Z)))
    (prop2value : option (list (string * string))) (st : state) (text : string) :
  prints env text ->
  fst (is_exposing st) = false ->
  let out := set_properties env prop2index prop2value st in
  let arguments :=
    flat_map (fun kv => ["--set-config-index"; (fst kv ++ "=" ++ pretty (snd kv))%string])
             (items prop2index)
    ++ flat_map (fun kv => ["--set-config-value";
                            (fst kv ++ "=" ++ dquote ++ snd kv ++ dquote)%string])
                (items prop2value) in
  fst out = Ok tt
  /\ length arguments = (2 * (length (items prop2index) + length (items prop2value)))%nat
  /\ exists p exe,
       which_gphoto2 env = Some exe
       /\ started (snd (snd out)) = p :: started (snd st)
       /\ run_cmd p = exe :: match port (fst st) with
                             | Some prt => ["--port"; prt]
                             | None => []
                             end ++ arguments.
Proof.
  intros Hprints Hidle out arguments. subst out.
  destruct (command_then_lines env
              (value_settings (index_settings prop2index) prop2value) st text Hprints Hidle)
    as (p & exe & st1 & st2 & Hexe & Hcmd & Hres & Hline & Hstarted & _).
  unfold set_properties, gbind. rewrite Hcmd, Hres. cbn [fst snd].
  split; [reflexivity|]. split.
  - subst arguments. rewrite length_app.
    assert (forall A (f : A -> list string) l,
              (forall a, length (f a) = 2%nat) -> length (flat_map f l) = (2 * length l)%nat) as H.
    { intros A f l Hf. induction l as [|a l IH]; cbn [flat_map length]; [reflexivity|].
      rewrite length_app, Hf, IH. lia. }
    rewrite !H by reflexivity. lia.
  - exists p, exe. split; [exact Hexe|]. split; [exact Hstarted|].
    rewrite Hline, value_settings_flat_map, index_settings_flat_map. reflexivity.
Qed.

Lemma set_properties_is_one_batch_example :
  let out := set_properties (simple_environment (Some 1) "")
               (Some [("/main/imgsettings/iso", 1%Z)]) (Some [("artist", "PANOPTES")])
               (new_camera None) in
  fst out = Ok tt /\ length (started (snd (snd out))) = 1%nat.
Proof.
  intros out.
  assert (prints (simple_environment (Some 1) "") "") as Hprints.
  { split; [eexists; reflexivity|]. intros cmdline t. eexists _, _, _. reflexivity. }
  destruct (set_properties_is_one_batch _ (Some [("/main/imgsettings/iso", 1%Z)])
              (Some [("artist", "PANOPTES")]) (new_camera None) "" Hprints eq_refl)
    as (Hok & _ & p & exe & _ & Hstarted & _).
  split; [exact Hok|]. subst out. rewrite Hstarted. reflexivity.
Defined.

End PropertyStoreProperties.

(** ** canon.py: indices, the exposure command, the connection *)
Section CanonCameraProperties.
Import Canon GPhoto PropertyStore CanonCamera.

Lemma index_from_lt (n : nat) (l : list py_value) (x : py_value) (i : nat) :
  index_from n l x = Some i -> (n <= i < n + length l)%nat.
Proof.
  revert n. induction l as [|y l IH]; intros n; cbn [index_from length]; [discriminate|].
  destruct (py_eq y x).
  - intros [= <-]. lia.
  - intros H. apply IH in H. lia.
Qed.

(** The outcomes of [get_shutterspeed_index], for any value. *)
Lemma get_shutterspeed_index_cases (seconds : py_value) (return_minimum : bool) :
  (exists i, get_shutterspeed_index seconds return_minimum = Ok i
             /\ (i < length shutter_speeds)%nat
             /\ (return_minimum = false \/ is_request shutter_speeds seconds = true))
  \/ (get_shutterspeed_index seconds return_minimum = Raise TypeError
      /\ return_minimum = true /\ is_request shutter_speeds seconds = false).
Proof.
  destruct seconds as [s|x|].
  - unfold get_shutterspeed_index, get_shutterspeed_index_in, index.
    cbn [is_request].
    destruct (index_from 0 (keys shutter_speeds) (PyStr s)) as [i|] eqn:Hk.
    + left. exists i. split; [reflexivity|]. split.
      * apply index_from_lt in Hk. unfold keys in Hk. rewrite length_map in Hk. lia.
      * right. apply bool_decide_eq_true. eauto.
    + cbn [except_ValueError]. destruct return_minimum.
      * right. rewrite py_min_shutter_speeds. cbn [rbind py_lt except_ValueError].
        split; [reflexivity|]. split; [reflexivity|].
        apply bool_decide_eq_false. intros [i Hi]. discriminate.
      * left. cbn [rbind].
        destruct (index_from 0 (values shutter_speeds) (PyStr s)) as [i|] eqn:Hv.
        -- exists i. split; [reflexivity|]. split; [|left; reflexivity].
           apply index_from_lt in Hv. unfold values in Hv. rewrite length_map in Hv. lia.
        -- exists 0%nat. split; [reflexivity|]. split; [cbn; lia|left; reflexivity].
  - left. unfold get_shutterspeed_index.
    rewrite (resolve_num _ _ _ _ py_min_shutter_speeds).
    destruct (return_minimum && PrimFloat.ltb x (1 / 4000)).
    + eexists. split; [reflexivity|]. split; [cbn; lia|right; reflexivity].
    + destruct (index_from 0 (values shutter_speeds) (PyNum x)) as [i|] eqn:Hv.
      * exists i. split; [reflexivity|]. split; [|right; reflexivity].
        apply index_from_lt in Hv. unfold values in Hv. rewrite length_map in Hv. lia.
      * exists 0%nat. split; [reflexivity|]. split; [cbn; lia|right; reflexivity].
  - destruct return_minimum.
    + right. split_and!; [vm_compute|..]; reflexivity.
    + left. exists 0%nat. split; [vm_compute; reflexivity|].
      split; [cbn; lia|left; reflexivity].
Qed.

(** X10. Given a [str], a number or [None], [get_shutterspeed_index] returns
    an index of the table, below 53, or raises [TypeError]; and it raises
    exactly when [return_minimum] holds and the argument is neither a number
    nor a key of the table: a [str] that is no key, or [None], the default
    of [seconds] in [_start_exposure].  Without [return_minimum] it never
    raises. *)
Theorem get_shutterspeed_index_is_in_range (seconds : py_value) (return_minimum : bool) :
  match get_shutterspeed_index seconds return_minimum with
  | Ok i => (i < 53)%nat
            /\ (return_minimum = false \/ is_request shutter_speeds seconds = true)
  | Raise e => e = TypeError /\ return_minimum = true
               /\ is_request shutter_speeds seconds = false
  | Diverge => False
  end
  /\ get_shutterspeed_index PyNone true = Raise TypeError
  /\ get_shutterspeed_index PyNone false = Ok 0%nat.
Proof.
  split.
  - destruct (get_shutterspeed_index_cases seconds return_minimum)
      as [(i & -> & Hi & Hwhen)|(-> & Hrm & Hreq)].
    + split; [exact Hi|exact Hwhen].
    + auto.
  - split; vm_compute; reflexivity.
Qed.

Lemma nth_error_combine_seq {A} (l : list A) (i : nat) (x : A) (n : nat) :
  nth_error l i = Some x -> In ((n + i)%nat, x) (combine (seq n (length l)) l).
Proof.
  revert i n. induction l as [|y l IH]; intros [|i] n; cbn [nth_error]; try discriminate.
  - intros [= ->]. left. f_equal. lia.
  - intros H. right. replace (n + S i)%nat with (S n + i)%nat by lia. exact (IH i (S n) H).
Qed.

Lemma entries_resolve :
  forallb entry_resolves (combine (seq 0 (length shutter_speeds)) shutter_speeds) = true.
Proof. vm_compute. reflexivity. Qed.

Lemma entry_resolves_at (i : nat) (key : string) (value : py_value) (return_minimum : bool) :
  nth_error shutter_speeds i = Some (key, value) ->
  get_shutterspeed_index (PyStr key) return_minimum = Ok i
  /\ get_shutterspeed_index value return_minimum = Ok i.
Proof.
  intros H. apply (nth_error_combine_seq _ _ _ 0) in H.
  pose proof (proj1 (forallb_forall _ _) entries_resolve _ H) as Hall.
  cbn [Nat.add entry_resolves forallb] in Hall.
  apply andb_true_iff in Hall as [Htrue Hfalse]. apply andb_true_iff in Hfalse as [Hfalse _].
  destruct return_minimum.
  - destruct (get_shutterspeed_index (PyStr key) true) as [j| |]; try discriminate.
    destruct (get_shutterspeed_index value true) as [k| |]; try discriminate.
    apply andb_true_iff in Htrue as [->%Nat.eqb_eq ->%Nat.eqb_eq]. auto.
  - destruct (get_shutterspeed_index (PyStr key) false) as [j| |]; try discriminate.
    destruct (get_shutterspeed_index value false) as [k| |]; try discriminate.
    apply andb_true_iff in Hfalse as [->%Nat.eqb_eq ->%Nat.eqb_eq]. auto.
Qed.

(** X11. Every entry of the table is found again at its own index, by its
    key and by its value, with or without [return_minimum]: no two entries
    share a key or a value. *)
Theorem table_entries_resolve_to_their_index
    (i : nat) (key : string) (value : py_value) (return_minimum : bool) :
  nth_error shutter_speeds i = Some (key, value) ->
  get_shutterspeed_index (PyStr key) return_minimum = Ok i
  /\ get_shutterspeed_index value return_minimum = Ok i.
Proof.
  intros H. destruct (entry_resolves_at i key value return_minimum H) as [Hk Hv].
  split; [exact Hk|exact Hv].
Qed.

Lemma table_entries_resolve_to_their_index_example :
  get_shutterspeed_index (PyStr "1/4") true = Ok 22%nat
  /\ get_shutterspeed_index (PyNum (1 / 4)%float) true = Ok 22%nat.
Proof.
  exact (table_entries_resolve_to_their_index 22 "1/4" (PyNum (1 / 4)%float) true eq_refl).
Defined.

(** X12. A duration that is the value of a table entry other than bulb is
    exposed with that shutter speed: the command sets the index of the
    entry and ends with the capture and download, without a remote
    release. *)
Theorem table_duration_is_a_timed_capture
    (i : nat) (key : string) (seconds : float) (filename : string) (iso : Z) :
  nth_error shutter_speeds (S i) = Some (key, PyNum seconds) ->
  exposure_arguments seconds filename iso
  = Ok ["--set-config"; ("iso=" ++ pretty iso)%string;
        "--filename"; filename;
        "--set-config-index"; ("shutterspeed=" ++ pretty (S i))%string;
        "--wait-event=1s";
        "--capture-image-and-download"].
Proof.
  intros H. destruct (entry_resolves_at (S i) key (PyNum seconds) true H) as [_ Hv].
  unfold exposure_arguments. rewrite Hv. reflexivity.
Qed.

Lemma table_duration_is_a_timed_capture_example :
  exposure_arguments 30%float "field.cr2" 100
  = Ok ["--set-config"; "iso=100"; "--filename"; "field.cr2";
        "--set-config-index"; "shutterspeed=1"; "--wait-event=1s";
        "--capture-image-and-download"].
Proof.
  exact (table_duration_is_a_timed_capture 0 "30" 30%float "field.cr2" 100 eq_refl).
Defined.

Lemma digits2_pos_bound (m : positive) : (Z.pos m < 2 ^ Z.pos (digits2_pos m))%Z.
Proof.
  induction m as [m IH|m IH|]; cbn [digits2_pos]; [| |reflexivity];
    rewrite Pos2Z.inj_succ, Z.pow_succ_r by lia; lia.
Qed.

Lemma valid_mantissa_bound (s : bool) (m : positive) (e : Z) :
  valid_binary (S754_finite s m e) = true -> (Z.pos m < 2 ^ 53)%Z.
Proof.
  unfold valid_binary, bounded, canonical_mantissa, fexp, emin, prec, emax.
  intros [Hc _]%andb_true_iff. apply Z.eqb_eq in Hc.
  pose proof (digits2_pos_bound m) as Hd.
  assert (Z.pos (digits2_pos m) <= 53)%Z as Hle by lia.
  eapply Z.lt_le_trans; [exact Hd|]. apply Z.pow_le_mono_r; lia.
Qed.

(** [int] of a double from the shortest speed up to one second is zero. *)
Lemma py_int_below_one (x : float) :
  PrimFloat.leb (1 / 4000) x = true -> PrimFloat.ltb x 1 = true -> py_int x = Ok 0%Z.
Proof.
  rewrite FloatAxioms.leb_spec, FloatAxioms.ltb_spec. unfold py_int.
  pose proof (Prim2SF_valid x) as Hvalid.
  remember (Prim2SF (1 / 4000)) as shortest eqn:Hshortest. vm_compute in Hshortest.
  remember (Prim2SF 1) as one eqn:Hone. vm_compute in Hone. subst shortest one.
  destruct (Prim2SF x) as [s|s| |s m e]; cbn [SFleb SFltb SFcompare];
    try discriminate; try (destruct s; discriminate).
  destruct s; [discriminate|]. intros _ Hlt.
  apply valid_mantissa_bound in Hvalid.
  assert (e < 0 /\ Z.pos m < 2 ^ (- e))%Z as [He Hm].
  { destruct (Z.compare_spec e (-52)) as [Heq|He|He].
    - subst e. split; [reflexivity|].
      destruct (Pos.compare_cont Eq m _) eqn:Hc in Hlt; try discriminate Hlt.
      exact Hc.
    - split; [clear - He; lia|]. eapply Z.lt_le_trans; [exact Hvalid|].
      apply Z.pow_le_mono_r; clear - He; lia.
    - discriminate Hlt. }
  destruct (Z.leb_spec 0 e) as [Hpos|_]; [clear - He Hpos; lia|].
  rewrite Z.div_small; [reflexivity|]. split; [apply Pos2Z.is_nonneg|exact Hm].
Qed.

Lemma float_leb_not_ltb (m x : float) :
  PrimFloat.leb m x = true -> PrimFloat.ltb x m = false.
Proof.
  rewrite FloatAxioms.leb_spec, FloatAxioms.ltb_spec. unfold SFleb, SFltb.
  rewrite (SFcompare_antisym (Prim2SF m) (Prim2SF x)).
  destruct (SFcompare (Prim2SF m) (Prim2SF x)) as [[]|]; cbn; congruence.
Qed.

(** X13. A duration from 1/4000 s up to one second that is not the value of
    a table entry is exposed in bulb mode, and the shutter is held for
    [int(seconds)], that is for 0 seconds. *)
Theorem subsecond_bulb_is_held_for_zero_seconds
    (seconds : float) (filename : string) (iso : Z) :
  PrimFloat.leb (1 / 4000) seconds = true ->
  PrimFloat.ltb seconds 1 = true ->
  index_from 0 (values shutter_speeds) (PyNum seconds) = None ->
  exposure_arguments seconds filename iso
  = Ok ["--set-config"; ("iso=" ++ pretty iso)%string;
        "--filename"; filename;
        "--set-config-index"; "shutterspeed=0";
        "--wait-event=1s";
        "--set-config-index"; "eosremoterelease=2";
        "--wait-event=0s";
        "--set-config-index"; "eosremoterelease=4";
        "--wait-event-and-download=2s"].
Proof.
  intros Hmin Hone Hvalue. unfold exposure_arguments, get_shutterspeed_index.
  rewrite (resolve_num _ _ _ _ py_min_shutter_speeds), (float_leb_not_ltb _ _ Hmin), Hvalue.
  cbn [andb rbind Nat.eqb]. rewrite (py_int_below_one _ Hmin Hone). reflexivity.
Qed.

Lemma subsecond_bulb_is_held_for_zero_seconds_example :
  exists arguments,
    exposure_arguments 0.7%float "field.cr2" 100 = Ok arguments
    /\ In "--wait-event=0s" arguments.
Proof.
  eexists. split.
  - exact (subsecond_bulb_is_held_for_zero_seconds 0.7%float "field.cr2" 100
             eq_refl eq_refl eq_refl).
  - cbn. auto 12.
Defined.

(** X14. [_start_exposure] hands back the readout arguments, the file name
    and the header, when the command has started: one process runs, on the
    exposure command line.  When [command] raises [InvalidCommand] it hands
    back [None] instead: the message is logged as a warning and no process
    is started; that is so whenever the camera is exposing.  It never
    raises [InvalidCommand] itself. *)
Theorem start_exposure_hands_back_readout_or_none
    (env : environment) (seconds : float) (filename : string) (hdr : header) (iso : Z)
    (st : state) :
  let out := _start_exposure env seconds filename hdr iso st in
  match fst out with
  | Ok (Some readout_args) =>
      readout_args = (filename, hdr)
      /\ exists p cmd_args,
           exposure_arguments seconds filename iso = Ok cmd_args
           /\ started (snd (snd out)) = p :: started (snd st)
           /\ _command_proc (fst (snd out)) = Some p
           /\ exists front, run_cmd p = front ++ cmd_args
  | Ok None =>
      started (snd (snd out)) = started (snd st)
      /\ _command_proc (fst (snd out)) = _command_proc (fst st)
      /\ exists msg rest, log (snd (snd out)) = Log WARNING msg :: rest
  | Raise e =>
      (forall msg, e <> InvalidCommand msg)
      /\ started (snd (snd out)) = started (snd st)
  | Diverge => False
  end
  /\ (fst (is_exposing st) = true ->
      is_Some (which_gphoto2 env) ->
      fst out = Ok None \/ exists e, exposure_arguments seconds filename iso = Raise e).
Proof.
  intros out. subst out. unfold _start_exposure.
  destruct (exposure_arguments seconds filename iso) as [cmd_args|e|] eqn:Hargs.
  - pose proof (command_outcome env cmd_args st) as Hcmd. cbv zeta in Hcmd.
    split.
    + destruct (command env cmd_args st) as [[[]|e|] [c w]]; cbn [fst snd] in *.
      * destruct Hcmd as (p & exe & _ & Hline & Hp & Hstarted & _).
        split; [reflexivity|]. exists p, cmd_args. split_and!; auto.
        rewrite Hline. eexists (_ :: _). rewrite app_comm_cons. reflexivity.
      * destruct e; cbn [fst snd]; try contradiction.
        -- destruct Hcmd as (Hp & Hstarted & _). split_and!; eauto.
        -- destruct Hcmd as (Hp & Hstarted & _). split; [discriminate|exact Hstarted].
      * contradiction.
    + intros Hexp _. left.
      rewrite (command_rejected_while_exposing env cmd_args st Hexp).
      destruct st. reflexivity.
  - split.
    + cbn [fst snd]. split; [|reflexivity]. intros msg ->.
      unfold exposure_arguments in Hargs.
      pose proof (get_shutterspeed_index_cases (PyNum seconds) true) as Hidx.
      destruct (get_shutterspeed_index (PyNum seconds) true) as [i| |] eqn:Hi;
        cbn [rbind] in Hargs.
      * destruct (Nat.eqb i 0); [|discriminate].
        unfold py_int in Hargs. destruct (Prim2SF seconds) as [| | |[] ? ?];
          cbn [rbind] in Hargs; discriminate.
      * destruct Hidx as [(i & Hi' & _)|(Hi' & _)]; [discriminate|].
        injection Hi' as ->. discriminate.
      * discriminate.
    + intros _ _. right. eauto.
  - exfalso. unfold exposure_arguments in Hargs.
    pose proof (get_shutterspeed_index_cases (PyNum seconds) true) as Hidx.
    destruct (get_shutterspeed_index (PyNum seconds) true) as [i| |] eqn:Hi;
      cbn [rbind] in Hargs.
    + destruct (Nat.eqb i 0); [|discriminate].
      unfold py_int in Hargs. destruct (Prim2SF seconds) as [| | |[] ? ?];
        cbn [rbind] in Hargs; discriminate.
    + discriminate.
    + destruct Hidx as [(i & Hi' & _)|(Hi' & _)]; discriminate.
Qed.

Lemma start_exposure_hands_back_readout_or_none_example :
  let busy := ({| port := None; _command_proc := None; _is_exposing_event := true |},
               snd (new_camera None)) in
  fst (is_exposing busy) = true
  /\ fst (_start_exposure (simple_environment None "") 30%float "field.cr2" [] 100 busy)
     = Ok None.
Proof.
  intros busy. split; [reflexivity|].
  destruct (proj2 (start_exposure_hands_back_readout_or_none
                     (simple_environment None "") 30%float "field.cr2" [] 100 busy)
              eq_refl (ex_intro _ "/usr/bin/gphoto2" eq_refl)) as [H|[e He]].
  - exact H.
  - vm_compute in He. discriminate He.
Defined.

(** What [connect] does on a camera that is exposing. *)
Lemma connect_while_exposing (env : environment) (s : surroundings) (cam : canon)
    (w : world) :
  fst (is_exposing (channel cam, w)) = true ->
  exists c w',
    connect env s cam w
    = (Raise (InvalidCommand "Command already running"),
       ({| channel := c; _serial_number := _serial_number cam; model := model cam;
           _connected := _connected cam |}, w'))
    /\ started w' = started w.
Proof.
  intros Hexposing. unfold connect.
  set (w0 := add_log _ w).
  assert (fst (is_exposing (channel cam, w0)) = true) as Hexposing0 by exact Hexposing.
  unfold on_channel at 1. unfold get_property, gbind.
  rewrite (command_rejected_while_exposing env _ _ Hexposing0).
  eexists _, _. split; reflexivity.
Qed.

(** X15. [connect], where every command starts and prints what [reply]
    gives for its command line.  On a camera that is exposing it raises
    [InvalidCommand] at the first command: nothing is started and the
    camera stays as it was.  Otherwise it first reads the serial number, with
    one command run to its end.  When no [Current:] value can be read from
    the answer, it raises [CameraNotFound] after that one command: the
    camera stays unconnected and no setting is sent.  Otherwise it goes on
    with two more commands, one batch of twelve settings and then the
    model: each command is started in a state in which the process of the
    one before has ended and the slot is empty, and time does not go back.
    The camera is then connected, with the serial number and the model that
    were read. *)
Theorem connect_reads_the_serial_number_first
    (env : environment) (s : surroundings) (cam : canon) (w : world)
    (reply : list string -> string) :
  answers env reply ->
  let out := connect env s cam w in
  let w0 := add_log (Log DEBUG "Connecting to Canon gphoto2 camera") w in
  if fst (is_exposing (channel cam, w))
  then
    fst out = Raise (InvalidCommand "Command already running")
    /\ started (snd (snd out)) = started w
    /\ _connected (fst (snd out)) = _connected cam
    /\ _serial_number (fst (snd out)) = _serial_number cam
    /\ model (fst (snd out)) = model cam
  else
    exists p1 st1,
      (exists front, run_cmd p1 = front ++ ["--get-config"; "serialnumber"])
      /\ let serial := last_current (split_lines (reply (run_cmd p1))) in
         get_property env "serialnumber" (channel cam, w0) = (Ok serial, st1)
         /\ started (snd st1) = p1 :: started w
         /\ poll (snd st1) p1 = Some 0%nat
         /\ _command_proc (fst st1) = None
         /\ if String.eqb serial ""
            then
              out = (Raise (PanError "CameraNotFound: Camera not responding"),
                     ({| channel := fst st1; _serial_number := _serial_number cam;
                         model := model cam; _connected := _connected cam |}, snd st1))
            else
              exists p2 p3 st2 st3,
                set_properties env (Some prop2index) (Some (prop2value s)) st1 = (Ok tt, st2)
                /\ started (snd st2) = p2 :: p1 :: started w
                /\ length (run_cmd p2) = (length (run_cmd p1) + 22)%nat
                /\ poll (snd st2) p2 = Some 0%nat
                /\ _command_proc (fst st2) = None
                /\ get_property env "d402" st2
                   = (Ok (last_current (split_lines (reply (run_cmd p3)))), st3)
                /\ (exists front, run_cmd p3 = front ++ ["--get-config"; "d402"])
                /\ started (snd st3) = p3 :: p2 :: p1 :: started w
                /\ poll (snd st3) p3 = Some 0%nat
                /\ _command_proc (fst st3) = None
                /\ (now w <= now (snd st1) <= now (snd st2))%nat
                /\ (now (snd st2) <= now (snd st3))%nat
                /\ out = (Ok tt,
                          ({| channel := fst st3; _serial_number := serial;
                              model := last_current (split_lines (reply (run_cmd p3)));
                              _connected := true |}, snd st3)).
Proof.
  intros Hanswers out w0.
  destruct (fst (is_exposing (channel cam, w))) eqn:Hidle.
  { destruct (connect_while_exposing env s cam w Hidle) as (c & w' & Hrun & Hstarted).
    subst out. rewrite Hrun. cbn [fst snd _connected _serial_number model].
    split_and!; auto. }
  assert (out = connect env s cam w) as Hout by reflexivity. clearbody out.
  unfold connect in Hout. fold w0 in Hout.
  assert (fst (is_exposing (channel cam, w0)) = false) as Hidle0 by exact Hidle.
  destruct (get_property_answer env "serialnumber" (channel cam, w0) reply Hanswers Hidle0)
    as (p1 & exe & [c2 w2] & Hexe & Hget1 & Hline1 & Hstarted1 & Hcam1 & Hpoll1 & Hnow1).
  cbn [fst snd] in Hline1, Hstarted1, Hcam1, Hpoll1, Hnow1.
  exists p1, (c2, w2). split.
  { rewrite Hline1. eexists (_ :: _). rewrite app_comm_cons. reflexivity. }
  cbv zeta. cbn [fst snd].
  split; [exact Hget1|]. split; [exact Hstarted1|]. split; [exact Hpoll1|].
  split; [rewrite Hcam1; reflexivity|].
  unfold on_channel at 1 in Hout. rewrite Hget1 in Hout. cbv beta in Hout.
  destruct (String.eqb (last_current (split_lines (reply (run_cmd p1)))) "") eqn:Hserial.
  { exact Hout. }
  cbn [channel _serial_number model _connected] in Hout.
  assert (fst (is_exposing (c2, w2)) = false) as Hidle2 by (rewrite Hcam1; reflexivity).
  destruct (set_properties_answer env (Some prop2index) (Some (prop2value s)) (c2, w2)
              reply Hanswers Hidle2)
    as (p2 & exe2 & [c4 w4] & Hexe2 & Hset & Hline2 & Hstarted2 & Hcam2 & Hpoll2 & Hnow2).
  cbn [fst snd] in Hline2, Hstarted2, Hcam2, Hpoll2, Hnow2.
  unfold on_channel at 1 in Hout.
  cbn [channel _serial_number model _connected] in Hout.
  rewrite Hset in Hout. cbv beta in Hout.
  cbn [channel _serial_number model _connected] in Hout.
  assert (fst (is_exposing (c4, w4)) = false) as Hidle4 by (rewrite Hcam2; reflexivity).
  destruct (get_property_answer env "d402" (c4, w4) reply Hanswers Hidle4)
    as (p3 & exe3 & [c6 w6] & Hexe3 & Hget3 & Hline3 & Hstarted3 & Hcam3 & Hpoll3 & Hnow3).
  cbn [fst snd] in Hline3, Hstarted3, Hcam3, Hpoll3, Hnow3.
  unfold on_channel in Hout.
  cbn [channel _serial_number model _connected] in Hout.
  rewrite Hget3 in Hout. cbv beta in Hout.
  cbn [channel _serial_number model _connected] in Hout.
  exists p2, p3, (c4, w4), (c6, w6). cbn [fst snd].
  split; [exact Hset|].
  split; [rewrite Hstarted2, Hstarted1; reflexivity|].
  split.
  { rewrite Hline2, Hline1, Hcam1. cbn [port].
    rewrite Hexe in Hexe2. injection Hexe2 as <-.
    rewrite value_settings_flat_map, index_settings_flat_map.
    cbn [items prop2index prop2value flat_map length app].
    destruct (port (channel cam)); cbn [length app]; rewrite ?length_app; cbn [length]; lia. }
  split; [exact Hpoll2|]. split; [rewrite Hcam2; reflexivity|].
  split; [exact Hget3|].
  split.
  { rewrite Hline3. eexists (_ :: _). rewrite app_comm_cons. reflexivity. }
  split; [rewrite Hstarted3, Hstarted2, Hstarted1; reflexivity|].
  split; [exact Hpoll3|]. split; [rewrite Hcam3; reflexivity|].
  split; [change (now w) with (now w0); lia|]. split; [exact Hnow3|].
  exact Hout.
Qed.

Lemma connect_reads_the_serial_number_first_example :
  let reply := fun cmdline : list string =>
                 if decide (last cmdline = Some "serialnumber")
                 then String.concat newline ["Label: Serial Number"; "Current: 0123456789"]
                 else String.concat newline ["Label: Model"; "Current: Canon EOS 100D"] in
  let cam := {| channel := fst (new_camera None); _serial_number := "";
                model := ""; _connected := false |} in
  let out := connect (answering_environment reply)
               {| pan_id := None; year := "2021" |} cam (snd (new_camera None)) in
  fst out = Ok tt /\ _connected (fst (snd out)) = true
  /\ _serial_number (fst (snd out)) = "0123456789".
Proof.
  intros reply cam out.
  assert (answers (answering_environment reply) reply) as Hanswers.
  { split; [eexists; reflexivity|]. intros cmdline t. eexists _, _, _. reflexivity. }
  pose proof (connect_reads_the_serial_number_first _ {| pan_id := None; year := "2021" |}
                cam (snd (new_camera None)) reply Hanswers) as H.
  cbv zeta in H. fold out in H.
  change (fst (is_exposing (channel cam, snd (new_camera None)))) with false in H.
  cbv iota in H.
  destruct H as (p1 & st1 & [front Hline] & _ & _ & _ & _ & H).
  rewrite Hline in H.
  assert (reply (front ++ ["--get-config"; "serialnumber"])
          = String.concat newline ["Label: Serial Number"; "Current: 0123456789"]) as Hreply.
  { unfold reply.
    replace (front ++ ["--get-config"; "serialnumber"])
      with ((front ++ ["--get-config"]) ++ ["serialnumber"])
      by (rewrite <- app_assoc; reflexivity).
    rewrite last_snoc, decide_True by reflexivity. reflexivity. }
  rewrite Hreply in H.
  change (last_current (split_lines
            (String.concat newline ["Label: Serial Number"; "Current: 0123456789"])))
    with "0123456789" in H.
  cbn [String.eqb Ascii.eqb Bool.eqb] in H.
  destruct H as (p2 & p3 & st2 & st3 & _ & _ & _ & _ & _ & _ & _ & _ & _ & _ & _ & _ & Hout).
  rewrite Hout. cbn [fst snd _connected _serial_number]. auto.
Defined.

End CanonCameraProperties.

(** ** observatory.py: removing cameras, and the primary camera *)
Section RegistryOrderProperties.
Import Observatory Trace.

Lemma od_get_None_keys {V} (d : list (string * V)) (k : string) :
  od_get d k = None <-> ~ In k (od_keys d).
Proof.
  induction d as [|[k' v'] d IH]; cbn [od_get od_keys map fst In].
  - tauto.
  - destruct (String.eqb_spec k k') as [->|Hne].
    + split; [discriminate|]. intros H. exfalso. apply H. left. reflexivity.
    + rewrite IH. unfold od_keys. split.
      * intros H [Heq|Hin]; [congruence|contradiction].
      * intros H Hin. apply H. right. exact Hin.
Qed.

Lemma od_del_get_other {V} (d : list (string * V)) (k k' : string) :
  k <> k' -> od_get (od_del d k) k' = od_get d k'.
Proof.
  intros Hne. induction d as [|[k0 v0] d IH]; cbn [od_get od_del]; [reflexivity|].
  destruct (String.eqb_spec k k0) as [->|Hk]; cbn [od_get].
  - destruct (String.eqb_spec k' k0); [congruence|reflexivity].
  - destruct (String.eqb_spec k' k0); [reflexivity|exact IH].
Qed.

Lemma without_absent (k : string) (names : list string) :
  ~ In k names -> without k names = names.
Proof.
  induction names as [|n names IH]; cbn [without List.filter In]; [reflexivity|].
  intros H. destruct (String.eqb_spec k n) as [->|Hne]; cbn [negb].
  - exfalso. apply H. left. reflexivity.
  - f_equal. apply IH. intros Hin. apply H. right. exact Hin.
Qed.

Lemma od_del_keys {V} (d : list (string * V)) (k : string) :
  NoDup (od_keys d) -> od_keys (od_del d k) = without k (od_keys d).
Proof.
  induction d as [|[k' v'] d IH]; cbn [od_del od_keys map fst without List.filter];
    [reflexivity|].
  intros Hnodup. inversion Hnodup as [|? ? Hnotin Hrest]; subst.
  destruct (String.eqb_spec k k') as [->|Hne]; cbn [negb].
  - symmetry. apply without_absent. intros Hin. apply Hnotin, list_elem_of_In, Hin.
  - cbn [od_keys map fst]. f_equal. apply IH. exact Hrest.
Qed.

Lemma od_set_keys_new {V} (d : list (string * V)) (k : string) (v : V) :
  od_mem d k = false -> od_keys (od_set d k v) = od_keys d ++ [k].
Proof.
  unfold od_mem. induction d as [|[k' v'] d IH]; cbn [od_get od_set od_keys map fst app];
    [reflexivity|].
  destruct (String.eqb_spec k k') as [->|Hne]; [discriminate|].
  intros H. cbn [od_keys map fst]. f_equal. exact (IH H).
Qed.

Lemma without_not_in (k : string) (names : list string) : ~ In k (without k names).
Proof.
  unfold without. rewrite filter_In. intros [_ H].
  rewrite String.eqb_refl in H. discriminate.
Qed.

Lemma od_del_mem {V} (d : list (string * V)) (k : string) :
  NoDup (od_keys d) -> od_mem (od_del d k) k = false.
Proof.
  intros Hnodup. unfold od_mem.
  destruct (od_get (od_del d k) k) eqn:Hget; [|reflexivity].
  exfalso. apply (without_not_in k (od_keys d)).
  rewrite <- (od_del_keys d k Hnodup).
  destruct (in_dec string_dec k (od_keys (od_del d k))) as [Hin|Hnot]; [exact Hin|].
  apply od_get_None_keys in Hnot. congruence.
Qed.

(** What [remove_camera] returns and leaves. *)
Lemma remove_camera_run (cam_name : string) (st : state) :
  remove_camera cam_name st
  = if od_mem (cameras (self st)) cam_name
    then (Ok tt, set_self (set_cameras (od_del (cameras (self st)) cam_name) (self st))
                   (add_event (Logged DEBUG "Removing camera") st))
    else (Raise (KeyError cam_name), add_event (Logged DEBUG "Removing camera") st).
Proof.
  unfold remove_camera, bind, logger. cbn [self add_event].
  destruct (od_mem (cameras (self st)) cam_name); reflexivity.
Qed.

(** X16. [remove_camera] of a name that is not registered raises [KeyError]
    and leaves the observatory as it was.  Of a registered name it removes
    that entry alone: the other names keep their order and their cameras, and
    the marked primary camera is left as it was. *)
Theorem remove_camera_removes_one_entry (cam_name : string) (st : state) :
  NoDup (od_keys (cameras (self st))) ->
  let out := remove_camera cam_name st in
  (od_mem (cameras (self st)) cam_name = false ->
     fst out = Raise (KeyError cam_name) /\ self (snd out) = self st)
  /\ (od_mem (cameras (self st)) cam_name = true ->
        fst out = Ok tt
        /\ od_keys (cameras (self (snd out))) = without cam_name (od_keys (cameras (self st)))
        /\ od_mem (cameras (self (snd out))) cam_name = false
        /\ (forall other, other <> cam_name ->
              od_get (cameras (self (snd out))) other = od_get (cameras (self st)) other)
        /\ _primary_camera (self (snd out)) = _primary_camera (self st)
        /\ current_observation (self (snd out)) = current_observation (self st)).
Proof.
  intros Hnodup out. subst out. rewrite remove_camera_run.
  split; intros Hmem; rewrite Hmem; cbn [fst snd self set_self add_event set_cameras cameras
                                          _primary_camera current_observation].
  - split; reflexivity.
  - assert (od_keys (od_del (cameras (self st)) cam_name)
            = without cam_name (od_keys (cameras (self st)))) as Hkeys
      by (apply od_del_keys; exact Hnodup).
    split_and!; try reflexivity.
    + exact Hkeys.
    + apply od_del_mem. exact Hnodup.
    + intros other Hne. apply od_del_get_other. congruence.
Qed.

Lemma remove_camera_removes_one_entry_example :
  let out := remove_camera "Cam01" example_state in
  fst out = Ok tt /\ od_keys (cameras (self (snd out))) = ["Cam00"; "Cam02"].
Proof.
  intros out.
  assert (NoDup (od_keys (cameras (self example_state)))) as Hnodup.
  { apply NoDup_ListNoDup. cbn. repeat constructor; cbn; intuition discriminate. }
  destruct (proj2 (remove_camera_removes_one_entry "Cam01" example_state Hnodup) eq_refl)
    as (Hok & Hkeys & _).
  split; [exact Hok|exact Hkeys].
Defined.

(** X17. Removing a registered camera and adding a camera under the same
    name moves the name to the end of the registry, the other names keeping
    their order. *)
Theorem remove_then_add_changes_the_order (cam_name : string) (cam : camera) (st : state) :
  NoDup (od_keys (cameras (self st))) ->
  od_mem (cameras (self st)) cam_name = true ->
  let st1 := snd (remove_camera cam_name st) in
  let st2 := snd (add_camera cam_name cam st1) in
  fst (remove_camera cam_name st) = Ok tt
  /\ fst (add_camera cam_name cam st1) = Ok tt
  /\ od_keys (cameras (self st2)) = without cam_name (od_keys (cameras (self st))) ++ [cam_name]
  /\ od_get (cameras (self st2)) cam_name = Some cam.
Proof.
  intros Hnodup Hmem st1 st2. subst st2 st1.
  rewrite remove_camera_run, Hmem. cbn [fst snd].
  set (st1 := set_self _ _).
  destruct (add_camera_cameras cam_name cam st1) as [Hok ->].
  split; [reflexivity|]. split; [exact Hok|].
  subst st1. cbn [self set_self set_cameras cameras].
  split; [|apply od_get_set].
  rewrite od_set_keys_new by (apply od_del_mem; exact Hnodup).
  rewrite od_del_keys by exact Hnodup.
  reflexivity.
Qed.

Lemma remove_then_add_changes_the_order_example :
  let cam := example_camera "Cam00b" false 0 in
  let st2 := snd (add_camera "Cam00" cam (snd (remove_camera "Cam00" example_state))) in
  od_keys (cameras (self st2)) = ["Cam01"; "Cam02"; "Cam00"].
Proof.
  intros cam st2.
  assert (NoDup (od_keys (cameras (self example_state)))) as Hnodup.
  { apply NoDup_ListNoDup. cbn. repeat constructor; cbn; intuition discriminate. }
  exact (proj1 (proj2 (proj2 (remove_then_add_changes_the_order "Cam00" cam example_state
                                Hnodup eq_refl)))).
Defined.

(** The observatory after [add_camera]. *)
Lemma add_camera_self (cam_name : string) (cam : camera) (st : state) :
  self (snd (add_camera cam_name cam st))
  = let o := set_cameras (od_set (cameras (self st)) cam_name cam) (self st) in
    if is_primary cam then set_primary_camera cam o else o.
Proof.
  unfold add_camera, bind, logger, ret. cbn [self add_event].
  destruct (od_mem (cameras (self st)) cam_name); cbn [self add_event set_self];
    destruct (is_primary cam); reflexivity.
Qed.

Lemma od_set_nonempty {V} (d : list (string * V)) (k : string) (v : V) :
  exists kv rest, od_set d k v = kv :: rest.
Proof.
  destruct d as [|[k' v'] d]; cbn [od_set]; [eauto|].
  destruct (String.eqb k k'); eauto.
Qed.

(** X18. After [add_camera] the observatory has cameras and a primary
    camera.  A camera added as primary becomes the primary camera, whichever
    was before; a camera added otherwise leaves the marked primary camera
    as it was, and, when none is marked, the primary camera is the first
    camera of the registry: the new camera when the registry was empty or
    when it replaces the first one. *)
Theorem add_camera_gives_a_primary_camera (cam_name : string) (cam : camera) (st : state) :
  let o := self (snd (add_camera cam_name cam st)) in
  has_cameras o = true
  /\ is_Some (primary_camera o)
  /\ (is_primary cam = true -> primary_camera o = Some cam)
  /\ (is_primary cam = false ->
        _primary_camera o = _primary_camera (self st)
        /\ (_primary_camera (self st) = None ->
              primary_camera o
              = Some match cameras (self st) with
                     | [] => cam
                     | (name, first) :: _ => if String.eqb cam_name name then cam else first
                     end)).
Proof.
  intros o. subst o. rewrite add_camera_self. cbv zeta.
  destruct (od_set_nonempty (cameras (self st)) cam_name cam) as ([name c] & rest & Hset).
  destruct (is_primary cam) eqn:Hprimary.
  - unfold set_primary_camera, has_cameras, primary_camera.
    cbn [cameras set_cameras _primary_camera]. rewrite Hset. cbn [length].
    split_and!; [reflexivity|eauto| |discriminate].
    intros _. destruct cam; cbn in *. subst. reflexivity.
  - unfold has_cameras, primary_camera.
    cbn [cameras set_cameras _primary_camera]. rewrite Hset. cbn [length].
    split_and!.
    + reflexivity.
    + destruct (_primary_camera (self st)); eauto.
    + discriminate.
    + intros _. split; [reflexivity|]. intros Hnone. rewrite Hnone. f_equal.
      destruct (cameras (self st)) as [|[k0 v0] d]; cbn [od_set] in Hset.
      * injection Hset as <- <- <-. reflexivity.
      * destruct (String.eqb cam_name k0); injection Hset as <- <- <-; reflexivity.
Qed.

Lemma add_camera_gives_a_primary_camera_example :
  let cam := example_camera "Cam03" true 0 in
  let o := self (snd (add_camera "Cam03" cam example_state)) in
  primary_camera (self example_state) = Some (example_camera "Cam00" false 25)
  /\ primary_camera o = Some cam.
Proof.
  intros cam o. split; [reflexivity|].
  exact (proj1 (proj2 (proj2 (add_camera_gives_a_primary_camera "Cam03" cam example_state)))
           eq_refl).
Defined.

(** X19. [remove_camera] does not unmark the primary camera: the camera that
    was marked primary is still returned as primary camera after it has been
    removed from the registry. *)
Theorem removed_camera_stays_primary (cam_name : string) (cam : camera) (st : state) :
  NoDup (od_keys (cameras (self st))) ->
  _primary_camera (self st) = Some cam ->
  od_get (cameras (self st)) cam_name = Some cam ->
  let out := remove_camera cam_name st in
  fst out = Ok tt
  /\ od_get (cameras (self (snd out))) cam_name = None
  /\ primary_camera (self (snd out)) = Some cam.
Proof.
  intros Hnodup Hprimary Hget out. subst out.
  assert (od_mem (cameras (self st)) cam_name = true) as Hmem
    by (unfold od_mem; rewrite Hget; reflexivity).
  rewrite remove_camera_run, Hmem.
  cbn [fst snd self set_self add_event set_cameras cameras].
  split; [reflexivity|]. split.
  - apply od_get_None_keys. rewrite od_del_keys by exact Hnodup. apply without_not_in.
  - unfold primary_camera. cbn [_primary_camera set_cameras]. rewrite Hprimary.
    reflexivity.
Qed.

Lemma removed_camera_stays_primary_example :
  let cam := example_camera "Cam00" true 0 in
  let st := snd (add_camera "Cam00" cam example_state) in
  let out := remove_camera "Cam00" st in
  fst out = Ok tt /\ od_keys (cameras (self (snd out))) = ["Cam01"; "Cam02"]
  /\ primary_camera (self (snd out)) = Some cam.
Proof.
  intros cam st out.
  assert (NoDup (od_keys (cameras (self st)))) as Hnodup.
  { apply NoDup_ListNoDup. cbn. repeat constructor; cbn; intuition discriminate. }
  destruct (removed_camera_stays_primary "Cam00" cam st Hnodup eq_refl eq_refl)
    as (Hok & _ & Hprimary).
  split; [exact Hok|]. split; [reflexivity|exact Hprimary].
Defined.

End RegistryOrderProperties.

(** ** observatory.py: [observe], the exposures and the wait *)
Section DispatchProperties.
Import Observatory Trace.

Lemma calls_app (evs2 evs1 : list event) : calls (evs2 ++ evs1) = calls evs1 ++ calls evs2.
Proof. unfold calls. rewrite rev_app_distr. apply omap_app. Qed.

Lemma calls_cons (ev : event) (evs : list event) :
  calls (ev :: evs) = calls evs ++ calls [ev].
Proof. exact (calls_app [ev] evs). Qed.

(** The loop over the cameras, all of which start their exposure. *)
Lemma take_observations_all (env : environment) (names : list string) (st : state) :
  Forall (fun n => take_observation env n = Returns tt) names ->
  exists st',
    take_observations env names st = (Ok tt, st')
    /\ self st' = self st /\ clock st' = clock st
    /\ calls (events st') = calls (events st) ++ map TakeObservation names.
Proof.
  revert st. induction names as [|n names IH]; intros st Hall.
  - exists st. cbn [take_observations ret map]. rewrite app_nil_r. auto.
  - inversion Hall as [|? ? Hn Hrest]; subst.
    cbn [take_observations]. unfold bind at 1, logger. unfold bind at 1, invoke.
    rewrite Hn.
    destruct (IH (add_event (Called (TakeObservation n))
                    (add_event (Logged DEBUG "Exposing for camera") st)) Hrest)
      as (st' & Hrun & Hself & Hclock & Hcalls).
    exists st'. rewrite Hrun. split; [reflexivity|].
    split; [exact Hself|]. split; [exact Hclock|].
    rewrite Hcalls. cbn [events add_event map].
    rewrite calls_cons, (calls_cons (Logged _ _)). cbn [calls rev omap app].
    rewrite app_nil_r, <- app_assoc. reflexivity.
Qed.

(** The loop over the cameras, one of which fails. *)
Lemma take_observations_failure (env : environment) (pre : list string) (bad : string)
    (rest : list string) (e : exn) (st : state) :
  Forall (fun n => take_observation env n = Returns tt) pre ->
  take_observation env bad = Raises e ->
  exists st',
    take_observations env (pre ++ bad :: rest) st = (Raise e, st')
    /\ self st' = self st /\ clock st' = clock st
    /\ calls (events st') = calls (events st) ++ map TakeObservation (pre ++ [bad]).
Proof.
  revert st. induction pre as [|n pre IH]; intros st Hall Hbad.
  - cbn [app take_observations]. unfold bind at 1, logger. unfold bind at 1, invoke.
    rewrite Hbad. eexists. split; [reflexivity|].
    cbn [self clock events add_event map]. split_and!; try reflexivity.
    rewrite calls_cons, (calls_cons (Logged _ _)). cbn [calls rev omap app].
    rewrite app_nil_r. reflexivity.
  - inversion Hall as [|? ? Hn Hrest]; subst.
    cbn [app take_observations]. unfold bind at 1, logger. unfold bind at 1, invoke.
    rewrite Hn.
    destruct (IH (add_event (Called (TakeObservation n))
                    (add_event (Logged DEBUG "Exposing for camera") st)) Hrest Hbad)
      as (st' & Hrun & Hself & Hclock & Hcalls).
    exists st'. cbn [app] in Hrun. rewrite Hrun. split; [reflexivity|].
    split; [exact Hself|]. split; [exact Hclock|].
    rewrite Hcalls. cbn [events add_event map app].
    rewrite calls_cons, (calls_cons (Logged _ _)). cbn [calls rev omap app].
    rewrite app_nil_r, <- app_assoc. reflexivity.
Qed.

(** X20. A non-blocking [observe] whose collaborators all answer gets the
    headers, then starts the exposure of every registered camera, once and
    in the order of the registry; it makes no other call, takes no time and
    leaves the observatory as it was. *)
Theorem observe_starts_every_camera_in_order (env : environment) (st : state) :
  get_standard_headers env = Returns tt ->
  Forall (fun n => take_observation env n = Returns tt) (od_keys (cameras (self st))) ->
  let out := observe env false st in
  fst out = Ok tt
  /\ calls (events (snd out))
     = calls (events st)
       ++ GetStandardHeaders :: map TakeObservation (od_keys (cameras (self st)))
  /\ clock (snd out) = clock st
  /\ self (snd out) = self st.
Proof.
  intros Hheaders Hall out.
  assert (exists st', observe env false st = (Ok tt, st')
                      /\ self st' = self st /\ clock st' = clock st
                      /\ calls (events st')
                         = calls (events st)
                           ++ GetStandardHeaders
                              :: map TakeObservation (od_keys (cameras (self st))))
    as (st' & Hout & Hself & Hclock & Hcalls).
  { unfold observe. unfold bind at 1, invoke. rewrite Hheaders.
    set (st0 := add_event (Called GetStandardHeaders) st).
    unfold bind at 1.
    destruct (take_observations_all env (od_keys (cameras (self st0))) st0 Hall)
      as (st' & Hrun & Hself & Hclock & Hcalls).
    rewrite Hrun. exists st'. cbn [ret]. split; [reflexivity|].
    split; [exact Hself|]. split; [exact Hclock|].
    rewrite Hcalls. subst st0. cbn [events add_event self].
    rewrite calls_cons. cbn [calls rev omap app]. rewrite <- app_assoc. reflexivity. }
  subst out. rewrite Hout. cbn [fst snd]. auto.
Qed.

Lemma observe_starts_every_camera_in_order_example :
  let out := observe quiet_environment false example_state in
  fst out = Ok tt
  /\ calls (events (snd out))
     = [GetStandardHeaders; TakeObservation "Cam00"; TakeObservation "Cam01";
        TakeObservation "Cam02"].
Proof.
  intros out.
  assert (Forall (fun n => take_observation quiet_environment n = Returns tt)
            (od_keys (cameras (self example_state)))) as Hall
    by (apply Forall_forall; intros n _; reflexivity).
  destruct (observe_starts_every_camera_in_order quiet_environment example_state
              eq_refl Hall) as (Hok & Hcalls & _).
  split; [exact Hok|exact Hcalls].
Defined.

(** X21. When a camera fails to start its exposure, [observe] raises that
    camera's exception, blocking or not: the cameras before it in the
    registry have been started, those after it are not, and there is no
    wait. *)
Theorem observe_stops_at_the_first_failure
    (env : environment) (blocking : bool) (pre : list string) (bad : string)
    (rest : list string) (e : exn) (st : state) :
  get_standard_headers env = Returns tt ->
  od_keys (cameras (self st)) = pre ++ bad :: rest ->
  Forall (fun n => take_observation env n = Returns tt) pre ->
  take_observation env bad = Raises e ->
  let out := observe env blocking st in
  fst out = Raise e
  /\ calls (events (snd out))
     = calls (events st) ++ GetStandardHeaders :: map TakeObservation (pre ++ [bad])
  /\ clock (snd out) = clock st
  /\ self (snd out) = self st.
Proof.
  intros Hheaders Hnames Hall Hbad out.
  assert (exists st', observe env blocking st = (Raise e, st')
                      /\ self st' = self st /\ clock st' = clock st
                      /\ calls (events st')
                         = calls (events st)
                           ++ GetStandardHeaders :: map TakeObservation (pre ++ [bad]))
    as (st' & Hout & Hself & Hclock & Hcalls).
  { unfold observe. unfold bind at 1, invoke. rewrite Hheaders.
    set (st0 := add_event (Called GetStandardHeaders) st).
    unfold bind at 1.
    change (self st0) with (self st). rewrite Hnames.
    destruct (take_observations_failure env pre bad rest e st0 Hall Hbad)
      as (st' & Hrun & Hself & Hclock & Hcalls).
    rewrite Hrun. exists st'. split; [reflexivity|].
    split; [exact Hself|]. split; [exact Hclock|].
    rewrite Hcalls. subst st0. cbn [events add_event self].
    rewrite calls_cons. cbn [calls rev omap app]. rewrite <- app_assoc. reflexivity. }
  subst out. rewrite Hout. cbn [fst snd]. auto.
Qed.

Lemma observe_stops_at_the_first_failure_example :
  let env := {| get_config := get_config quiet_environment;
                get_standard_headers := Returns tt;
                take_observation := fun n => if String.eqb n "Cam01"
                                             then Raises (Other "no camera") else Returns tt;
                get_solve_field := get_solve_field quiet_environment;
                fpack := fpack quiet_environment;
                insert_current := insert_current quiet_environment;
                path_exists := path_exists quiet_environment;
                start_process := start_process quiet_environment |} in
  let out := observe env true example_state in
  fst out = Raise (Other "no camera")
  /\ calls (events (snd out))
     = [GetStandardHeaders; TakeObservation "Cam00"; TakeObservation "Cam01"].
Proof.
  intros env out.
  assert (Forall (fun n => take_observation env n = Returns tt) ["Cam00"]) as Hall
    by (repeat constructor).
  destruct (observe_stops_at_the_first_failure env true ["Cam00"] "Cam01" ["Cam02"]
              (Other "no camera") example_state eq_refl eq_refl Hall eq_refl)
    as (Hraise & Hcalls & _).
  split; [exact Hraise|exact Hcalls].
Defined.

(** The wait of the specification never ends before the first poll nor
    after the budget. *)
Lemma wait_spec_bounds (o : observatory) (start exptime readout timeout : nat) :
  (0 < readout)%nat ->
  (start + (exptime + readout) <= snd (wait_spec o start exptime readout timeout)
   <= start + (exptime + readout + timeout))%nat
  /\ (timeout = 0%nat -> fst (wait_spec o start exptime readout timeout) = Raise TimeoutError).
Proof.
  intros Hr. unfold wait_spec.
  destruct (find (all_idle o) _) as [t|] eqn:Hfind; cbn [fst snd].
  - apply find_some in Hfind as [Hin _]. unfold poll_times in Hin.
    apply in_map_iff in Hin as (k & <- & Hk). apply in_seq in Hk. destruct Hk as [_ Hk].
    cbn in Hk.
    replace (start + (exptime + readout + timeout) - (start + (exptime + readout)))%nat
      with timeout in Hk by lia.
    pose proof (Nat.Div0.mul_div_le (timeout + (readout - 1)) readout) as Hdiv.
    set (q := ((timeout + (readout - 1)) / readout)%nat) in *.
    assert (readout * S k <= readout * q)%nat by (apply Nat.mul_le_mono_l; lia).
    split; [lia|]. intros ->. exfalso.
    assert (q = 0)%nat by (subst q; apply Nat.div_small; lia). lia.
  - split; [lia|reflexivity].
Qed.

(** X22. A blocking [observe] whose exposures have started, with a positive
    readout time, ends no sooner than the exposure time plus the readout
    time after the start of the wait, however soon the cameras are idle, and
    no later than the budget; it ends without a change to the observatory.
    With a camera timeout of zero it raises [TimeoutError] whatever the
    cameras report. *)
Theorem blocking_observe_waits_for_the_exposure
    (env : environment) (st : state) (cam : camera) (obs : observation) :
  let st1 := snd (observe env false st) in
  fst (observe env false st) = Ok tt ->
  primary_camera (self st1) = Some cam ->
  current_observation (self st1) = Some obs ->
  (0 < readout_time cam)%nat ->
  let out := observe env true st in
  (clock st1 + (exptime obs + readout_time cam) <= clock (snd out)
   <= clock st1 + (exptime obs + readout_time cam + timeout cam))%nat
  /\ self (snd out) = self st1
  /\ (fst out = Ok tt \/ fst out = Raise TimeoutError)
  /\ (timeout cam = 0%nat -> fst out = Raise TimeoutError).
Proof.
  intros st1 Hdispatch Hcam Hobs Hr out. subst out.
  destruct (wait_for_cameras_spec st1 cam obs Hcam Hobs Hr)
    as (st' & Hwait & Hclock & Hself & _).
  rewrite (observe_blocking env st Hdispatch). fold st1.
  rewrite Hwait. cbn [fst snd]. rewrite Hclock.
  destruct (wait_spec_bounds (self st1) (clock st1) (exptime obs) (readout_time cam)
              (timeout cam) Hr) as [Hbounds Hzero].
  split; [exact Hbounds|]. split; [exact Hself|]. split; [|exact Hzero].
  unfold wait_spec. destruct (find _ _); cbn [fst]; auto.
Qed.

Lemma blocking_observe_waits_for_the_exposure_example :
  let idle := example_camera "Cam00" false 0 in
  let st := set_self (set_cameras [("Cam00", idle)] (self example_state)) example_state in
  let out := observe quiet_environment true st in
  all_idle (self st) 0 = true /\ (30 <= clock (snd out))%nat.
Proof.
  intros idle st out. split; [reflexivity|].
  assert (current_observation (self (snd (observe quiet_environment false st)))
          = current_observation (self example_state)) as Hobs
    by (vm_compute; reflexivity).
  destruct (current_observation (self example_state)) as [obs|] eqn:Hcurrent;
    [|discriminate Hcurrent].
  assert (exptime obs = 20%nat) as Hexp by (injection Hcurrent as <-; reflexivity).
  pose proof (blocking_observe_waits_for_the_exposure quiet_environment st idle obs
                eq_refl eq_refl Hobs (Nat.lt_0_succ 9)) as H.
  cbv zeta in H. destruct H as ([Hlow _] & _).
  rewrite Hexp in Hlow. exact Hlow.
Defined.

End DispatchProperties.

(** ** observatory.py: what [process_observation] leaves on the exposure *)
Section ExposureProperties.
Import Observatory Trace.

Ltac run_step :=
  unfold try_except, bind, logger, ret, raise, invoke, getitem; cbn beta iota; cbn [negb].

Lemma warnings_app (evs2 evs1 : list event) :
  warnings (evs2 ++ evs1) = warnings evs1 ++ warnings evs2.
Proof. unfold warnings. rewrite rev_app_distr. apply omap_app. Qed.

Lemma trace_calls_app (evs2 evs1 : list event) :
  calls (evs2 ++ evs1) = calls evs1 ++ calls evs2.
Proof. unfold calls. rewrite rev_app_distr. apply omap_app. Qed.

(** The body of the loop, for a pending exposure with the required fields,
    is the five steps in a row. *)
Lemma process_exposure_steps env opts cam_name st e a b c x :
  latest_is cam_name st e ->
  metadata e !! "image_id" = Some a -> metadata e !! "sequence_id" = Some b ->
  metadata e !! "filepath" = Some c -> metadata e !! "exptime" = Some x ->
  marked_complete (metadata e) = false ->
  process_exposure env opts cam_name st
  = bind (step_solve env opts
            {| cam := cam_name; meta := OfExposure; l_image_id := a; l_seq_id := b;
               l_file_path := c; l_exptime := x;
               l_field_name := default (VStr "") (metadata e !! "field_name") |})
      (fun l => bind (step_compress env opts l)
      (fun l => bind (step_record env opts l)
      (fun l => bind (step_pretty env opts l)
      (fun l => bind (step_upload env opts l)
      (fun l => ret Continue)))))
      (add_event (Logged DEBUG "Processing observation with exposure") st).
Proof.
  intros He Ha Hb Hc Hx Hpending.
  unfold process_exposure. unfold bind at 1. rewrite He.
  unfold bind at 1. unfold logger at 1.
  unfold required_field. rewrite Ha, Hb, Hc, Hx.
  unfold bind at 1 2 3 4. unfold ret at 1 2 3 4.
  unfold marked_complete in Hpending. rewrite Hpending. reflexivity.
Qed.

Lemma step_solve_off env opts l st :
  step_enabled env opts Solve = false -> step_solve env opts l st = (Ok l, st).
Proof. cbn [step_enabled]. unfold step_solve. intros ->. reflexivity. Qed.

Lemma step_solve_solved env opts l st d :
  step_enabled env opts Solve = true ->
  get_solve_field env (l_file_path l) = Returns d ->
  exists l' st',
    step_solve env opts l st = (Ok l', st')
    /\ self st' = self st /\ cam l' = cam l /\ meta l' = SolveInfo d.
Proof.
  cbn [step_enabled]. unfold step_solve. intros -> Hd. run_step. rewrite Hd.
  destruct (d !! "solved_fits_file"); eexists _, _; split_and!; reflexivity.
Qed.

Lemma step_compress_own env opts l st e p :
  meta l = OfExposure ->
  latest_is (cam l) st e ->
  (step_enabled env opts Compress = true -> fpack env (l_file_path l) = Returns p) ->
  exists l' st' e',
    step_compress env opts l st = (Ok l', st')
    /\ cam l' = cam l /\ meta l' = OfExposure
    /\ latest_is (cam l) st' e'
    /\ (if step_enabled env opts Compress
        then path e' = p /\ metadata e' = <["filepath" := p]> (metadata e)
        else e' = e).
Proof.
  intros Hmeta He Hfpack. unfold step_compress. cbn [step_enabled] in *.
  destruct (enabled env (compress_fits opts) "observations.compress_fits").
  - run_step. rewrite (Hfpack eq_refl).
    set (st1 := add_event _ (add_event _ st)).
    assert (latest_is (cam l) st1 e) as He1 by (repeat apply latest_is_add_event; exact He).
    destruct (latest_is_update (cam l)
                (fun e0 => {| image_id := image_id e0; path := p; metadata := metadata e0 |})
                st1 e He1) as (He2 & _).
    set (st2 := update_latest _ _ st1) in *.
    unfold metadata_setitem. rewrite Hmeta.
    destruct (latest_is_update (cam l)
                (fun e0 => {| image_id := image_id e0; path := path e0;
                              metadata := <["filepath" := p]> (metadata e0) |})
                st2 _ He2) as (He3 & _).
    eexists _, _, _. split; [reflexivity|].
    split_and!; [reflexivity|exact Hmeta|apply latest_is_add_event; exact He3| |];
      reflexivity.
  - exists l, st, e. unfold ret. split_and!; auto.
Qed.

Lemma step_compress_solved env opts l st e d :
  meta l = SolveInfo d ->
  latest_is (cam l) st e ->
  (step_enabled env opts Compress = true -> is_return (fpack env (l_file_path l))) ->
  exists l' st' e' d',
    step_compress env opts l st = (Ok l', st')
    /\ cam l' = cam l /\ meta l' = SolveInfo d'
    /\ latest_is (cam l) st' e'
    /\ metadata e' = metadata e.
Proof.
  intros Hmeta He Hfpack. unfold step_compress. cbn [step_enabled] in *.
  destruct (enabled env (compress_fits opts) "observations.compress_fits").
  - run_step. destruct (fpack env (l_file_path l)) as [p|ex]; [|destruct (Hfpack eq_refl)].
    set (st1 := add_event _ (add_event _ st)).
    assert (latest_is (cam l) st1 e) as He1 by (repeat apply latest_is_add_event; exact He).
    destruct (latest_is_update (cam l)
                (fun e0 => {| image_id := image_id e0; path := p; metadata := metadata e0 |})
                st1 e He1) as (He2 & _).
    unfold metadata_setitem. rewrite Hmeta. unfold ret.
    eexists _, _, _, _. split; [reflexivity|].
    cbn [cam meta set_meta].
    split_and!; [reflexivity|reflexivity|apply latest_is_add_event; exact He2|reflexivity].
  - exists l, st, e, d. unfold ret. split_and!; auto.
Qed.

Lemma step_record_own env opts l st e :
  meta l = OfExposure ->
  latest_is (cam l) st e ->
  (step_enabled env opts Record_ = true ->
   forall d, is_return (insert_current env "observations" d)) ->
  exists l' st' e',
    step_record env opts l st = (Ok l', st')
    /\ cam l' = cam l /\ meta l' = OfExposure
    /\ latest_is (cam l) st' e'
    /\ path e' = path e
    /\ metadata e' = (if step_enabled env opts Record_
                      then <["status" := VStr "complete"]> (metadata e)
                      else metadata e).
Proof.
  intros Hmeta He Hins. unfold step_record. cbn [step_enabled] in *.
  destruct (enabled env (record_observations opts) "observations.record_observations").
  - unfold bind at 1. unfold logger at 1.
    set (st1 := add_event _ st).
    assert (latest_is (cam l) st1 e) as He1 by (apply latest_is_add_event; exact He).
    unfold metadata_setitem, read_metadata, bind, ret, invoke.
    destruct (latest_is_update (cam l)
                (fun e0 => {| image_id := image_id e0; path := path e0;
                              metadata := <["status" := VStr "complete"]> (metadata e0) |})
                st1 _ He1) as (He2 & _).
    rewrite Hmeta. cbn beta iota. rewrite ?Hmeta. cbn beta iota. rewrite He2.
    match goal with |- context [insert_current env "observations" ?d] =>
      pose proof (Hins eq_refl d) as Hd; destruct (insert_current env "observations" d);
      [|destruct Hd] end.
    eexists _, _, _. split; [reflexivity|].
    split_and!; [reflexivity|exact Hmeta|apply latest_is_add_event; exact He2| |];
      reflexivity.
  - exists l, st, e. unfold ret. split_and!; auto.
Qed.

Lemma step_record_solved env opts l st d :
  meta l = SolveInfo d ->
  (step_enabled env opts Record_ = true ->
   forall d, is_return (insert_current env "observations" d)) ->
  exists l' st' d' evs,
    step_record env opts l st = (Ok l', st')
    /\ self st' = self st /\ cam l' = cam l /\ meta l' = SolveInfo d'
    /\ events st' = evs ++ events st
    /\ calls evs = if step_enabled env opts Record_
                   then [InsertCurrent "observations" (<["status" := VStr "complete"]> d)]
                   else [].
Proof.
  intros Hmeta Hins. unfold step_record. cbn [step_enabled] in *.
  destruct (enabled env (record_observations opts) "observations.record_observations").
  - unfold metadata_setitem, read_metadata. rewrite Hmeta. run_step.
    cbn [meta set_meta].
    match goal with |- context [insert_current env "observations" ?d] =>
      pose proof (Hins eq_refl d) as Hd; destruct (insert_current env "observations" d);
      [|destruct Hd] end.
    eexists _, _, _, [_; _]. split; [reflexivity|].
    cbn [self add_event cam set_meta meta events].
    split_and!; reflexivity.
  - exists l, st, d, []. unfold ret. split_and!; auto.
Qed.

(** One case distinction inside a guarded step. *)
Ltac guarded_case :=
  match goal with
  | |- context [match meta ?l with _ => _ end] => destruct (meta l)
  | |- context [match current_observation ?o with _ => _ end] =>
      destruct (current_observation o)
  | |- context [match @lookup _ _ _ _ ?k ?m with _ => _ end] => destruct (@lookup _ _ _ _ k m)
  | |- context [match last ?l with _ => _ end] => destruct (last l)
  | |- context [if truthy ?v then _ else _] => destruct (truthy v)
  | |- context [match get_config ?env ?k with _ => _ end] => destruct (get_config env k)
  | |- context [path_exists ?env ?p] => destruct (path_exists env p)
  | |- context [match start_process ?env ?c with _ => _ end] => destruct (start_process env c)
  end.

(** The guarded steps change nothing but the log. *)
Lemma step_pretty_self env opts l st :
  exists st', step_pretty env opts l st = (Ok l, st') /\ self st' = self st.
Proof.
  unfold step_pretty.
  destruct (enabled env (make_pretty_images opts) "observations.make_pretty_images");
    [|exists st; auto].
  unfold read_metadata, latest_exposure. run_step. cbn [self add_event].
  repeat (guarded_case; run_step; cbn [self add_event]);
    eexists; split; reflexivity.
Qed.

Lemma step_upload_self env opts l st :
  exists st', step_upload env opts l st = (Ok l, st') /\ self st' = self st.
Proof.
  unfold step_upload.
  destruct (enabled env (upload_image_immediately opts)
              "observations.upload_image_immediately"); [|exists st; auto].
  unfold upload_exposure, latest_exposure. run_step. cbn [self add_event].
  repeat (guarded_case; run_step; cbn [self add_event]);
    eexists; split; reflexivity.
Qed.

Lemma has_required_fields_insert (d : gmap string value) (key : string) (v : value) :
  has_required_fields d = true -> has_required_fields (<[key := v]> d) = true.
Proof.
  unfold has_required_fields. cbn [forallb].
  rewrite !andb_true_iff, !bool_decide_eq_true.
  intros (Ha & Hb & Hc & He & _).
  split_and!; try reflexivity; apply lookup_insert_is_Some';  right; assumption.
Qed.

(** A pending exposure whose metadata stays its own: no plate solving. *)
Lemma process_exposure_own env opts cam_name st e f p :
  latest_is cam_name st e ->
  has_required_fields (metadata e) = true ->
  marked_complete (metadata e) = false ->
  step_enabled env opts Solve = false ->
  metadata e !! "filepath" = Some f ->
  (step_enabled env opts Compress = true -> fpack env f = Returns p) ->
  (step_enabled env opts Record_ = true ->
   forall d, is_return (insert_current env "observations" d)) ->
  exists st' e',
    process_exposure env opts cam_name st = (Ok Continue, st')
    /\ latest_is cam_name st' e'
    /\ path e' = (if step_enabled env opts Compress then p else path e)
    /\ metadata e'
       = (if step_enabled env opts Record_
          then <["status" := VStr "complete"]>
          else fun d => d)
           ((if step_enabled env opts Compress then <["filepath" := p]> else fun d => d)
              (metadata e)).
Proof.
  intros He Hreq Hpending Hsolve Hf Hfpack Hins.
  destruct (has_required_fields_lookup _ Hreq) as (a & b & c & x & Ha & Hb & Hc & Hx).
  rewrite (process_exposure_steps env opts cam_name st e a b c x He Ha Hb Hc Hx Hpending).
  assert (c = f) as -> by congruence.
  set (st0 := add_event _ st).
  set (l0 := {| cam := cam_name |}).
  assert (latest_is (cam l0) st0 e) as He0 by (apply latest_is_add_event; exact He).
  unfold bind at 1. rewrite (step_solve_off env opts l0 st0 Hsolve).
  destruct (step_compress_own env opts l0 st0 e p eq_refl He0 Hfpack)
    as (l2 & st2 & e2 & Hs2 & Hc2 & Hm2 & He2 & Heff2).
  unfold bind at 1. rewrite Hs2. rewrite <- Hc2 in He2.
  destruct (step_record_own env opts l2 st2 e2 Hm2 He2 Hins)
    as (l3 & st3 & e3 & Hs3 & Hc3 & Hm3 & He3 & Hpath3 & Hmeta3).
  unfold bind at 1. rewrite Hs3.
  destruct (step_pretty_self env opts l3 st3) as (st4 & Hs4 & Hself4).
  unfold bind at 1. rewrite Hs4.
  destruct (step_upload_self env opts l3 st4) as (st5 & Hs5 & Hself5).
  unfold bind at 1. rewrite Hs5. unfold ret.
  exists st5, e3. split; [reflexivity|].
  split.
  { apply (latest_is_self _ st4 st5 _ Hself5), (latest_is_self _ st3 st4 _ Hself4).
    rewrite Hc2 in He3. exact He3. }
  rewrite Hpath3, Hmeta3. revert Heff2.
  destruct (step_enabled env opts Compress); [intros [-> ->]|intros ->];
    destruct (step_enabled env opts Record_); auto.
Qed.

(** X23. Without plate solving, a pending exposure that is recorded is
    marked complete in its own metadata, which keeps the required fields;
    [process_observation] then skips it the next time, whatever the options
    and the environment of that call. *)
Theorem recorded_exposure_is_skipped_next_time env opts cam_name st e :
  latest_is cam_name st e ->
  has_required_fields (metadata e) = true ->
  marked_complete (metadata e) = false ->
  step_enabled env opts Solve = false ->
  step_enabled env opts Record_ = true ->
  (step_enabled env opts Compress = true -> forall p, is_return (fpack env p)) ->
  (forall d, is_return (insert_current env "observations" d)) ->
  exists st' e',
    process_exposure env opts cam_name st = (Ok Continue, st')
    /\ latest_is cam_name st' e'
    /\ marked_complete (metadata e') = true
    /\ has_required_fields (metadata e') = true
    /\ forall env' opts',
         process_exposure env' opts' cam_name st'
         = (Ok Return,
            add_event (Logged DEBUG "has already been processed, skipping")
              (add_event (Logged DEBUG "Processing observation with exposure") st')).
Proof.
  intros He Hreq Hpending Hsolve Hrecord Hfpack Hins.
  destruct (has_required_fields_lookup _ Hreq) as (a & b & f & x & _ & _ & Hf & _).
  assert (exists p, step_enabled env opts Compress = true -> fpack env f = Returns p)
    as [p Hp].
  { destruct (step_enabled env opts Compress); [|exists f; discriminate].
    pose proof (Hfpack eq_refl f) as Hret.
    destruct (fpack env f) as [p|]; [|destruct Hret]. exists p. reflexivity. }
  destruct (process_exposure_own env opts cam_name st e f p He Hreq Hpending Hsolve Hf Hp
              (fun _ => Hins)) as (st' & e' & Hrun & He' & _ & Hmeta).
  rewrite Hrecord in Hmeta.
  assert (marked_complete (metadata e') = true) as Hdone.
  { rewrite Hmeta. unfold marked_complete. apply bool_decide_eq_true.
    apply lookup_insert_eq. }
  assert (has_required_fields (metadata e') = true) as Hreq'.
  { rewrite Hmeta. apply has_required_fields_insert.
    destruct (step_enabled env opts Compress);
      [apply has_required_fields_insert|]; exact Hreq. }
  exists st', e'. split_and!; auto.
  intros env' opts'. apply (process_exposure_complete env' opts' cam_name st' e' He' Hreq' Hdone).
Qed.

Lemma recorded_exposure_is_skipped_next_time_example :
  let first := process_exposure quiet_environment record_only "Cam00"
                 (only_camera "Cam00") in
  fst first = Ok Continue
  /\ fst (process_exposure quiet_environment all_steps "Cam00" (snd first)) = Ok Return.
Proof.
  intros first.
  destruct (recorded_exposure_is_skipped_next_time quiet_environment record_only "Cam00"
              (only_camera "Cam00") (example_exposure "a0" None)
              eq_refl eq_refl eq_refl eq_refl eq_refl
              (fun H : false = true => match Bool.diff_false_true H with end)
              (fun _ => I))
    as (st' & e' & Hrun & _ & _ & _ & Hnext).
  subst first. rewrite Hrun. cbn [fst snd]. rewrite (Hnext quiet_environment all_steps).
  split; reflexivity.
Defined.

(** X24. With plate solving on and a solver that answers, the local name
    [metadata] is rebound to the solver's dict and the later steps write
    there: the metadata of the exposure itself is left as it was, not
    marked complete.  The exposure is thus pending again at the next call,
    which enters every enabled step once more. *)
Theorem solved_exposure_is_processed_again env opts cam_name st e :
  latest_is cam_name st e ->
  has_required_fields (metadata e) = true ->
  marked_complete (metadata e) = false ->
  step_enabled env opts Solve = true ->
  (forall p, is_return (get_solve_field env p)) ->
  (step_enabled env opts Compress = true -> forall p, is_return (fpack env p)) ->
  (step_enabled env opts Record_ = true ->
   forall d, is_return (insert_current env "observations" d)) ->
  exists st' e',
    process_exposure env opts cam_name st = (Ok Continue, st')
    /\ latest_is cam_name st' e'
    /\ metadata e' = metadata e
    /\ exists st2 evs,
         process_exposure env opts cam_name st' = (Ok Continue, st2)
         /\ events st2 = evs ++ events st'
         /\ steps_entered evs = enabled_steps env opts.
Proof.
  intros He Hreq Hpending Hsolve Hsolver Hfpack Hins.
  destruct (has_required_fields_lookup _ Hreq) as (a & b & c & x & Ha & Hb & Hc & Hx).
  rewrite (process_exposure_steps env opts cam_name st e a b c x He Ha Hb Hc Hx Hpending).
  set (st0 := add_event _ st).
  set (l0 := {| cam := cam_name |}).
  assert (latest_is (cam l0) st0 e) as He0 by (apply latest_is_add_event; exact He).
  pose proof (Hsolver (l_file_path l0)) as Hd.
  destruct (get_solve_field env (l_file_path l0)) as [d|] eqn:Hfield; [|destruct Hd].
  destruct (step_solve_solved env opts l0 st0 d Hsolve Hfield)
    as (l1 & st1 & Hs1 & Hself1 & Hc1 & Hm1).
  unfold bind at 1. rewrite Hs1.
  assert (latest_is (cam l1) st1 e) as He1
    by (rewrite Hc1; apply (latest_is_self _ st0 st1 _ Hself1), He0).
  destruct (step_compress_solved env opts l1 st1 e d Hm1 He1 (fun H => Hfpack H _))
    as (l2 & st2 & e2 & d2 & Hs2 & Hc2 & Hm2 & He2 & Hmeta2).
  unfold bind at 1. rewrite Hs2.
  destruct (step_record_solved env opts l2 st2 d2 Hm2 Hins)
    as (l3 & st3 & d3 & evs3 & Hs3 & Hself3 & Hc3 & Hm3 & _).
  unfold bind at 1. rewrite Hs3.
  destruct (step_pretty_self env opts l3 st3) as (st4 & Hs4 & Hself4).
  unfold bind at 1. rewrite Hs4.
  destruct (step_upload_self env opts l3 st4) as (st5 & Hs5 & Hself5).
  unfold bind at 1. rewrite Hs5. unfold ret.
  assert (latest_is cam_name st5 e2) as He5.
  { apply (latest_is_self _ st4 st5 _ Hself5), (latest_is_self _ st3 st4 _ Hself4),
      (latest_is_self _ st2 st3 _ Hself3).
    rewrite Hc1 in He2. exact He2. }
  exists st5, e2. split; [reflexivity|]. split; [exact He5|]. split; [exact Hmeta2|].
  rewrite <- Hmeta2 in Hreq, Hpending.
  destruct (process_exposure_pending env opts cam_name st5 e2 He5 Hreq Hpending Hfpack Hins)
    as (st6 & evs & Hrun & Hevs & Hsteps & _).
  exists st6, evs. auto.
Qed.

Lemma solved_exposure_is_processed_again_example :
  let first := process_exposure quiet_environment all_steps "Cam00" (only_camera "Cam00") in
  fst first = Ok Continue
  /\ exists e', latest_is "Cam00" (snd first) e'
                /\ marked_complete (metadata e') = false.
Proof.
  intros first.
  destruct (solved_exposure_is_processed_again quiet_environment all_steps "Cam00"
              (only_camera "Cam00") (example_exposure "a0" None)
              eq_refl eq_refl eq_refl eq_refl (fun _ => I) (fun _ _ => I) (fun _ _ => I))
    as (st' & e' & Hrun & He' & Hmeta & _).
  subst first. rewrite Hrun. cbn [fst snd]. split; [reflexivity|].
  exists e'. split; [exact He'|]. rewrite Hmeta. reflexivity.
Defined.

(** X25. Without plate solving, the compress step leaves the exposure
    pointing to the packed file: its [path] and the [filepath] of its
    metadata are both what [fpack] returned for the [filepath] it had. *)
Theorem compressed_exposure_points_to_the_packed_file env opts cam_name st e f p :
  latest_is cam_name st e ->
  has_required_fields (metadata e) = true ->
  marked_complete (metadata e) = false ->
  step_enabled env opts Solve = false ->
  step_enabled env opts Compress = true ->
  metadata e !! "filepath" = Some f ->
  fpack env f = Returns p ->
  (step_enabled env opts Record_ = true ->
   forall d, is_return (insert_current env "observations" d)) ->
  exists st' e',
    process_exposure env opts cam_name st = (Ok Continue, st')
    /\ latest_is cam_name st' e'
    /\ path e' = p
    /\ metadata e' !! "filepath" = Some p.
Proof.
  intros He Hreq Hpending Hsolve Hcompress Hf Hp Hins.
  destruct (process_exposure_own env opts cam_name st e f p He Hreq Hpending Hsolve Hf
              (fun _ => Hp) Hins) as (st' & e' & Hrun & He' & Hpath & Hmeta).
  rewrite Hcompress in Hpath, Hmeta.
  exists st', e'. split_and!; auto.
  - rewrite Hmeta. destruct (step_enabled env opts Record_).
    + rewrite lookup_insert_ne by discriminate. apply lookup_insert_eq.
    + apply lookup_insert_eq.
Qed.

Lemma compressed_exposure_points_to_the_packed_file_example :
  let opts := {| compress_fits := Some true; record_observations := Some true;
                 make_pretty_images := None; plate_solve := None;
                 upload_image_immediately := None |} in
  let out := process_exposure quiet_environment opts "Cam00" (only_camera "Cam00") in
  fst out = Ok Continue
  /\ exists e', latest_is "Cam00" (snd out) e' /\ path e' = VStr "/images/a0.fits.fz".
Proof.
  intros opts out.
  destruct (compressed_exposure_points_to_the_packed_file quiet_environment opts "Cam00"
              (only_camera "Cam00") (example_exposure "a0" None)
              (VStr "/images/a0.fits") (VStr "/images/a0.fits.fz")
              eq_refl eq_refl eq_refl eq_refl eq_refl eq_refl eq_refl (fun _ _ => I))
    as (st' & e' & Hrun & He' & Hpath & _).
  subst out. rewrite Hrun. cbn [fst snd]. split; [reflexivity|].
  exists e'. split; [exact He'|exact Hpath].
Defined.

(** X26. An exposure whose metadata lacks one of [image_id], [sequence_id],
    [filepath] and [exptime] makes [process_observation] raise [PanError]
    when the loop reaches it, marked complete or not: no step is entered for
    it, nothing is called, and the cameras after it are not processed. *)
Theorem missing_metadata_aborts_the_run
    env opts (pre : list string) cam_name (rest : list string) st st1 e :
  od_keys (cameras (self st)) = pre ++ cam_name :: rest ->
  run_through env opts pre st = Some st1 ->
  latest_is cam_name st1 e ->
  has_required_fields (metadata e) = false ->
  process_observation env opts st
  = (Raise (PanError "No information in image metadata, unable to process"),
     add_event (Logged DEBUG "Processing observation with exposure") st1).
Proof.
  intros Hkeys Hpre He Hreq.
  unfold process_observation. rewrite Hkeys.
  rewrite (process_cameras_run_through _ _ _ _ _ _ Hpre).
  cbn [process_cameras]. unfold bind at 1.
  unfold process_exposure. unfold bind at 1. rewrite He.
  unfold bind at 1. unfold logger at 1.
  unfold has_required_fields in Hreq. cbn [forallb] in Hreq.
  unfold required_field.
  destruct (metadata e !! "image_id"); [|reflexivity].
  destruct (metadata e !! "sequence_id"); [|reflexivity].
  destruct (metadata e !! "filepath"); [|reflexivity].
  destruct (metadata e !! "exptime"); [|reflexivity].
  exfalso. rewrite !bool_decide_eq_true_2 in Hreq by eauto. discriminate Hreq.
Qed.

Lemma missing_metadata_aborts_the_run_example :
  let bare := {| image_id := "a0"; path := VStr "/images/a0.fits";
                 metadata := <["status" := VStr "complete"]> (<["image_id" := VStr "a0"]> ∅) |} in
  let st := set_self
              {| cameras := [("Cam00", example_camera "Cam00" false 0)];
                 _primary_camera := None;
                 current_observation :=
                   Some {| exptime := 20; exposure_list := <["Cam00" := [bare]]> ∅ |} |}
              example_state in
  fst (process_observation quiet_environment all_steps st)
  = Raise (PanError "No information in image metadata, unable to process").
Proof.
  intros bare st.
  rewrite (missing_metadata_aborts_the_run quiet_environment all_steps [] "Cam00" [] st st bare
             eq_refl eq_refl eq_refl eq_refl).
  reflexivity.
Defined.

(** X27. The upload step for an exposure whose file does not exist: the
    [FileNotFoundError] of [upload_exposure] is caught, a warning is logged,
    no uploader process is started and the loop body goes on. *)
Theorem upload_of_a_missing_file_is_skipped env opts l st e :
  latest_is (cam l) st e ->
  step_enabled env opts Upload = true ->
  path_exists env (path e) = false ->
  upload_exposure env e st = (Raise FileNotFoundError, st)
  /\ exists st' evs,
       step_upload env opts l st = (Ok l, st')
       /\ self st' = self st
       /\ events st' = evs ++ events st
       /\ calls evs = []
       /\ warnings evs = ["Problem uploading exposure"].
Proof.
  intros He Hupload Hmissing. split.
  - unfold upload_exposure. rewrite Hmissing. reflexivity.
  - unfold step_upload. cbn [step_enabled] in Hupload. rewrite Hupload.
    run_step. rewrite (latest_is_add_event _ _ _ _ He).
    unfold upload_exposure. rewrite Hmissing. run_step.
    eexists _, [_; _]. split; [reflexivity|]. split_and!; reflexivity.
Qed.

Lemma upload_of_a_missing_file_is_skipped_example :
  let env := {| get_config := get_config quiet_environment;
                get_standard_headers := get_standard_headers quiet_environment;
                take_observation := take_observation quiet_environment;
                get_solve_field := get_solve_field quiet_environment;
                fpack := fpack quiet_environment;
                insert_current := insert_current quiet_environment;
                path_exists := fun _ => false;
                start_process := start_process quiet_environment |} in
  let l := {| cam := "Cam00"; meta := OfExposure; l_image_id := VStr "a0";
              l_seq_id := VStr "s"; l_file_path := VStr "/images/a0.fits";
              l_exptime := VNum 20; l_field_name := VStr "" |} in
  warnings (events (snd (step_upload env all_steps l (only_camera "Cam00"))))
  = ["Problem uploading exposure"].
Proof.
  intros env l.
  destruct (proj2 (upload_of_a_missing_file_is_skipped env all_steps l (only_camera "Cam00")
                     (example_exposure "a0" None) eq_refl eq_refl eq_refl))
    as (st' & evs & Hrun & _ & Hevs & _ & Hwarn).
  rewrite Hrun. cbn [snd]. rewrite Hevs, warnings_app, Hwarn. reflexivity.
Defined.


End ExposureProperties.

(** ** observatory.py: [autofocus_cameras] *)
Section AutofocusProperties.
Import Observatory Autofocus.

Lemma od_set_NoDup {V} (d : list (string * V)) (k : string) (v : V) :
  NoDup (od_keys d) -> NoDup (od_keys (od_set d k v)).
Proof.
  intros Hnodup. destruct (od_mem d k) eqn:Hmem.
  - rewrite od_set_keys by exact Hmem. exact Hnodup.
  - rewrite od_set_keys_new by exact Hmem.
    apply NoDup_app. split; [exact Hnodup|]. split; [|apply NoDup_singleton].
    intros x Hx Hk. apply list_elem_of_singleton in Hk as ->.
    unfold od_mem in Hmem. destruct (od_get d k) eqn:Hget; [discriminate|].
    apply od_get_None_keys in Hget. apply Hget, list_elem_of_In, Hx.
Qed.

(** The dict comprehension over [camera_list]. *)
Lemma named_cameras_fold (registry : list (string * focus_camera)) (names : list string)
    (acc : list (string * focus_camera)) (n : string) :
  NoDup (od_keys acc) ->
  let cameras := fold_left (fun cameras cam_name =>
                              match od_get registry cam_name with
                              | Some camera => od_set cameras cam_name camera
                              | None => cameras
                              end) names acc in
  NoDup (od_keys cameras)
  /\ od_get cameras n = (if in_dec string_dec n names
                         then match od_get registry n with
                              | Some camera => Some camera
                              | None => od_get acc n
                              end
                         else od_get acc n).
Proof.
  revert acc. induction names as [|k names IH]; intros acc Hnodup; cbn [fold_left].
  - split; [exact Hnodup|reflexivity].
  - set (acc' := match od_get registry k with
                 | Some camera => od_set acc k camera
                 | None => acc
                 end).
    assert (NoDup (od_keys acc')) as Hnodup'
      by (subst acc'; destruct (od_get registry k); [apply od_set_NoDup|]; exact Hnodup).
    destruct (IH acc' Hnodup') as [Hres Hget]. clear IH. split; [exact Hres|].
    cbv zeta in Hget. rewrite Hget. clear Hget Hres.
    assert (od_get acc' n = if string_dec k n
                            then match od_get registry n with
                                 | Some camera => Some camera
                                 | None => od_get acc n
                                 end
                            else od_get acc n) as Hacc'.
    { subst acc'. destruct (string_dec k n) as [->|Hne].
      - destruct (od_get registry n); [apply od_get_set|reflexivity].
      - destruct (od_get registry k); [apply od_get_set_other; exact Hne|reflexivity]. }
    rewrite Hacc'. clear Hacc' Hnodup'. clearbody acc'.
    destruct (in_dec string_dec n (k :: names)) as [Hin|Hout];
      destruct (in_dec string_dec n names) as [Hin'|Hout'];
      destruct (string_dec k n) as [Heq|Hne];
      try reflexivity;
      try (destruct (od_get registry n); reflexivity);
      exfalso; cbn [In] in *; tauto.
Qed.

(** The cameras that the loop runs over. *)
Lemma select_cameras (registry : list (string * focus_camera))
    (camera_list : option (list string)) :
  NoDup (od_keys registry) ->
  NoDup (od_keys (fst (select registry camera_list)))
  /\ forall n camera,
       od_get (fst (select registry camera_list)) n = Some camera
       <-> asked_for camera_list n /\ od_get registry n = Some camera.
Proof.
  intros Hnodup. destruct camera_list as [[|k names]|]; cbn [select fst asked_for].
  - split; [exact Hnodup|]. tauto.
  - pose proof (fun n => named_cameras_fold registry (k :: names) [] n NoDup_nil_2)
      as Hfold.
    cbv zeta in Hfold. fold (named_cameras registry (k :: names)) in Hfold.
    split; [exact (proj1 (Hfold k))|].
    intros n camera. rewrite (proj2 (Hfold n)). cbn [od_get].
    destruct (in_dec string_dec n (k :: names)) as [Hin|Hout].
    + destruct (od_get registry n); split; try tauto; try (intros [_ H]; exact H);
        discriminate.
    + split; [discriminate|]. intros [Hin _]. contradiction.
  - split; [exact Hnodup|]. tauto.
Qed.

Lemma focus_one_events (acc : list (string * nat)) (log : list entry)
    (cam_name : string) (camera : focus_camera) :
  fst (focus_one (acc, log) (cam_name, camera))
  = match focused camera with
    | Some autofocus_event => od_set acc cam_name autofocus_event
    | None => acc
    end.
Proof.
  unfold focus_one, focused, has_connected_focuser.
  destruct (focuser camera) as [[]|]; try reflexivity.
  destruct (autofocus camera); reflexivity.
Qed.

Lemma focus_one_started (acc : list (string * nat)) (log : list entry)
    (cam_name : string) (camera : focus_camera) :
  autofocus_started (snd (focus_one (acc, log) (cam_name, camera)))
  = autofocus_started log ++ (if has_connected_focuser camera then [cam_name] else []).
Proof.
  unfold focus_one, has_connected_focuser, autofocus_started.
  destruct (focuser camera) as [[]|]; [destruct (autofocus camera)| |];
    cbn [snd rev]; rewrite ?omap_app; cbn [omap]; rewrite ?app_nil_r, <- ?app_assoc;
    reflexivity.
Qed.

(** The loop over the selected cameras. *)
Lemma focus_loop (cameras : list (string * focus_camera)) (acc : list (string * nat))
    (log : list entry) :
  NoDup (od_keys cameras) ->
  let out := fold_left focus_one cameras (acc, log) in
  (forall n, od_get (fst out) n = match od_get cameras n ≫= focused with
                                  | Some autofocus_event => Some autofocus_event
                                  | None => od_get acc n
                                  end)
  /\ autofocus_started (snd out)
     = autofocus_started log
       ++ od_keys (List.filter (fun item => has_connected_focuser (snd item)) cameras).
Proof.
  revert acc log. induction cameras as [|[k c] cameras IH]; intros acc log Hnodup;
    cbn [fold_left].
  - split; [reflexivity|]. cbn. rewrite app_nil_r. reflexivity.
  - cbn [od_keys map fst] in Hnodup. apply NoDup_cons in Hnodup as [Hk Hrest].
    destruct (focus_one (acc, log) (k, c)) as [acc' log'] eqn:Hone.
    pose proof (focus_one_events acc log k c) as Hacc. rewrite Hone in Hacc.
    pose proof (focus_one_started acc log k c) as Hlog. rewrite Hone in Hlog.
    cbn [fst snd] in Hacc, Hlog.
    destruct (IH acc' log' Hrest) as [Hget Hstarted]. cbv zeta in Hget, Hstarted.
    split.
    + intros n. rewrite Hget. cbn [od_get].
      destruct (String.eqb_spec n k) as [->|Hne].
      * assert (od_get cameras k = None) as ->.
        { apply od_get_None_keys. intros Hin. apply Hk, list_elem_of_In, Hin. }
        cbn [mbind option_bind]. rewrite Hacc.
        destruct (focused c); [apply od_get_set|reflexivity].
      * destruct (od_get cameras n ≫= focused); [reflexivity|].
        rewrite Hacc. destruct (focused c); [|reflexivity].
        apply od_get_set_other. congruence.
    + rewrite Hstarted, Hlog. cbn [List.filter snd].
      destruct (has_connected_focuser c); cbn [od_keys map fst app];
        rewrite <- ?app_assoc; reflexivity.
Qed.

Lemma od_get_filter_keys {V} (d : list (string * V)) (P : string * V -> bool) (n : string) :
  NoDup (od_keys d) ->
  In n (od_keys (List.filter P d)) <-> exists v, od_get d n = Some v /\ P (n, v) = true.
Proof.
  induction d as [|[k v] d IH]; intros Hnodup; cbn [List.filter od_get od_keys map fst].
  - split; [intros []|intros (v & H & _); discriminate].
  - cbn [od_keys map fst] in Hnodup. apply NoDup_cons in Hnodup as [Hk Hrest].
    specialize (IH Hrest).
    destruct (String.eqb_spec n k) as [->|Hne].
    + split.
      * intros Hin. exists v. split; [reflexivity|].
        destruct (P (k, v)) eqn:HP; [reflexivity|].
        exfalso. apply IH in Hin as (v' & Hget & _).
        assert (od_get d k = None) as Hnone
          by (apply od_get_None_keys; intros H; apply Hk, list_elem_of_In, H).
        congruence.
      * intros (v' & [= <-] & HP). rewrite HP. left. reflexivity.
    + destruct (P (k, v)); cbn [od_keys map fst In]; rewrite IH; [|tauto].
      split; [intros [Heq|H]; [congruence|exact H]|tauto].
Qed.

(** X28. The events that [autofocus_cameras] returns: a name maps to an event
    exactly when the camera is asked for (every camera is, when no list or an
    empty list is given), is registered under that name, has a connected
    focuser, and its autofocus returned that event.  Names that are not
    registered, cameras without a connected focuser and cameras whose
    autofocus raises are left out. *)
Theorem autofocus_events_are_those_of_the_ready_cameras
    (registry : list (string * focus_camera)) (camera_list : option (list string))
    (n : string) (autofocus_event : nat) :
  NoDup (od_keys registry) ->
  od_get (fst (autofocus_cameras registry camera_list)) n = Some autofocus_event
  <-> asked_for camera_list n
      /\ exists camera,
           od_get registry n = Some camera
           /\ focuser camera = Some true
           /\ autofocus camera = Returns autofocus_event.
Proof.
  intros Hnodup. unfold autofocus_cameras.
  destruct (select_cameras registry camera_list Hnodup) as [Hsel Hget].
  destruct (select registry camera_list) as [cameras log]. cbn [fst] in Hsel, Hget.
  destruct (focus_loop cameras [] log Hsel) as [Hevents _]. cbv zeta in Hevents.
  rewrite Hevents. cbn [od_get].
  assert (forall camera, focused camera = Some autofocus_event
                         <-> focuser camera = Some true
                             /\ autofocus camera = Returns autofocus_event) as Hfocused.
  { intros camera. unfold focused, has_connected_focuser.
    destruct (focuser camera) as [[]|]; [|split; [discriminate|intros [[=] _]]..].
    destruct (autofocus camera); split.
    - intros [= ->]. auto.
    - intros [_ [= ->]]. reflexivity.
    - discriminate.
    - intros [_ [=]]. }
  destruct (od_get cameras n) as [camera|] eqn:Hcam; cbn [mbind option_bind].
  - apply Hget in Hcam as [Hasked Hreg].
    destruct (focused camera) as [ev|] eqn:Hf.
    + split.
      * intros [= ->]. split; [exact Hasked|]. exists camera. split; [exact Hreg|].
        apply Hfocused, Hf.
      * intros (_ & camera' & Hreg' & Hready). rewrite Hreg in Hreg'.
        injection Hreg' as <-. apply Hfocused in Hready. congruence.
    + split; [discriminate|].
      intros (_ & camera' & Hreg' & Hready). rewrite Hreg in Hreg'.
      injection Hreg' as <-. apply Hfocused in Hready. congruence.
  - split; [discriminate|].
    intros (Hasked & camera & Hreg & _).
    assert (od_get cameras n = Some camera) as H by (apply Hget; auto). congruence.
Qed.

Lemma autofocus_events_are_those_of_the_ready_cameras_example :
  od_get (fst (autofocus_cameras example_registry (Some ["Cam00"; "Nope"; "Cam00"]))) "Cam00"
  = Some 7%nat.
Proof.
  assert (NoDup (od_keys example_registry)) as Hnodup.
  { apply NoDup_ListNoDup. cbn. repeat constructor; cbn; intuition discriminate. }
  apply (autofocus_events_are_those_of_the_ready_cameras example_registry
           (Some ["Cam00"; "Nope"; "Cam00"]) "Cam00" 7 Hnodup).
  split; [left; reflexivity|]. eexists. split_and!; reflexivity.
Defined.

(** X29. [autofocus_cameras] starts the autofocus of a camera at most once,
    also when the list names it twice, and exactly of the cameras that are
    asked for, registered and have a connected focuser. *)
Theorem autofocus_is_started_once_per_ready_camera
    (registry : list (string * focus_camera)) (camera_list : option (list string)) :
  NoDup (od_keys registry) ->
  let started := autofocus_started (snd (autofocus_cameras registry camera_list)) in
  List.NoDup started
  /\ forall n, In n started
               <-> asked_for camera_list n
                   /\ exists camera, od_get registry n = Some camera
                                     /\ focuser camera = Some true.
Proof.
  intros Hnodup started. subst started. unfold autofocus_cameras.
  destruct (select_cameras registry camera_list Hnodup) as [Hsel Hget].
  assert (autofocus_started (snd (select registry camera_list)) = []) as Hlog.
  { destruct camera_list as [[|k names]|]; cbn [select snd]; try reflexivity.
    destruct (named_cameras registry (k :: names)); reflexivity. }
  destruct (select registry camera_list) as [cameras log]. cbn [fst snd] in Hsel, Hget, Hlog.
  destruct (focus_loop cameras [] log Hsel) as [_ Hstarted]. cbv zeta in Hstarted.
  rewrite Hstarted, Hlog. cbn [app]. split.
  - apply NoDup_ListNoDup.
    assert (forall d : list (string * focus_camera),
              NoDup (od_keys d) ->
              NoDup (od_keys (List.filter (fun item => has_connected_focuser (snd item)) d)))
      as Hfilter.
    { induction d as [|[k c] d IH]; cbn [List.filter od_keys map fst snd]; intros Hd;
        [exact Hd|].
      apply NoDup_cons in Hd as [Hk Hd].
      destruct (has_connected_focuser c); [|exact (IH Hd)].
      cbn [od_keys map fst]. apply NoDup_cons. split; [|exact (IH Hd)].
      intros Hin. apply Hk. apply list_elem_of_In in Hin. apply list_elem_of_In.
      apply (od_get_filter_keys d _ k Hd) in Hin as (v & Hv & _).
      destruct (in_dec string_dec k (od_keys d)) as [H|H]; [exact H|].
      apply od_get_None_keys in H. congruence. }
    exact (Hfilter cameras Hsel).
  - intros n. rewrite (od_get_filter_keys cameras _ n Hsel). cbn [snd].
    split.
    + intros (camera & Hcam & Hready). apply Hget in Hcam as [Hasked Hreg].
      split; [exact Hasked|]. exists camera. split; [exact Hreg|].
      unfold has_connected_focuser in Hready.
      destruct (focuser camera) as [[]|]; [reflexivity|discriminate..].
    + intros (Hasked & camera & Hreg & Hready). exists camera. split.
      * apply Hget. auto.
      * unfold has_connected_focuser. rewrite Hready. reflexivity.
Qed.

Lemma autofocus_is_started_once_per_ready_camera_example :
  In "Cam02" (autofocus_started (snd (autofocus_cameras example_registry None)))
  /\ ~ In "Cam03" (autofocus_started (snd (autofocus_cameras example_registry None))).
Proof.
  assert (NoDup (od_keys example_registry)) as Hnodup.
  { apply NoDup_ListNoDup. cbn. repeat constructor; cbn; intuition discriminate. }
  destruct (autofocus_is_started_once_per_ready_camera example_registry None Hnodup)
    as [_ Hin].
  split.
  - apply Hin. split; [exact I|]. eexists. split; reflexivity.
  - intros H. apply Hin in H as (_ & camera & Hreg & Hready).
    injection Hreg as <-. discriminate Hready.
Defined.

End AutofocusProperties.

(** ** base.py: [process_exposure] *)
Section ReadoutProperties.
Import GPhoto Readout.

(** The wait loop, for a command that ends at [e]. *)
Lemma wait_for_exposure_ends (fuel : nat) (c : camera) (w : world) (p : process) (e : nat) :
  _command_proc c = Some p ->
  ended_at w p = Some e ->
  (e - now w < fuel)%nat ->
  exists w',
    wait_for_exposure fuel (c, w) = (Ok tt, (clear_is_exposing_event c, w'))
    /\ now w' = (if _is_exposing_event c then Nat.max (now w) e else now w)
    /\ started w' = started w /\ kills w' = kills w /\ log w' = log w.
Proof.
  revert w. induction fuel as [|fuel IH]; intros w Hp He Hfuel; [lia|].
  cbn [wait_for_exposure]. unfold is_exposing. rewrite Hp. unfold poll. rewrite He.
  destruct (Nat.leb_spec e (now w)) as [Hdone|Hrunning].
  - cbn [_is_exposing_event clear_is_exposing_event]. exists w.
    split; [reflexivity|]. split_and!; try reflexivity.
    destruct (_is_exposing_event c); lia.
  - destruct (_is_exposing_event c) eqn:Hevent.
    + cbn [sleep_one].
      destruct (IH (set_now (S (now w)) w) Hp) as (w' & Hrun & Hnow & Hst & Hk & Hl).
      { exact He. }
      { cbn [now set_now]. lia. }
      exists w'. rewrite Hrun. split; [reflexivity|].
      rewrite Hnow. cbn [now set_now started kills log] in *. split_and!; auto. lia.
    + exists w. destruct c; cbn in *; subst. unfold clear_is_exposing_event. cbn.
      split_and!; reflexivity.
Qed.

(** X30. [process_exposure] does not convert the image before the command
    has ended: with the exposing event set and a command that ends at [e], it
    waits, second by second, until the time has reached [e], clears the
    event, and only then converts; the caller's metadata then points to the
    FITS file.  (The fuel bounds the turns of the loop; the time left until
    [e] is enough.) *)
Theorem process_exposure_waits_for_the_command
    (conv : converter) (fuel : nat) (metadata : gmap string string)
    (c : camera) (w : world) (p : process) (e : nat) (file_path fits_path : string) :
  _is_exposing_event c = true ->
  _command_proc c = Some p ->
  ended_at w p = Some e ->
  (e - now w < fuel)%nat ->
  metadata !! "filepath" = Some file_path ->
  cr2_to_fits conv file_path metadata = Observatory.Returns fits_path ->
  super_process_exposure conv (<["filepath" := fits_path]> metadata) = Observatory.Returns tt ->
  exists w',
    process_exposure conv fuel metadata (c, w)
    = (Ok tt, (<["filepath" := fits_path]> metadata, (clear_is_exposing_event c, w')))
    /\ now w' = Nat.max (now w) e
    /\ fst (is_exposing (clear_is_exposing_event c, w')) = false
    /\ started w' = started w /\ kills w' = kills w.
Proof.
  intros Hevent Hp He Hfuel Hpath Hconv Hsuper.
  destruct (wait_for_exposure_ends fuel c w p e Hp He Hfuel)
    as (w' & Hwait & Hnow & Hst & Hk & _).
  rewrite Hevent in Hnow.
  unfold process_exposure. rewrite Hwait, Hpath, Hconv. cbn [guarded].
  rewrite Hsuper. cbn [guarded].
  eexists. split; [reflexivity|]. cbn [now started kills add_log].
  split_and!; auto.
  unfold is_exposing. cbn [_command_proc clear_is_exposing_event _is_exposing_event].
  destruct (_command_proc c) as [q|]; [destruct (poll _ q)|]; reflexivity.
Qed.

Lemma process_exposure_waits_for_the_command_example :
  let p := {| handle := 0; pid := 4242; run_cmd := ["gphoto2"]; exits_at := Some 5%nat;
              stdout_by := fun _ => ""; stderr_by := fun _ => "" |} in
  let c := {| port := None; _command_proc := Some p; _is_exposing_event := true |} in
  let w := {| now := 2; started := [p]; kills := []; log := [] |} in
  let conv := {| cr2_to_fits := fun f _ => Observatory.Returns (f ++ ".fits")%string;
                 super_process_exposure := fun _ => Observatory.Returns tt |} in
  let out := process_exposure conv 4 (<["filepath" := "a.cr2"]> ∅) (c, w) in
  fst out = Ok tt /\ now (snd (snd (snd out))) = 5%nat.
Proof.
  intros p c w conv out.
  assert ((<["filepath" := "a.cr2"]> ∅ : gmap string string) !! "filepath" = Some "a.cr2")
    as Hpath by apply lookup_insert_eq.
  destruct (process_exposure_waits_for_the_command conv 4 (<["filepath" := "a.cr2"]> ∅)
              c w p 5 "a.cr2" "a.cr2.fits" eq_refl eq_refl eq_refl
              (Nat.lt_succ_diag_r 3) Hpath eq_refl eq_refl)
    as (w' & Hrun & Hnow & _).
  subst out. rewrite Hrun. cbn [fst snd]. split; [reflexivity|exact Hnow].
Defined.

End ReadoutProperties.
